(** * clipboard-to-note: a shallow embedding of [src/main.ts]

    The plugin turns the clipboard into a note: it classifies the text as a
    URL or as plain text, builds a title, tags and a front matter block,
    places the file without overwriting an existing one, and for web clips
    rewrites and downloads the images of the page.

    Conventions of the embedding.
    - A JavaScript string is a sequence of UTF-16 code units.  The embedding
      works with the code units below 256 (Latin-1), which is Stdlib's
      [ascii]; [string] is the type of JavaScript strings.
    - JavaScript numbers that the plugin uses are integers; they are [Z]
      (clock fields, scores, HTTP status codes, indices) or [nat] (loop
      counters that start at 1).
    - What the plugin receives from its host (the vault, the HTTP transport,
      the clock, the URL parser, the chat endpoint, the HTML converter) is a
      field of the record [Host]; the mutable part is the record [World],
      threaded by the monad [M]. *)

From Stdlib Require Import ZArith String Ascii List Bool Lia.
From Stdlib Require Import Decimal DecimalString DecimalPos DecimalZ.
From Stdlib Require Import Sorted Permutation.
From stdpp Require Import gmap strings.

Local Open Scope Z_scope.

(** ** Part I. The embedding *)

(** *** JavaScript string primitives used by the plugin *)

Module Js.

Definition nl : ascii := "010"%char.
Definition cr : ascii := "013"%char.
Definition dquote : ascii := "034"%char.

(** [chr c] is the one-character string. *)
Definition chr (c : ascii) : string := String c EmptyString.

(** LineTerminator code units below 256: LF and CR (the regular
    expression dot matches everything else). *)
Definition isLineTerminator (c : ascii) : bool :=
  Ascii.eqb c nl || Ascii.eqb c cr.

(** WhiteSpace and LineTerminator code units below 256, as stripped by
    [trim] and matched by the class escape for white space:
    TAB, LF, VT, FF, CR, SPACE, NBSP. *)
Definition isWhiteSpace (c : ascii) : bool :=
  Ascii.eqb c "009" || Ascii.eqb c "010" || Ascii.eqb c "011"
  || Ascii.eqb c "012" || Ascii.eqb c "013" || Ascii.eqb c " "
  || Ascii.eqb c "160".

Fixpoint trimStart (s : string) : string :=
  match s with
  | EmptyString => EmptyString
  | String c s' => if isWhiteSpace c then trimStart s' else s
  end.

Fixpoint trimEnd (s : string) : string :=
  match s with
  | EmptyString => EmptyString
  | String c s' =>
      match trimEnd s' with
      | EmptyString => if isWhiteSpace c then EmptyString else chr c
      | t => String c t
      end
  end.

(** [String.prototype.trim] *)
Definition trim (s : string) : string := trimEnd (trimStart s).

(** The rest of [s] after the prefix [p], when [s] starts with [p]. *)
Fixpoint stripPrefix (p s : string) : option string :=
  match p with
  | EmptyString => Some s
  | String a p' =>
      match s with
      | EmptyString => None
      | String b s' => if Ascii.eqb a b then stripPrefix p' s' else None
      end
  end.

(** [s.startsWith(p)] *)
Definition startsWith (s p : string) : bool :=
  match stripPrefix p s with Some _ => true | None => false end.

(** [s.endsWith(p)] *)
Definition endsWith (s p : string) : bool :=
  let n := String.length s in
  let k := String.length p in
  (k <=? n)%nat && String.eqb (String.substring (n - k) k s) p.

(** [s.includes(p)] *)
Fixpoint includes (s p : string) : bool :=
  startsWith s p
  || match s with
     | EmptyString => false
     | String _ s' => includes s' p
     end.

(** The text before and after the first occurrence of [pat] in [s]. *)
Fixpoint splitFirst (pat s : string) : option (string * string) :=
  match stripPrefix pat s with
  | Some rest => Some (EmptyString, rest)
  | None =>
      match s with
      | EmptyString => None
      | String c s' =>
          match splitFirst pat s' with
          | Some (before, after) => Some (String c before, after)
          | None => None
          end
      end
  end.

(** [GetSubstitution] of ECMA-262 for a string pattern (no capture
    groups): in the replacement text, dollar-dollar is a dollar,
    dollar-ampersand the matched text, dollar-backquote the text before
    the match, dollar-quote the text after it; every other character,
    and a dollar followed by anything else, stands for itself. *)
Fixpoint getSubstitution (matched before after template : string) : string :=
  match template with
  | EmptyString => EmptyString
  | String c t =>
      if Ascii.eqb c "$" then
        match t with
        | EmptyString => chr c
        | String d t' =>
            if Ascii.eqb d "$" then
              String "$" (getSubstitution matched before after t')
            else if Ascii.eqb d "&" then
              matched +:+ getSubstitution matched before after t'
            else if Ascii.eqb d "`" then
              before +:+ getSubstitution matched before after t'
            else if Ascii.eqb d "'" then
              after +:+ getSubstitution matched before after t'
            else String c (getSubstitution matched before after t)
        end
      else String c (getSubstitution matched before after t)
  end.

(** [s.replace(pat, template)] with a string pattern: the first
    occurrence only. *)
Definition replace (s pat template : string) : string :=
  match splitFirst pat s with
  | Some (before, after) =>
      before +:+ getSubstitution pat before after template +:+ after
  | None => s
  end.

(** [s.split(sep)] for a one-character separator: never empty. *)
Fixpoint split (sep : ascii) (s : string) : list string :=
  match s with
  | EmptyString => [EmptyString]
  | String c s' =>
      if Ascii.eqb c sep then EmptyString :: split sep s'
      else
        match split sep s' with
        | piece :: rest => String c piece :: rest
        | [] => [chr c]
        end
  end.

(** [s.split(re)] for a regular expression that is one character class
    repeated once or more: maximal runs of separators are cut out; a
    separator at the start or at the end leaves an empty piece there. *)
Fixpoint splitRuns_go (isSep : ascii -> bool) (inSep : bool)
    (cur : string) (s : string) : list string :=
  match s with
  | EmptyString => [cur]
  | String c s' =>
      if isSep c then
        if inSep then splitRuns_go isSep true EmptyString s'
        else cur :: splitRuns_go isSep true EmptyString s'
      else splitRuns_go isSep false (cur +:+ chr c) s'
  end.

Definition splitRuns (isSep : ascii -> bool) (s : string) : list string :=
  splitRuns_go isSep false EmptyString s.

(** [arr.join(sep)] *)
Definition join (sep : string) (l : list string) : string :=
  String.concat sep l.

(** [s.lastIndexOf(c)] for a one-character string: -1 when absent. *)
Fixpoint lastIndexOf_go (c : ascii) (s : string) (i found : Z) : Z :=
  match s with
  | EmptyString => found
  | String d s' =>
      lastIndexOf_go c s' (i + 1) (if Ascii.eqb d c then i else found)
  end.

Definition lastIndexOf (s : string) (c : ascii) : Z :=
  lastIndexOf_go c s 0 (-1).

(** [s.substring(a, b)]: both indices are clamped to [0, length] and
    swapped when out of order. *)
Definition clampIndex (s : string) (i : Z) : nat :=
  Z.to_nat (Z.min (Z.max i 0) (Z.of_nat (String.length s))).

Definition substring (s : string) (a b : Z) : string :=
  let a' := clampIndex s a in
  let b' := clampIndex s b in
  String.substring (Nat.min a' b') (Nat.max a' b' - Nat.min a' b') s.

(** [s.substring(a)] *)
Definition substringFrom (s : string) (a : Z) : string :=
  substring s a (Z.of_nat (String.length s)).

(** [toLowerCase] on code units below 256: A to Z, and the accented
    capitals 192 to 222 except the multiplication sign 215, move up by 32. *)
Definition lowerChar (c : ascii) : ascii :=
  let n := N_of_ascii c in
  if ((65 <=? n) && (n <=? 90))%N
     || ((192 <=? n) && (n <=? 222) && negb (n =? 215))%N
  then ascii_of_N (n + 32) else c.

Fixpoint toLowerCase (s : string) : string :=
  match s with
  | EmptyString => EmptyString
  | String c s' => String (lowerChar c) (toLowerCase s')
  end.

(** [String(n)] for an integer [n]: decimal digits, a minus sign when
    negative. *)
Definition toString (n : Z) : string :=
  NilZero.string_of_int (Z.to_int n).

Fixpoint repeatChar (c : ascii) (n : nat) : string :=
  match n with
  | O => EmptyString
  | S n' => String c (repeatChar c n')
  end.

(** [s.padStart(len, c)] for a one-character filler. *)
Definition padStart (s : string) (len : nat) (c : ascii) : string :=
  repeatChar c (len - String.length s) +:+ s.

(** Truthiness of a string: the empty string is falsy. *)
Definition truthy (s : string) : bool :=
  match s with EmptyString => false | String _ _ => true end.

(** [s.replace(re, r)] for a global regular expression that is one
    character class: every character of the class becomes [r]. *)
Fixpoint replaceClass (inClass : ascii -> bool) (r : ascii) (s : string)
    : string :=
  match s with
  | EmptyString => EmptyString
  | String c s' =>
      String (if inClass c then r else c) (replaceClass inClass r s')
  end.

(** The longest prefix of characters that satisfy [p], and the rest. *)
Fixpoint span (p : ascii -> bool) (s : string) : string * string :=
  match s with
  | EmptyString => (EmptyString, EmptyString)
  | String c s' =>
      if p c then let (a, b) := span p s' in (String c a, b)
      else (EmptyString, s)
  end.

End Js.

(** *** JavaScript arrays: the stable sort *)

Module JsArray.

(** [insert cmp x l] puts [x] in front of the first element that [x] does
    not have to follow ([cmp x y <= 0]). *)
Fixpoint insert {A : Type} (cmp : A -> A -> Z) (x : A) (l : list A)
    : list A :=
  match l with
  | [] => [x]
  | y :: l' => if cmp x y <=? 0 then x :: l else y :: insert cmp x l'
  end.

(** [arr.sort(cmp)]: ECMA-262 requires the sort to be stable; every stable
    sort returns the same array for a comparator that is a total preorder,
    and this one is insertion sort. *)
Fixpoint sort {A : Type} (cmp : A -> A -> Z) (l : list A) : list A :=
  match l with
  | [] => []
  | x :: l' => insert cmp x (sort cmp l')
  end.

(** [arr.slice(0, n)] *)
Definition slice0 {A : Type} (n : nat) (l : list A) : list A := firstn n l.

End JsArray.

(** *** The data of the plugin and of its host *)

(** A vault folder as the plugin sees it: its path. *)
Record TFolder := { path : string }.

(** An entry of the tag ranking of [suggestTagsKeyword]. *)
Record Tag := { folder : string; score : Z }.

(** The local-time fields of a [Date] that the plugin reads. *)
Record Date := {
  getFullYear : Z;
  getMonth : Z;
  getDate : Z;
  getHours : Z;
  getMinutes : Z
}.

Record ClipboardToNoteSettings := {
  inboxFolder : string;
  useOpenAI : bool;
  openAIApiKey : string;
  downloadImages : bool
}.

Definition DEFAULT_SETTINGS : ClipboardToNoteSettings :=
  {| inboxFolder := "Inbox"; useOpenAI := false; openAIApiKey := "";
     downloadImages := false |}.

(** What lives at a path of the vault. *)
Inductive Entry :=
| Folder
| TextFile (content : string)
| BinaryFile (bytes : list Byte.byte).

(** The response of [requestUrl]. *)
Record Response := {
  status : Z;
  text : string;
  arrayBuffer : list Byte.byte
}.

(** The response of [fetch] as the plugin reads it; [ok] is status 200 to 299. *)
Record FetchResponse := { fetchStatus : Z; fetchBody : string }.

Definition ok (r : FetchResponse) : bool :=
  (200 <=? fetchStatus r) && (fetchStatus r <=? 299).

(** The chat-completion request: the bearer key and the two messages. *)
Record ChatRequest := {
  bearer : string;
  systemMessage : string;
  userMessage : string
}.

(** A parsed JSON value, as far as the plugin looks at it: an array (its
    elements are strings, the element type that [suggestTagsOpenAI]
    declares) or anything else. *)
Inductive Json :=
| JArray (items : list string)
| JOther.

(** What a call into the host gives back: a value, or a thrown error. *)
Inductive Reply (A : Type) :=
| Done (a : A)
| Failed (message : string).
Arguments Done {A} a.
Arguments Failed {A} message.

(** The capabilities injected by the host application and the runtime. *)
Record Host := {
  (** [normalizePath] of the host API *)
  normalizePath : string -> string;
  (** [app.vault.getConfig(key)]; [None] is undefined *)
  getConfig : string -> option string;
  (** [app.vault.getAllFolders()], in the host's enumeration order *)
  getAllFolders : gmap string Entry -> list TFolder;
  (** [requestUrl({url, method: 'GET'})] *)
  requestUrl : string -> Reply Response;
  (** the error, if any, with which the vault refuses an operation at a path *)
  createFolderError : string -> option string;
  createError : string -> option string;
  createBinaryError : string -> option string;
  modifyError : string -> option string;
  (** the error, if any, with which [leaf.openFile(file)] rejects *)
  openFileError : string -> option string;
  (** the reading of the n-th [new Date()] of the run *)
  clock : nat -> Date;
  (** [Math.floor(Math.random() * bound)] at the n-th call of the run *)
  randomBelow : nat -> nat -> nat;
  (** [new URL(reference, base).toString()]; [None] when the constructor throws *)
  URL_resolve : string -> string -> option string;
  (** [new URL(url).pathname]; [None] when the constructor throws *)
  URL_pathname : string -> option string;
  (** [fetch] to the chat-completion endpoint *)
  fetchChat : ChatRequest -> Reply FetchResponse;
  (** [data.choices[0].message.content] of the body read as JSON; [None]
      when reading it throws *)
  completionContent : string -> option string;
  (** [JSON.parse]; [None] when it throws *)
  JSON_parse : string -> option Json;
  (** [doc.querySelector('title')?.textContent] and the same for h1, of the
      parsed HTML; [None] is undefined *)
  documentTitle : string -> option string;
  documentH1 : string -> option string;
  (** [turndownService.turndown(doc.body)] of the parsed HTML *)
  turndown : string -> Reply string
}.

(** The state that a run changes. *)
Record World := {
  vault : gmap string Entry;
  dateReads : nat;
  randomReads : nat;
  notices : list string;
  opened : option string
}.

(** *** The monad of a run: the world is threaded, an error may be thrown,
    and a loop that is cut off by its fuel hangs *)

Inductive Outcome (A : Type) :=
| Returns (a : A)
| Throws (message : string)
| Hangs.
Arguments Returns {A} a.
Arguments Throws {A} message.
Arguments Hangs {A}.

Definition M (A : Type) : Type := World -> Outcome A * World.

Definition ret {A : Type} (a : A) : M A := fun w => (Returns a, w).

Definition throw {A : Type} (message : string) : M A :=
  fun w => (Throws message, w).

Definition hang {A : Type} : M A := fun w => (Hangs, w).

Definition bind {A B : Type} (m : M A) (k : A -> M B) : M B :=
  fun w =>
    match m w with
    | (Returns a, w') => k a w'
    | (Throws message, w') => (Throws message, w')
    | (Hangs, w') => (Hangs, w')
    end.

(** [try { body } catch (error) { handler(error.message) }] *)
Definition tryCatch {A : Type} (body : M A) (handler : string -> M A) : M A :=
  fun w =>
    match body w with
    | (Throws message, w') => handler message w'
    | r => r
    end.

(** A call into the host whose reply is a value or a thrown error. *)
Definition await {A : Type} (r : Reply A) : M A :=
  match r with
  | Done a => ret a
  | Failed message => throw message
  end.

Declare Scope run_scope.
Delimit Scope run_scope with run.
Notation "x <- m ;; k" := (bind m (fun x => k))
  (at level 100, m at next level, right associativity) : run_scope.
Notation "m ;;; k" := (bind m (fun _ => k))
  (at level 100, right associativity) : run_scope.

(** [new Notice(message)] *)
Definition notice (message : string) : M unit :=
  fun w =>
    (Returns tt,
     {| vault := vault w; dateReads := dateReads w;
        randomReads := randomReads w;
        notices := notices w ++ [message]; opened := opened w |}).

(** [new Date()]: the next reading of the clock. *)
Definition newDate (h : Host) : M Date :=
  fun w =>
    (Returns (clock h (dateReads w)),
     {| vault := vault w; dateReads := S (dateReads w);
        randomReads := randomReads w;
        notices := notices w; opened := opened w |}).

(** [Math.floor(Math.random() * bound)] *)
Definition random (h : Host) (bound : nat) : M nat :=
  fun w =>
    (Returns (randomBelow h (randomReads w) bound),
     {| vault := vault w; dateReads := dateReads w;
        randomReads := S (randomReads w);
        notices := notices w; opened := opened w |}).

Definition setVault (f : gmap string Entry -> gmap string Entry) (w : World)
    : World :=
  {| vault := f (vault w); dateReads := dateReads w;
     randomReads := randomReads w; notices := notices w;
     opened := opened w |}.

(** [app.vault.getAbstractFileByPath(p)]; [None] is null. *)
Definition getAbstractFileByPath (p : string) : M (option Entry) :=
  fun w => (Returns (vault w !! p), w).

(** A vault operation that writes [e] at [p] unless the host refuses. *)
Definition vaultWrite (refusal : option string) (p : string) (e : Entry)
    : M unit :=
  fun w =>
    match refusal with
    | Some message => (Throws message, w)
    | None => (Returns tt, setVault (insert p e) w)
    end.

Definition createFolder (h : Host) (p : string) : M unit :=
  vaultWrite (createFolderError h p) p Folder.

(** [app.vault.create(p, content)]; the file it returns is known by its path. *)
Definition create (h : Host) (p content : string) : M string :=
  bind (vaultWrite (createError h p) p (TextFile content)) (fun _ => ret p).

Definition createBinary (h : Host) (p : string) (buffer : list Byte.byte)
    : M unit :=
  vaultWrite (createBinaryError h p) p (BinaryFile buffer).

(** [app.vault.modify(file, content)] *)
Definition modify (h : Host) (file content : string) : M unit :=
  vaultWrite (modifyError h file) file (TextFile content).

(** [leaf.openFile(file)]: the file becomes the open one, unless the host
    rejects. *)
Definition openFile (h : Host) (file : string) : M unit :=
  fun w =>
    match openFileError h file with
    | Some message => (Throws message, w)
    | None =>
        (Returns tt,
         {| vault := vault w; dateReads := dateReads w;
            randomReads := randomReads w; notices := notices w;
            opened := Some file |})
    end.

(** The number of entries of the vault, which bounds the searches for a
    free path. *)
Definition vaultSize : M nat := fun w => (Returns (size (vault w)), w).

(** *** The methods of [ClipboardToNotePlugin] *)

Local Open Scope run_scope.

(** [folder.path === '' || folder.path === '/'] *)
Definition isRoot (p : string) : bool := String.eqb p "" || String.eqb p "/".

(** [parts[parts.length - 1]] for [parts = path.split('/')] *)
Definition leafName (p : string) : string :=
  List.last (Js.split "/" p) EmptyString.

(** The class of the regular expression that splits a folder name into
    words: white space, hyphen, underscore. *)
Definition isWordSeparator (c : ascii) : bool :=
  Js.isWhiteSpace c || Ascii.eqb c "-" || Ascii.eqb c "_".

Definition getFolders (h : Host) : M (list TFolder) :=
  fun w => (Returns (getAllFolders h (vault w)), w).

(** The body of the loop of [suggestTagsKeyword] over the folders. *)
Definition scoreFolder (lowerText : string) (tags : list Tag) (f : TFolder)
    : list Tag :=
  if isRoot (path f) then tags
  else
    let folderName := leafName (path f) in
    let lowerFolderName := Js.toLowerCase folderName in
    let score := 0 in
    let score :=
      if Js.includes lowerText lowerFolderName then score + 10 else score in
    let folderWords := Js.splitRuns isWordSeparator lowerFolderName in
    let score :=
      fold_left
        (fun score word =>
           if (2 <? String.length word)%nat && Js.includes lowerText word
           then score + 3 else score)
        folderWords score in
    if 0 <? score then tags ++ [{| folder := folderName; score := score |}]
    else tags.

Definition suggestTagsKeyword (h : Host) (text : string) : M (list string) :=
  folders <- getFolders h ;;
  let lowerText := Js.toLowerCase text in
  let tags := fold_left (scoreFolder lowerText) folders [] in
  let tags := JsArray.sort (fun a b => score b - score a) tags in
  ret (map folder (JsArray.slice0 3 tags)).

Definition systemPrompt : string :=
  "You are a helpful assistant that suggests relevant tags for notes based on their content. You will be given note content and a list of available folder/tag names. Return only the 3 most relevant tags as a JSON array of strings. The tags must be from the provided list.".

(** The non-root folders by their leaf names, as [suggestTagsOpenAI]
    collects them. *)
Definition folderNamesOf (folders : list TFolder) : list string :=
  map (fun f => leafName (path f))
    (List.filter (fun f => negb (isRoot (path f))) folders).

(** The request that [suggestTagsOpenAI] posts. *)
Definition chatRequest (settings : ClipboardToNoteSettings) (text : string)
    (folderNames : list string) : ChatRequest :=
  {| bearer := openAIApiKey settings;
     systemMessage := systemPrompt;
     userMessage :=
       "Note content:" +:+ Js.chr Js.nl +:+ text
       +:+ Js.chr Js.nl +:+ Js.chr Js.nl
       +:+ "Available tags:" +:+ Js.chr Js.nl
       +:+ Js.join ", " folderNames
       +:+ Js.chr Js.nl +:+ Js.chr Js.nl
       +:+ "Return the 3 most relevant tags as a JSON array." |}.

Definition suggestTagsOpenAI (h : Host) (settings : ClipboardToNoteSettings)
    (text : string) : M (list string) :=
  if negb (Js.truthy (openAIApiKey settings)) then suggestTagsKeyword h text
  else
    tryCatch
      (folders <- getFolders h ;;
       let folderNames := folderNamesOf folders in
       if (length folderNames =? 0)%nat then ret []
       else
         response <- await (fetchChat h (chatRequest settings text folderNames)) ;;
         if negb (ok response) then suggestTagsKeyword h text
         else
           content <-
             match completionContent h (fetchBody response) with
             | Some c => ret (Js.trim c)
             | None => throw "TypeError"
             end ;;
           tags <-
             match JSON_parse h content with
             | Some j => ret j
             | None => throw "SyntaxError"
             end ;;
           match tags with
           | JArray items => ret (JsArray.slice0 3 items)
           | JOther => suggestTagsKeyword h text
           end)
      (fun error => suggestTagsKeyword h text).

(** The regular expression of [isURL] tested on [t]: the text starts with
    http, an optional s, colon slash slash, and then one character that is
    not a line terminator (the greedy dot-plus needs no more than one). *)
Definition testHttpUrl (t : string) : bool :=
  match Js.stripPrefix "http" t with
  | None => false
  | Some r =>
      let rest (r : string) : bool :=
        match Js.stripPrefix "://" r with
        | Some (String c _) => negb (Js.isLineTerminator c)
        | _ => false
        end in
      match r with
      | String c r' => if Ascii.eqb c "s" then rest r' || rest r else rest r
      | EmptyString => false
      end
  end.

Definition isURL (text : string) : bool :=
  let trimmed := Js.trim text in
  if (1 <? length (Js.split Js.nl trimmed))%nat then false
  else testHttpUrl trimmed.

(** The first truthy string of a chain of [||]. *)
Definition orElse (a : option string) (b : string) : string :=
  match a with
  | Some s => if Js.truthy s then s else b
  | None => b
  end.

Definition userAgent : string :=
  "Mozilla/5.0 (Macintosh; Intel Mac OS X 10_15_7) AppleWebKit/537.36 (KHTML, like Gecko) Chrome/120.0.0.0 Safari/537.36".

Definition fetchURLContent (h : Host) (url : string)
    : M (string * string * string) :=
  tryCatch
    (response <- await (requestUrl h url) ;;
     if negb (status response =? 200) then
       throw ("HTTP " +:+ Js.toString (status response)
              +:+ ": Failed to fetch URL")
     else
       let html := text response in
       if negb (Js.truthy html) || String.eqb (Js.trim html) "" then
         throw "Received empty response from URL"
       else
         let title :=
           orElse (documentTitle h html)
             (orElse (documentH1 h html) "Web Clipping") in
         let title := Js.trim title in
         markdown <- await (turndown h html) ;;
         ret (title, markdown, html))
    (fun message => throw ("Failed to fetch URL: " +:+ message)).

Definition getAttachmentFolder (h : Host) (notePath : string) : string :=
  let attachmentFolderPath := getConfig h "attachmentFolderPath" in
  let unsetOrRoot :=
    match attachmentFolderPath with
    | None => true
    | Some p => negb (Js.truthy p) || String.eqb p "/"
    end in
  let configured := default EmptyString attachmentFolderPath in
  if unsetOrRoot then
    let noteDir := Js.substring notePath 0 (Js.lastIndexOf notePath "/") in
    if Js.truthy noteDir then noteDir else "."
  else if Js.startsWith configured "/" || negb (Js.includes configured "./")
  then configured
  else if Js.startsWith configured "./" then
    let noteDir := Js.substring notePath 0 (Js.lastIndexOf notePath "/") in
    let relPath := Js.substringFrom configured 2 in
    if Js.truthy noteDir then noteDir +:+ "/" +:+ relPath else relPath
  else configured.

(** The class of characters that a file name must not have: backslash,
    slash, colon, star, question mark, double quote, less, greater, bar. *)
Definition isUnsafe (c : ascii) : bool :=
  Ascii.eqb c "\" || Ascii.eqb c "/" || Ascii.eqb c ":" || Ascii.eqb c "*"
  || Ascii.eqb c "?" || Ascii.eqb c Js.dquote || Ascii.eqb c "<"
  || Ascii.eqb c ">" || Ascii.eqb c "|".

(** [name.replace(re, '-')] for the global regular expression that is the
    class of the unsafe characters. *)
Definition sanitize (name : string) : string :=
  Js.replaceClass isUnsafe "-" name.

(** The leftmost match of a dot, then one or more characters that are not
    a dot, then the end of the text: the text before it and the match. *)
Fixpoint matchExtension (s : string) : option (string * string) :=
  match s with
  | EmptyString => None
  | String c s' =>
      if Ascii.eqb c "." && Js.truthy s' && negb (Js.includes s' ".")
      then Some (EmptyString, s)
      else
        match matchExtension s' with
        | Some (before, matched) => Some (String c before, matched)
        | None => None
        end
  end.

Definition ensureFolderExists (h : Host) (folderPath : string) : M unit :=
  let normalizedPath := normalizePath h folderPath in
  folder <- getAbstractFileByPath normalizedPath ;;
  match folder with
  | None =>
      tryCatch (createFolder h normalizedPath) (fun message => throw message)
  | Some _ => ret tt
  end.

(** [while (getAbstractFileByPath(finalPath)) { finalPath = next(counter);
    counter++ }], cut off after [fuel] tests. *)
Fixpoint whileOccupied (fuel : nat) (next : nat -> string)
    (finalPath : string) (counter : nat) : M string :=
  match fuel with
  | O => hang
  | S fuel' =>
      entry <- getAbstractFileByPath finalPath ;;
      match entry with
      | Some _ => whileOccupied fuel' next (next counter) (counter + 1)%nat
      | None => ret finalPath
      end
  end.

(** The loop with the fuel that a vault of this size can use up: each test
    but the last finds an entry of the vault. *)
Definition untilFree (next : nat -> string) (finalPath : string) : M string :=
  n <- vaultSize ;;
  whileOccupied (n + 2) next finalPath 1.

(** [downloadImage], lines 262 to 280: the safe file name, the search for
    a free path, the write. *)
Definition placeImage (h : Host) (attachmentFolder filename : string)
    (buffer : list Byte.byte) : M string :=
  let safeFilename := sanitize filename in
  let filePath :=
    normalizePath h (attachmentFolder +:+ "/" +:+ safeFilename) in
  let baseFilename :=
    match matchExtension safeFilename with
    | Some (before, _) => before
    | None => safeFilename
    end in
  let extension :=
    match matchExtension safeFilename with
    | Some (_, matched) => matched
    | None => EmptyString
    end in
  finalPath <-
    untilFree
      (fun counter =>
         normalizePath h
           (attachmentFolder +:+ "/" +:+ baseFilename +:+ "-"
            +:+ Js.toString (Z.of_nat counter) +:+ extension))
      filePath ;;
  createBinary h finalPath buffer ;;;
  ret finalPath.

Definition downloadImage (h : Host) (imageUrl filename notePath : string)
    : M string :=
  tryCatch
    (response <- await (requestUrl h imageUrl) ;;
     if negb (status response =? 200) then
       throw ("HTTP " +:+ Js.toString (status response)
              +:+ ": Failed to download image")
     else
       let buffer := arrayBuffer response in
       let attachmentFolder := getAttachmentFolder h notePath in
       (if negb (String.eqb attachmentFolder ".")
           && negb (String.eqb attachmentFolder "/")
        then ensureFolderExists h attachmentFolder else ret tt) ;;;
       placeImage h attachmentFolder filename buffer)
    (fun message => ret imageUrl).

Fixpoint dropHashes (s : string) : string :=
  match s with
  | EmptyString => EmptyString
  | String c s' => if Ascii.eqb c "#" then dropHashes s' else s
  end.

(** [line.replace(re, '')] for the regular expression of one or more hash
    signs at the start followed by any white space. *)
Definition stripHeading (line : string) : string :=
  if Js.startsWith line "#" then Js.trimStart (dropHashes line) else line.

Definition generateTitle (text : string) : string :=
  let firstLine := hd EmptyString (Js.split Js.nl (Js.trim text)) in
  let cleaned := Js.trim (stripHeading firstLine) in
  if (50 <? String.length cleaned)%nat then
    Js.trim (Js.substring cleaned 0 50) +:+ "..."
  else if Js.truthy cleaned then cleaned else "Untitled Note".

(** [s.replace(re, '')] for the regular expression of three dots at the end. *)
Definition stripEllipsis (s : string) : string :=
  if Js.endsWith s "..." then
    Js.substring s 0 (Z.of_nat (String.length s) - 3)
  else s.

(** The rest of [s] after the prefix [p], compared without regard to case. *)
Fixpoint stripPrefixCI (p s : string) : option string :=
  match p with
  | EmptyString => Some s
  | String a p' =>
      match s with
      | EmptyString => None
      | String b s' =>
          if Ascii.eqb (Js.lowerChar a) (Js.lowerChar b)
          then stripPrefixCI p' s' else None
      end
  end.

(** The title pattern of [formatMarkdown] at the start of the content: hash
    signs, white space (both greedy, giving back on failure), then the
    title as literal text; the result is the text after the match. *)
Fixpoint matchTitleAfterSpace (title s : string) : option string :=
  match s with
  | String c s' =>
      if Js.isWhiteSpace c then
        match matchTitleAfterSpace title s' with
        | Some rest => Some rest
        | None => stripPrefixCI title s
        end
      else stripPrefixCI title s
  | EmptyString => stripPrefixCI title s
  end.

Fixpoint matchTitlePattern (title s : string) : option string :=
  match s with
  | String c s' =>
      if Ascii.eqb c "#" then
        match matchTitlePattern title s' with
        | Some rest => Some rest
        | None => matchTitleAfterSpace title s
        end
      else matchTitleAfterSpace title s
  | EmptyString => matchTitleAfterSpace title s
  end.

(** [content.replace(re, '## ')] for the global multi-line regular
    expression of a hash sign and a space at the start of a line. *)
Fixpoint demoteH1 (atLineStart : bool) (s : string) : string :=
  match s with
  | EmptyString => EmptyString
  | String c s' =>
      match s' with
      | String d s'' =>
          if atLineStart && Ascii.eqb c "#" && Ascii.eqb d " " then
            String "#" (String "#" (String " " (demoteH1 false s'')))
          else String c (demoteH1 (Js.isLineTerminator c) s')
      | EmptyString => String c EmptyString
      end
  end.

Definition formatMarkdown (text title : string) : string :=
  let content := Js.trim text in
  let escapedTitle := stripEllipsis title in
  let content :=
    Js.trim
      (match matchTitlePattern escapedTitle content with
       | Some rest => rest
       | None => content
       end) in
  demoteH1 true content.

Definition createYamlFrontmatter (h : Host) (tags : list string)
    (sourceUrl : option string) : M string :=
  now <- newDate h ;;
  let pad2 (n : Z) := Js.padStart (Js.toString n) 2 "0" in
  let timestamp :=
    Js.toString (getFullYear now) +:+ "-" +:+ pad2 (getMonth now + 1)
    +:+ "-" +:+ pad2 (getDate now) +:+ " " +:+ pad2 (getHours now)
    +:+ ":" +:+ pad2 (getMinutes now) in
  let tagString :=
    if (0 <? length tags)%nat then "[" +:+ Js.join ", " tags +:+ "]"
    else "[]" in
  let frontmatter :=
    "---" +:+ Js.chr Js.nl +:+ "modified: " +:+ timestamp +:+ Js.chr Js.nl
    +:+ "created: " +:+ timestamp +:+ Js.chr Js.nl
    +:+ "tags: " +:+ tagString in
  let frontmatter :=
    match sourceUrl with
    | Some u =>
        if Js.truthy u then
          frontmatter +:+ Js.chr Js.nl +:+ "sources: " +:+ Js.chr Js.dquote
          +:+ "[Website](" +:+ u +:+ ")" +:+ Js.chr Js.dquote
        else frontmatter
    | None => frontmatter
    end in
  ret (frontmatter +:+ Js.chr Js.nl +:+ "---").

(** [chars.charAt(i)] *)
Definition charAt (s : string) (i : nat) : string :=
  match String.get i s with
  | Some c => Js.chr c
  | None => EmptyString
  end.

Definition generateImagePrefix (h : Host) : M string :=
  let chars := "abcdefghijklmnopqrstuvwxyz0123456789" in
  let prefix := EmptyString in
  i0 <- random h (String.length chars) ;;
  let prefix := prefix +:+ charAt chars i0 in
  i1 <- random h (String.length chars) ;;
  let prefix := prefix +:+ charAt chars i1 in
  i2 <- random h (String.length chars) ;;
  let prefix := prefix +:+ charAt chars i2 in
  ret prefix.

(** One attempt of the image regular expression at the start of [s]: an
    exclamation mark and an opening bracket, the alt text up to the first
    closing bracket, that bracket and an opening parenthesis, a non-empty
    URL up to the first closing parenthesis, and that parenthesis.  The
    result is the alt text, the URL and the text after the match.  The two
    greedy runs stop at the only place where the next literal can follow,
    so giving characters back never finds another match. *)
Definition matchImage (s : string) : option (string * string * string) :=
  match Js.stripPrefix "![" s with
  | None => None
  | Some r =>
      let (alt, r1) := Js.span (fun c => negb (Ascii.eqb c "]")) r in
      match Js.stripPrefix "](" r1 with
      | None => None
      | Some r2 =>
          let (url, r3) := Js.span (fun c => negb (Ascii.eqb c ")")) r2 in
          if Js.truthy url then
            match Js.stripPrefix ")" r3 with
            | Some r4 => Some (alt, url, r4)
            | None => None
            end
          else None
      end
  end.

(** [match[0]] of a match with groups [alt] and [url]. *)
Definition fullMatch (alt url : string) : string :=
  "![" +:+ alt +:+ "](" +:+ url +:+ ")".

(** The successive results of [imageRegex.exec(markdownContent)] until it
    returns null, as the pairs of [match[1]] and [match[2]]; [skip] is the
    distance from the current position to [lastIndex]. *)
Fixpoint imageMatches (skip : nat) (s : string) : list (string * string) :=
  match s with
  | EmptyString => []
  | String _ s' =>
      match skip with
      | S k => imageMatches k s'
      | O =>
          match matchImage s with
          | Some (alt, url, _) =>
              (alt, url)
              :: imageMatches (String.length (fullMatch alt url) - 1) s'
          | None => imageMatches 0 s'
          end
      end
  end.

(** [for (const {original, replacement} of replacements)
    result = result.replace(original, replacement)] *)
Definition applyReplacements (replacements : list (string * string))
    (markdownContent : string) : string :=
  fold_left
    (fun result r => Js.replace result (fst r) (snd r))
    replacements markdownContent.

(** The body of the scanning loop of [convertRelativeImageUrls]. *)
Definition absolutizeStep (h : Host) (normalizedBaseUrl : string)
    (replacements : list (string * string)) (m : string * string)
    : list (string * string) :=
  let (alt, imageUrl) := m in
  if Js.startsWith imageUrl "http://" || Js.startsWith imageUrl "https://"
  then replacements
  else if Js.startsWith imageUrl "data:" || Js.startsWith imageUrl "blob:"
  then replacements
  else
    match URL_resolve h imageUrl normalizedBaseUrl with
    | Some absoluteUrl =>
        replacements
        ++ [(fullMatch alt imageUrl,
             "![" +:+ alt +:+ "](" +:+ absoluteUrl +:+ ")")]
    | None => replacements
    end.

Definition convertRelativeImageUrls (h : Host)
    (markdownContent baseUrl : string) : string :=
  let normalizedBaseUrl :=
    if negb (Js.endsWith baseUrl "/") then baseUrl +:+ "/" else baseUrl in
  let replacements :=
    fold_left (absolutizeStep h normalizedBaseUrl)
      (imageMatches 0 markdownContent) [] in
  applyReplacements replacements markdownContent.

(** The body of the scanning loop of [downloadImagesInContent]. *)
Definition localizeStep (h : Host) (notePath prefix : string)
    (replacements : list (string * string)) (m : string * string)
    : M (list (string * string)) :=
  let (alt, imageUrl) := m in
  if negb (Js.startsWith imageUrl "http://")
     && negb (Js.startsWith imageUrl "https://")
  then ret replacements
  else
    tryCatch
      (pathname <-
         match URL_pathname h imageUrl with
         | Some p => ret p
         | None => throw "Invalid URL"
         end ;;
       let filename :=
         let popped := List.last (Js.split "/" pathname) EmptyString in
         if Js.truthy popped then popped else "image.jpg" in
       let filename :=
         if negb (Js.includes filename ".") then filename +:+ ".jpg"
         else filename in
       let prefixedFilename := prefix +:+ "_" +:+ filename in
       localPath <- downloadImage h imageUrl prefixedFilename notePath ;;
       ret (replacements
            ++ [(fullMatch alt imageUrl,
                 "![" +:+ alt +:+ "](" +:+ localPath +:+ ")")]))
      (fun message => ret replacements).

Fixpoint forEachMatch (step : list (string * string) -> string * string ->
                              M (list (string * string)))
    (matches : list (string * string))
    (replacements : list (string * string)) : M (list (string * string)) :=
  match matches with
  | [] => ret replacements
  | m :: rest =>
      replacements' <- step replacements m ;;
      forEachMatch step rest replacements'
  end.

Definition downloadImagesInContent (h : Host)
    (markdownContent baseUrl notePath prefix : string) : M string :=
  replacements <-
    forEachMatch (localizeStep h notePath prefix)
      (imageMatches 0 markdownContent) [] ;;
  ret (applyReplacements replacements markdownContent).

(** [file.basename]: the name of the file without its extension. *)
Definition basename (p : string) : string :=
  let name := leafName p in
  match matchExtension name with
  | Some (before, _) => before
  | None => name
  end.

(** [createNoteFromClipboard], lines 424 to 443: the safe file name, the
    search for a free path, the creation of the file. *)
Definition placeNote (h : Host) (settings : ClipboardToNoteSettings)
    (title fullContent : string) : M string :=
  let safeTitle := sanitize title in
  let fileName := safeTitle +:+ ".md" in
  let filePath :=
    normalizePath h (inboxFolder settings +:+ "/" +:+ fileName) in
  finalPath <-
    untilFree
      (fun counter =>
         let baseTitle := stripEllipsis safeTitle in
         normalizePath h
           (inboxFolder settings +:+ "/" +:+ baseTitle +:+ "-"
            +:+ Js.toString (Z.of_nat counter) +:+ ".md"))
      filePath ;;
  create h finalPath fullContent.

(** What the first part of [createNoteFromClipboard] prepares: the title,
    the content, the tags and the source URL; [None] is the early return
    after a failed fetch. *)
Definition Prepared : Type :=
  option (string * string * list string * option string).

(** [createNoteFromClipboard], lines 364 to 411: the URL path and the text
    path. *)
Definition prepare (h : Host) (settings : ClipboardToNoteSettings)
    (clipboardText : string) : M Prepared :=
  if isURL clipboardText then
    let url := Js.trim clipboardText in
    notice "Fetching content from URL..." ;;;
    tryCatch
      (page <- fetchURLContent h url ;;
       let '(pageTitle, pageContent, html) := page in
       let title := pageTitle in
       let sourceUrl := Some url in
       content <- ret (convertRelativeImageUrls h pageContent url) ;;
       tags <-
         (if useOpenAI settings
          then suggestTagsOpenAI h settings pageContent
          else suggestTagsKeyword h pageContent) ;;
       notice "URL content fetched successfully" ;;;
       ret (Some (title, content, tags, sourceUrl) : Prepared))
      (fun message =>
         notice ("Failed to fetch URL: " +:+ message) ;;;
         ret (None : Prepared))
  else
    notice "Processing clipboard content..." ;;;
    title <- ret (generateTitle clipboardText) ;;
    tags <-
      (if useOpenAI settings
       then suggestTagsOpenAI h settings clipboardText
       else suggestTagsKeyword h clipboardText) ;;
    let content := formatMarkdown clipboardText title in
    ret (Some (title, content, tags, None) : Prepared).

(** [createNoteFromClipboard], lines 413 to 444: the front matter, the
    inbox folder, and the first write of the note; the result is the file. *)
Definition writeNote (h : Host) (settings : ClipboardToNoteSettings)
    (title content : string) (tags : list string)
    (sourceUrl : option string) : M string :=
  frontmatter <- createYamlFrontmatter h tags sourceUrl ;;
  let fullContent :=
    frontmatter +:+ Js.chr Js.nl +:+ Js.chr Js.nl +:+ content in
  ensureFolderExists h (inboxFolder settings) ;;;
  placeNote h settings title fullContent.

(** [createNoteFromClipboard], lines 446 to 457: for a web clip with image
    downloads enabled, the images are made local and the note is written a
    second time. *)
Definition rewriteWithImages (h : Host) (settings : ClipboardToNoteSettings)
    (content : string) (tags : list string) (sourceUrl : option string)
    (file : string) : M unit :=
  match sourceUrl with
  | Some url =>
      if Js.truthy url && downloadImages settings then
        notice "Downloading images..." ;;;
        imagePrefix <- generateImagePrefix h ;;
        contentWithLocalImages <-
          downloadImagesInContent h content url file imagePrefix ;;
        updatedFrontmatter <- createYamlFrontmatter h tags sourceUrl ;;
        let updatedContent :=
          updatedFrontmatter +:+ Js.chr Js.nl +:+ Js.chr Js.nl
          +:+ contentWithLocalImages in
        modify h file updatedContent
      else ret tt
  | None => ret tt
  end.

Definition createNoteFromClipboard (h : Host)
    (settings : ClipboardToNoteSettings) (clipboard : Reply string) : M unit :=
  tryCatch
    (clipboardText <- await clipboard ;;
     if negb (Js.truthy clipboardText)
        || String.eqb (Js.trim clipboardText) ""
     then notice "Clipboard is empty"
     else
       prepared <- prepare h settings clipboardText ;;
       match prepared with
       | None => ret tt
       | Some (title, content, tags, sourceUrl) =>
           file <- writeNote h settings title content tags sourceUrl ;;
           rewriteWithImages h settings content tags sourceUrl file ;;;
           openFile h file ;;;
           notice ("Note created: " +:+ basename file +:+ " in "
                   +:+ inboxFolder settings)
       end)
    (fun message => notice ("Error creating note: " +:+ message)).

(** *** A reference model of URL resolution

    The URL constructor is a capability of the runtime ([URL_resolve] of
    [Host]).  The closed examples below need a concrete one: this is the
    resolution of a reference against a base of RFC 3986, section 5.2, which
    is what the constructor computes for the hierarchical URLs of the
    examples.  It fails when the base has no scheme and when an http or
    https URL would have no host. *)

Module Rfc3986.

Definition notIn (set : string) (c : ascii) : bool :=
  negb (Js.includes set (Js.chr c)).

Record Parts := {
  scheme : option string;
  authority : option string;
  upath : string;
  query : option string;
  fragment : option string
}.

(** The five components, cut as by the regular expression of appendix B. *)
Definition parse (s : string) : Parts :=
  let (sch, r) := Js.span (notIn ":/?#") s in
  let '(scheme, r0) :=
    match Js.stripPrefix ":" r with
    | Some r' => if Js.truthy sch then (Some sch, r') else (None, s)
    | None => (None, s)
    end in
  let '(authority, r1) :=
    match Js.stripPrefix "//" r0 with
    | Some r' => let (a, r'') := Js.span (notIn "/?#") r' in (Some a, r'')
    | None => (None, r0)
    end in
  let (p, r2) := Js.span (notIn "?#") r1 in
  let '(query, r3) :=
    match Js.stripPrefix "?" r2 with
    | Some r' => let (q, r'') := Js.span (notIn "#") r' in (Some q, r'')
    | None => (None, r2)
    end in
  {| scheme := scheme; authority := authority; upath := p; query := query;
     fragment := Js.stripPrefix "#" r3 |}.

(** Section 5.2.4 on the list of segments: a dot is dropped, two dots
    drop the segment before; either one at the end leaves a slash. *)
Fixpoint removeDots (stack segs : list string) : list string :=
  match segs with
  | [] => stack
  | seg :: rest =>
      let atEnd := match rest with [] => true | _ => false end in
      if String.eqb seg "." then
        removeDots (if atEnd then stack ++ [EmptyString] else stack) rest
      else if String.eqb seg ".." then
        removeDots
          (if atEnd then removelast stack ++ [EmptyString]
           else removelast stack) rest
      else removeDots (stack ++ [seg]) rest
  end.

Definition removeDotSegments (p : string) : string :=
  match Js.stripPrefix "/" p with
  | Some r => "/" +:+ Js.join "/" (removeDots [] (Js.split "/" r))
  | None => Js.join "/" (removeDots [] (Js.split "/" p))
  end.

(** Section 5.2.3 *)
Definition merge (b : Parts) (refPath : string) : string :=
  match authority b with
  | Some _ =>
      if Js.truthy (upath b) then
        Js.substring (upath b) 0 (Js.lastIndexOf (upath b) "/" + 1)
        +:+ refPath
      else "/" +:+ refPath
  | None =>
      Js.substring (upath b) 0 (Js.lastIndexOf (upath b) "/" + 1)
      +:+ refPath
  end.

(** Section 5.3 *)
Definition recompose (t : Parts) : string :=
  match scheme t with Some s => s +:+ ":" | None => EmptyString end
  +:+ match authority t with Some a => "//" +:+ a | None => EmptyString end
  +:+ upath t
  +:+ match query t with Some q => "?" +:+ q | None => EmptyString end
  +:+ match fragment t with Some f => "#" +:+ f | None => EmptyString end.

Definition isWeb (s : string) : bool :=
  String.eqb s "http" || String.eqb s "https".

(** Section 5.2.2 *)
Definition resolve (reference base : string) : option string :=
  let b := parse base in
  let r := parse reference in
  match scheme b with
  | None => None
  | Some bs =>
      let t :=
        match scheme r with
        | Some s =>
            {| scheme := Some s; authority := authority r;
               upath := removeDotSegments (upath r); query := query r;
               fragment := fragment r |}
        | None =>
            match authority r with
            | Some a =>
                {| scheme := Some bs; authority := Some a;
                   upath := removeDotSegments (upath r); query := query r;
                   fragment := fragment r |}
            | None =>
                if negb (Js.truthy (upath r)) then
                  {| scheme := Some bs; authority := authority b;
                     upath := upath b;
                     query := match query r with
                              | Some q => Some q
                              | None => query b
                              end;
                     fragment := fragment r |}
                else if Js.startsWith (upath r) "/" then
                  {| scheme := Some bs; authority := authority b;
                     upath := removeDotSegments (upath r); query := query r;
                     fragment := fragment r |}
                else
                  {| scheme := Some bs; authority := authority b;
                     upath := removeDotSegments (merge b (upath r));
                     query := query r; fragment := fragment r |}
            end
        end in
      match scheme t, authority t with
      | Some s, Some a =>
          if isWeb s && negb (Js.truthy a) then None else Some (recompose t)
      | Some s, None => if isWeb s then None else Some (recompose t)
      | None, _ => None
      end
  end.

(** The path of an absolute URL. *)
Definition pathname (url : string) : option string :=
  match resolve url url with
  | Some _ =>
      let p := upath (parse url) in
      Some (if Js.truthy p then p else "/")
  | None => None
  end.

End Rfc3986.

(** *** The words of the specification *)

(** A small language of regular expressions, with the meaning that
    ECMA-262 gives to these forms, to state what it is to match one. *)
Inductive Regex :=
| RChar (c : ascii)
| RDot
| RSeq (a b : Regex)
| ROpt (a : Regex)
| RPlus (a : Regex).

Inductive Matches : Regex -> string -> Prop :=
| MChar c : Matches (RChar c) (Js.chr c)
| MDot c : Js.isLineTerminator c = false -> Matches RDot (Js.chr c)
| MSeq a b s t :
    Matches a s -> Matches b t -> Matches (RSeq a b) (s +:+ t)
| MOptNone a : Matches (ROpt a) EmptyString
| MOptSome a s : Matches a s -> Matches (ROpt a) s
| MPlusOne a s : Matches a s -> Matches (RPlus a) s
| MPlusMore a s t :
    Matches a s -> Matches (RPlus a) t -> Matches (RPlus a) (s +:+ t).

(** [re.test(t)] for a pattern anchored at the start: some prefix matches. *)
Definition TestAtStart (re : Regex) (t : string) : Prop :=
  exists p r, t = p +:+ r /\ Matches re p.

(** The pattern of [isURL]: http, an optional s, colon, two slashes, and
    one or more characters that are not line terminators.  The letters are
    matched as they are written: the pattern has no ignore-case flag. *)
Definition httpUrlPattern : Regex :=
  RSeq (RChar "h") (RSeq (RChar "t") (RSeq (RChar "t") (RSeq (RChar "p")
    (RSeq (ROpt (RChar "s"))
      (RSeq (RChar ":") (RSeq (RChar "/") (RSeq (RChar "/")
        (RPlus RDot)))))))).

(** The text has a line feed somewhere. *)
Definition HasNewline (t : string) : Prop :=
  exists a b, t = a +:+ String Js.nl b.


(** A line is blank when it has nothing but white space. *)
Definition isBlankLine (line : string) : bool :=
  negb (Js.truthy (Js.trim line)).

(** The first line of the text that is not blank; empty when there is none. *)
Definition firstNonEmptyLine (text : string) : string :=
  hd EmptyString
    (List.filter (fun line => negb (isBlankLine line))
       (Js.split Js.nl text)).

(** That line without its leading hash signs and the white space around. *)
Definition strippedLine (text : string) : string :=
  Js.trim (dropHashes (Js.trim (firstNonEmptyLine text))).

(** The title in words: the stripped line, cut after 50 characters when
    it is longer. *)
Definition titleOf (text : string) : string :=
  let line := strippedLine text in
  if (50 <? String.length line)%nat then
    Js.trimEnd (String.substring 0 50 line) +:+ "..."
  else if String.eqb line "" then "Untitled Note"
  else line.

(** The directory that contains a note: the path without its last
    segment; empty for a note at the root of the vault. *)
Definition containingDirectory (notePath : string) : string :=
  Js.join "/" (removelast (Js.split "/" notePath)).

(** The rules of C7, in order.  A configuration that is not set is
    undefined or the empty string. *)
Definition attachmentFolderRules (configured : option string)
    (notePath : string) : string :=
  let noteDir := containingDirectory notePath in
  let unset :=
    match configured with
    | None => true
    | Some p => String.eqb p ""
    end in
  let p := default EmptyString configured in
  if unset || String.eqb p "/" then
    if String.eqb noteDir "" then "." else noteDir
  else if Js.startsWith p "/" || negb (Js.includes p "./") then p
  else
    match Js.stripPrefix "./" p with
    | Some rest =>
        if String.eqb noteDir "" then rest else noteDir +:+ "/" +:+ rest
    | None => p
    end.

(** A reading of the clock that a running program can get: a year of four
    digits, and the other fields in their ranges ([getMonth] counts from 0). *)
Definition ValidClock (now : Date) : Prop :=
  1000 <= getFullYear now <= 9999
  /\ 0 <= getMonth now <= 11
  /\ 1 <= getDate now <= 31
  /\ 0 <= getHours now <= 23
  /\ 0 <= getMinutes now <= 59.

Definition digitChar (d : Z) : ascii := ascii_of_nat (48 + Z.to_nat d).

Definition twoDigits (n : Z) : string :=
  String (digitChar (n / 10)) (String (digitChar (n mod 10)) EmptyString).

Definition fourDigits (n : Z) : string :=
  String (digitChar (n / 1000))
    (String (digitChar (n / 100 mod 10)) (twoDigits (n mod 100))).

(** The timestamp YYYY-MM-DD HH:MM of a reading of the clock, in local
    time, the month counted from 1. *)
Definition timestampOf (now : Date) : string :=
  fourDigits (getFullYear now) +:+ "-" +:+ twoDigits (getMonth now + 1)
  +:+ "-" +:+ twoDigits (getDate now) +:+ " " +:+ twoDigits (getHours now)
  +:+ ":" +:+ twoDigits (getMinutes now).

Definition isDigit (c : ascii) : bool :=
  let n := nat_of_ascii c in (48 <=? n)%nat && (n <=? 57)%nat.

(** The shape YYYY-MM-DD HH:MM: sixteen characters, digits but for the two
    hyphens, the space and the colon. *)
Definition isTimestampFormat (ts : string) : bool :=
  match list_ascii_of_string ts with
  | [y1; y2; y3; y4; h1; m1; m2; h2; d1; d2; sp; hh1; hh2; co; mi1; mi2] =>
      forallb isDigit [y1; y2; y3; y4; m1; m2; d1; d2; hh1; hh2; mi1; mi2]
      && Ascii.eqb h1 "-" && Ascii.eqb h2 "-" && Ascii.eqb sp " "
      && Ascii.eqb co ":"
  | _ => false
  end.

(** The tags as a bracketed list, joined by a comma and a space. *)
Definition tagList (tags : list string) : string :=
  match tags with
  | [] => "[]"
  | _ => "[" +:+ Js.join ", " tags +:+ "]"
  end.

(** The sources line: there is one when a source URL is supplied, which is
    a string that is not empty. *)
Definition sourcesLine (sourceUrl : option string) : list string :=
  match sourceUrl with
  | Some u =>
      if String.eqb u "" then []
      else ["sources: " +:+ Js.chr Js.dquote +:+ "[Website](" +:+ u +:+ ")"
            +:+ Js.chr Js.dquote]
  | None => []
  end.

(** The lines of the front matter, in their fixed order. *)
Definition frontmatterLines (ts : string) (tags : list string)
    (sourceUrl : option string) : list string :=
  ["---"; "modified: " +:+ ts; "created: " +:+ ts; "tags: " +:+ tagList tags]
  ++ sourcesLine sourceUrl ++ ["---"].

(** A host for the closed examples: paths are already normal, the vault
    refuses nothing, URLs resolve as in [Rfc3986], the HTML document has no
    title and converts to its own text; the configured attachment folder,
    the folders, the HTTP transport, the clock and the chat endpoint are
    the arguments. *)
Definition exampleHost (attachmentFolderPath : option string)
    (folders : list TFolder) (http : string -> Reply Response)
    (times : nat -> Date) (chat : ChatRequest -> Reply FetchResponse) : Host :=
  {| normalizePath := fun p => p;
     getConfig := fun _ => attachmentFolderPath;
     getAllFolders := fun _ => folders;
     requestUrl := http;
     createFolderError := fun _ => None;
     createError := fun _ => None;
     createBinaryError := fun _ => None;
     modifyError := fun _ => None;
     openFileError := fun _ => None;
     clock := times;
     randomBelow := fun n _ => n;
     URL_resolve := Rfc3986.resolve;
     URL_pathname := Rfc3986.pathname;
     fetchChat := chat;
     completionContent := fun body => Some body;
     JSON_parse := fun _ => Some JOther;
     documentTitle := fun _ => None;
     documentH1 := fun _ => None;
     turndown := fun html => Done html |}.

(** The clock of the examples: 2024-03-09 14:05 at the first reading,
    and one minute more at each later one. *)
Definition exampleClock (n : nat) : Date :=
  {| getFullYear := 2024; getMonth := 2; getDate := 9; getHours := 14;
     getMinutes := 5 + Z.of_nat n |}.

(** The host with nothing configured, no folders and the network down. *)
Definition offlineHost : Host :=
  exampleHost None []
    (fun _ => Failed "net::ERR_INTERNET_DISCONNECTED") exampleClock
    (fun _ => Failed "net::ERR_INTERNET_DISCONNECTED").

(** A world with the given vault, before anything has happened. *)
Definition startWorld (v : gmap string Entry) : World :=
  {| vault := v; dateReads := 0; randomReads := 0; notices := [];
     opened := None |}.

(** The words of a folder name: what is left between runs of white space,
    hyphens and underscores. *)
Definition wordsOf (name : string) : list string :=
  Js.splitRuns isWordSeparator name.

(** The score of a leaf name against the lower-cased text: 10 when the
    whole lower-cased name occurs in it, and 3 for each word of more than 2
    characters that occurs in it. *)
Definition keywordScore (lowerText leaf : string) : Z :=
  let lowerLeaf := Js.toLowerCase leaf in
  (if Js.includes lowerText lowerLeaf then 10 else 0)
  + 3 * Z.of_nat
          (length
             (List.filter
                (fun word =>
                   (2 <? String.length word)%nat && Js.includes lowerText word)
                (wordsOf lowerLeaf))).

(** The folders that are not the root, each with its score, in the order
    of enumeration, without those of score 0. *)
Definition candidates (folders : list TFolder) (text : string) : list Tag :=
  List.filter (fun t => negb (score t =? 0))
    (map
       (fun f =>
          {| folder := leafName (path f);
             score := keywordScore (Js.toLowerCase text) (leafName (path f)) |})
       (List.filter (fun f => negb (isRoot (path f))) folders)).

(** [output] is [input] sorted by descending score, entries of equal score
    in the order they have in [input]. *)
Definition StableDescending (input output : list Tag) : Prop :=
  Permutation input output
  /\ StronglySorted (fun a b => score b <= score a) output
  /\ forall s,
       List.filter (fun t => score t =? s) output
       = List.filter (fun t => score t =? s) input.

(** The ways in which the AI strategy falls back, for a run in world [w]:
    no API key; or, for the request that the plugin posts, a transport
    error, a response that is not 2xx, a body without a message content,
    a content that does not parse as JSON, or a parsed value that is not
    an array. *)
Inductive AiFallback (h : Host) (settings : ClipboardToNoteSettings)
    (text : string) (w : World) : Prop :=
| NoApiKey :
    openAIApiKey settings = "" -> AiFallback h settings text w
| TransportError (message : string) :
    fetchChat h
      (chatRequest settings text (folderNamesOf (getAllFolders h (vault w))))
    = Failed message ->
    AiFallback h settings text w
| NotOk (r : FetchResponse) :
    fetchChat h
      (chatRequest settings text (folderNamesOf (getAllFolders h (vault w))))
    = Done r ->
    ok r = false ->
    AiFallback h settings text w
| NoContent (r : FetchResponse) :
    fetchChat h
      (chatRequest settings text (folderNamesOf (getAllFolders h (vault w))))
    = Done r ->
    completionContent h (fetchBody r) = None ->
    AiFallback h settings text w
| NotJson (r : FetchResponse) (c : string) :
    fetchChat h
      (chatRequest settings text (folderNamesOf (getAllFolders h (vault w))))
    = Done r ->
    completionContent h (fetchBody r) = Some c ->
    JSON_parse h (Js.trim c) = None ->
    AiFallback h settings text w
| NotArray (r : FetchResponse) (c : string) :
    fetchChat h
      (chatRequest settings text (folderNamesOf (getAllFolders h (vault w))))
    = Done r ->
    completionContent h (fetchBody r) = Some c ->
    JSON_parse h (Js.trim c) = Some JOther ->
    AiFallback h settings text w.

(** The host's [normalizePath] keeps paths apart that differ only in the
    number written in them. *)
Definition CounterInjective (h : Host) : Prop :=
  forall (before after : string) (j k : nat),
    normalizePath h (before +:+ Js.toString (Z.of_nat j) +:+ after)
    = normalizePath h (before +:+ Js.toString (Z.of_nat k) +:+ after) ->
    j = k.

(** [p] is the path at which a file is placed in world [w]: it is free;
    it is the initial path when that is free, and otherwise the candidate
    with the smallest counter, from 1, that is free. *)
Definition FreeSlot (w : World) (initial : string) (candidate : nat -> string)
    (p : string) : Prop :=
  vault w !! p = None
  /\ ((vault w !! initial = None /\ p = initial)
      \/ (is_Some (vault w !! initial)
          /\ exists k,
               (1 <= k)%nat /\ p = candidate k
               /\ forall j, (1 <= j < k)%nat ->
                            is_Some (vault w !! candidate j))).

(** A name is a base and an extension: the extension is empty, or a dot
    and one or more characters none of which is a dot. *)
Definition SplitsAtExtension (name base extension : string) : Prop :=
  name = base +:+ extension
  /\ (extension = ""
      \/ exists rest,
           extension = String "." rest /\ rest <> ""
           /\ Js.includes rest "." = false).

(** The base and the extension that [downloadImage] cuts a name into. *)
Definition baseOf (name : string) : string :=
  match matchExtension name with
  | Some (before, _) => before
  | None => name
  end.

Definition extensionOf (name : string) : string :=
  match matchExtension name with
  | Some (_, matched) => matched
  | None => EmptyString
  end.

(** The candidate paths of a note and of an image, for a counter. *)
Definition noteCandidate (h : Host) (settings : ClipboardToNoteSettings)
    (title : string) (counter : nat) : string :=
  normalizePath h
    (inboxFolder settings +:+ "/" +:+ stripEllipsis (sanitize title) +:+ "-"
     +:+ Js.toString (Z.of_nat counter) +:+ ".md").

Definition imageCandidate (h : Host) (attachmentFolder filename : string)
    (counter : nat) : string :=
  normalizePath h
    (attachmentFolder +:+ "/" +:+ baseOf (sanitize filename) +:+ "-"
     +:+ Js.toString (Z.of_nat counter) +:+ extensionOf (sanitize filename)).

(** The folder step of [downloadImage]: the attachment folder is created
    when it is neither a dot nor a slash and nothing is at its normalized
    path; [folderRefusal] is the error of the host for that creation, if
    any, and [afterFolderStep] the world after a creation that succeeds. *)
Definition needsFolder (h : Host) (dir : string) (w : World) : bool :=
  negb (String.eqb dir ".") && negb (String.eqb dir "/")
  && match vault w !! normalizePath h dir with
     | None => true
     | Some _ => false
     end.

Definition folderRefusal (h : Host) (dir : string) (w : World)
    : option string :=
  if needsFolder h dir w then createFolderError h (normalizePath h dir)
  else None.

Definition afterFolderStep (h : Host) (dir : string) (w : World) : World :=
  if needsFolder h dir w then setVault (insert (normalizePath h dir) Folder) w
  else w.

(** The nine characters that a file name must not have. *)
Definition unsafeCharacters : list ascii :=
  ["\"; "/"; ":"; "*"; "?"; Js.dquote; "<"; ">"; "|"]%char.

(** What [downloadImage] does, by the behaviour of the host: the result
    and the world after the call. *)
Definition DownloadOutcome (h : Host) (imageUrl filename notePath : string)
    (w : World) (result : string) (w' : World) : Prop :=
  let dir := getAttachmentFolder h notePath in
  match requestUrl h imageUrl with
  | Failed _ => result = imageUrl /\ w' = w
  | Done r =>
      if status r =? 200 then
        match folderRefusal h dir w with
        | Some _ => result = imageUrl /\ w' = w
        | None =>
            let w1 := afterFolderStep h dir w in
            exists p,
              FreeSlot w1
                (normalizePath h (dir +:+ "/" +:+ sanitize filename))
                (imageCandidate h dir filename) p
              /\ match createBinaryError h p with
                 | Some _ => result = imageUrl /\ w' = w1
                 | None =>
                     result = p
                     /\ w' = setVault
                               (insert p (BinaryFile (arrayBuffer r))) w1
                 end
        end
      else result = imageUrl /\ w' = w
  end.

(** A web for the closed examples: one page, whose text is already
    Markdown (the example host converts a document to its own text), with
    one image; every other URL answers 404. *)
Definition examplePage : string :=
  "Field notes" +:+ Js.chr Js.nl +:+ Js.chr Js.nl
  +:+ "![photo](images/photo.png)".

Definition exampleWeb (url : string) : Reply Response :=
  if String.eqb url "https://site.com/page" then
    Done {| status := 200; text := examplePage; arrayBuffer := [] |}
  else if String.eqb url "https://site.com/page/images/photo.png" then
    Done {| status := 200; text := "";
            arrayBuffer := [Byte.x89; Byte.x50; Byte.x4e; Byte.x47] |}
  else Done {| status := 404; text := "Not Found"; arrayBuffer := [] |}.

Definition webHost : Host :=
  exampleHost None [] exampleWeb exampleClock
    (fun _ => Failed "net::ERR_INTERNET_DISCONNECTED").

(** The front matter for a reading of the clock. *)
Definition frontmatterAt (now : Date) (tags : list string)
    (sourceUrl : option string) : string :=
  Js.join (Js.chr Js.nl) (frontmatterLines (timestampOf now) tags sourceUrl).

(** The world after one more reading of the clock. *)
Definition tick (w : World) : World :=
  {| vault := vault w; dateReads := S (dateReads w);
     randomReads := randomReads w; notices := notices w;
     opened := opened w |}.

(** No vault operation of the run is refused by the host. *)
Definition NoRefusal (h : Host) : Prop :=
  (forall p, createFolderError h p = None)
  /\ (forall p, createError h p = None)
  /\ (forall p, modifyError h p = None).

(** The page behind the URL is fetched and converted: status 200, a text
    that is not blank, a conversion that succeeds. *)
Definition PageFetched (h : Host) (url markdown : string) : Prop :=
  exists r,
    requestUrl h url = Done r /\ status r = 200
    /\ Js.trim (text r) <> "" /\ turndown h (text r) = Done markdown.

(** The Markdown text as the scan of the image regular expression cuts
    it: characters outside the matches, and image references. *)
Inductive Piece :=
| Lit (c : ascii)
| Image (alt url : string).

Definition pieceText (p : Piece) : string :=
  match p with
  | Lit c => Js.chr c
  | Image alt url => fullMatch alt url
  end.

Fixpoint pieces (skip : nat) (s : string) : list Piece :=
  match s with
  | EmptyString => []
  | String c s' =>
      match skip with
      | S k => pieces k s'
      | O =>
          match matchImage s with
          | Some (alt, url, _) =>
              Image alt url
              :: pieces (String.length (fullMatch alt url) - 1) s'
          | None => Lit c :: pieces 0 s'
          end
      end
  end.

(** The text of a list of pieces, each one written by [f]. *)
Fixpoint textOf (f : Piece -> string) (l : list Piece) : string :=
  match l with
  | [] => EmptyString
  | p :: l' => f p +:+ textOf f l'
  end.

(** A URL that the absolutize pass leaves alone. *)
Definition isAbsoluteRef (url : string) : bool :=
  Js.startsWith url "http://" || Js.startsWith url "https://"
  || Js.startsWith url "data:" || Js.startsWith url "blob:".

(** The base URL as a directory: with a slash at its end. *)
Definition baseDirectory (baseUrl : string) : string :=
  if Js.endsWith baseUrl "/" then baseUrl else baseUrl +:+ "/".

(** An image reference after the absolutize pass: as it was when its URL is
    absolute or does not resolve, and with the resolved URL and the same
    alt text otherwise. *)
Definition absolutized (h : Host) (dir : string) (p : Piece) : string :=
  match p with
  | Lit c => Js.chr c
  | Image alt url =>
      if isAbsoluteRef url then fullMatch alt url
      else
        match URL_resolve h url dir with
        | Some absoluteUrl => fullMatch alt absoluteUrl
        | None => fullMatch alt url
        end
  end.

(** The condition under which replacing the first textual occurrence of a
    reference replaces that reference: no alt text and no URL contains the
    start of an image reference, and for a reference that is rewritten,
    the alt text and the resolved URL have no dollar sign (which the
    replacement would read as a pattern), and the resolved URL has no
    start of an image reference and is one of the URLs that the pass
    leaves alone. *)
Definition tidyPiece (h : Host) (dir : string) (p : Piece) : bool :=
  match p with
  | Lit _ => true
  | Image alt url =>
      negb (Js.includes alt "![") && negb (Js.includes url "![")
      && (if isAbsoluteRef url then true
          else
            match URL_resolve h url dir with
            | None => true
            | Some absoluteUrl =>
                negb (Js.includes alt "$")
                && negb (Js.includes absoluteUrl "$")
                && negb (Js.includes absoluteUrl "![")
                && isAbsoluteRef absoluteUrl
            end)
  end.

Definition Tidy (h : Host) (baseUrl markdownContent : string) : Prop :=
  forallb (tidyPiece h (baseDirectory baseUrl)) (pieces 0 markdownContent)
  = true.

(** ** Definitions used by the statements and their proofs *)

(** The text before the first line feed. *)
Definition firstLine (t : string) : string := hd EmptyString (Js.split Js.nl t).

(** The comparator of the sort of [suggestTagsKeyword]. *)
Definition byScore (a b : Tag) : Z := score b - score a.

(** The vault of the example: a note Draft, and then a second one. *)
Definition draftVault (second : bool) : gmap string Entry :=
  if second then
    <["Inbox/Draft-1.md" := TextFile "second"]>
      (<["Inbox/Draft.md" := TextFile "first"]> ∅)
  else <["Inbox/Draft.md" := TextFile "first"]> ∅.

(** The settings of the examples: the defaults, with image downloads. *)
Definition downloadingSettings : ClipboardToNoteSettings :=
  {| inboxFolder := "Inbox"; useOpenAI := false; openAIApiKey := "";
     downloadImages := true |}.

(** Every character of the text satisfies [p]. *)
Fixpoint allChars (p : ascii -> bool) (s : string) : bool :=
  match s with
  | EmptyString => true
  | String c s' => p c && allChars p s'
  end.

Definition notChar (d c : ascii) : bool := negb (Ascii.eqb c d).

(** The image references among the pieces. *)
Definition imagesOf (l : list Piece) : list (string * string) :=
  flat_map
    (fun p => match p with Lit _ => [] | Image alt url => [(alt, url)] end) l.

(** The pieces of a scan: a character stands alone only where the pattern
    does not match, and the parts of a reference are what the pattern
    allows. *)
Fixpoint WellScanned (l : list Piece) : Prop :=
  match l with
  | [] => True
  | Lit c :: l' =>
      matchImage (String c (textOf pieceText l')) = None /\ WellScanned l'
  | Image alt url :: l' =>
      allChars (notChar "]") alt = true
      /\ allChars (notChar ")") url = true
      /\ url <> "" /\ WellScanned l'
  end.

(** The scan conditions of a list of pieces that is followed by the
    text [z]. *)
Fixpoint ScannedBefore (z : string) (l : list Piece) : Prop :=
  match l with
  | [] => True
  | Lit c :: l' =>
      matchImage (String c (textOf pieceText l' +:+ z)) = None
      /\ ScannedBefore z l'
  | Image alt url :: l' =>
      allChars (notChar "]") alt = true
      /\ allChars (notChar ")") url = true
      /\ url <> "" /\ ScannedBefore z l'
  end.

(** The replacement that the scanning loop records for a piece. *)
Definition repOf (h : Host) (dir : string) (p : Piece)
    : list (string * string) :=
  match p with
  | Lit _ => []
  | Image alt url =>
      if isAbsoluteRef url then []
      else
        match URL_resolve h url dir with
        | Some absoluteUrl =>
            [(fullMatch alt url, fullMatch alt absoluteUrl)]
        | None => []
        end
  end.

(** *** The words of the claims about tags and placement, on their own

    These definitions do not call the functions of the plugin: the
    theorems relate them to the code. *)

(** The text has the character. *)
Fixpoint hasChar (c : ascii) (s : string) : bool :=
  match s with
  | EmptyString => false
  | String d s' => Ascii.eqb d c || hasChar c s'
  end.

(** The leaf name of a path: what follows its last slash, and the whole
    path when it has no slash. *)
Fixpoint lastSegment (p : string) : string :=
  match p with
  | EmptyString => EmptyString
  | String c p' =>
      if hasChar "/" p' then lastSegment p'
      else if Ascii.eqb c "/" then p'
      else p
  end.

(** The root of the vault is the folder whose path is empty or a slash. *)
Definition isVaultRoot (p : string) : bool :=
  bool_decide (p = ""%string \/ p = "/"%string).

(** The characters at which a folder name is cut into words: white space
    (tab, line feed, vertical tab, form feed, carriage return, space,
    no-break space), hyphen and underscore. *)
Definition wordSeparators : list ascii :=
  ["009"; "010"; "011"; "012"; "013"; " "; "160"; "-"; "_"]%char.

Definition isSeparator (c : ascii) : bool :=
  existsb (Ascii.eqb c) wordSeparators.

(** The text cut at every separator: the pieces between them, empty
    where two separators meet and at a separator at either end. *)
Fixpoint cutAtSeparators (s : string) : list string :=
  match s with
  | EmptyString => [EmptyString]
  | String c s' =>
      if isSeparator c then EmptyString :: cutAtSeparators s'
      else
        match cutAtSeparators s' with
        | piece :: rest => String c piece :: rest
        | [] => [String c EmptyString]
        end
  end.

(** The words of a name: its longest runs of characters that are not
    separators. *)
Definition words (name : string) : list string :=
  List.filter (fun piece => negb (String.eqb piece ""))
    (cutAtSeparators name).

(** The score of a folder name against the lower-cased text: 10 when the
    whole name, lower-cased, is in it, and 3 for each word of the
    lower-cased name that has more than 2 characters and is in it. *)
Definition folderScore (lowerText name : string) : Z :=
  let lowerName := Js.toLowerCase name in
  (if Js.includes lowerText lowerName then 10 else 0)
  + 3 * Z.of_nat
          (length
             (List.filter
                (fun word =>
                   (2 <? String.length word)%nat && Js.includes lowerText word)
                (words lowerName))).

(** The folders other than the root by leaf name and score, in the order
    of enumeration, without those of score 0. *)
Definition scoredFolders (folders : list TFolder) (text : string) : list Tag :=
  List.filter (fun t => negb (score t =? 0))
    (map
       (fun f =>
          {| folder := lastSegment (path f);
             score := folderScore (Js.toLowerCase text)
                        (lastSegment (path f)) |})
       (List.filter (fun f => negb (isVaultRoot (path f))) folders)).

(** A text without a dot. *)
Definition NoDot (s : string) : Prop := forall a b, s <> a +:+ "." +:+ b.

(** The extension of a file name is what starts at its last dot, when at
    least one character follows that dot, and is empty otherwise; the
    base is what comes before the extension. *)
Definition ExtensionAt (name base extension : string) : Prop :=
  name = base +:+ extension
  /\ ((exists rest,
         extension = String "." rest /\ rest <> "" /\ NoDot rest)
      \/ (extension = ""
          /\ forall b rest,
               name = b +:+ "." +:+ rest -> NoDot rest -> rest = "")).

(** The base of a title for the numbered names: the title without the
    three dots at its end, and the title itself when it does not end
    with three dots. *)
Definition TitleBase (name base : string) : Prop :=
  name = base +:+ "..."
  \/ (base = name /\ forall x, name <> x +:+ "...").

(** The piece in progress put before the first piece of a cut. *)
Definition prependTo (cur : string) (cut : list string) : list string :=
  match cut with
  | piece :: rest => (cur +:+ piece) :: rest
  | [] => [cur]
  end.

(** The pieces that are not empty. *)
Definition nonEmptyPieces (cut : list string) : list string :=
  List.filter (fun piece => negb (String.eqb piece "")) cut.

(** *** Definitions for the properties of whole runs and of the other
    functions *)

(** ** Runs that only add to the vault and to the notices *)

(** The world [w'] has every entry of the vault of [w], unchanged, and
    the notices of [w] followed by others. *)
Definition Grows (w w' : World) : Prop :=
  vault w ⊆ vault w' /\ exists shown, notices w' = notices w ++ shown.

Definition Growing {A : Type} (m : M A) : Prop :=
  forall w out w', m w = (out, w') -> Grows w w'.

(** A run that ends: it returns or throws. *)
Definition Settles {A : Type} (m : M A) : Prop :=
  forall w, exists out w', m w = (out, w') /\ out <> Hangs.

(** The last notice of a run of [createNoteFromClipboard]. *)
Definition FinalNotice (settings : ClipboardToNoteSettings) (message : string)
    : Prop :=
  message = "Clipboard is empty"
  \/ (exists reason, message = "Failed to fetch URL: " +:+ reason)
  \/ (exists reason, message = "Error creating note: " +:+ reason)
  \/ (exists name,
        message = "Note created: " +:+ name +:+ " in "
                  +:+ inboxFolder settings).

(** The body of the [try] of [createNoteFromClipboard]. *)
Definition noteRun (h : Host) (settings : ClipboardToNoteSettings)
    (clipboard : Reply string) : M unit :=
  clipboardText <- await clipboard ;;
  if negb (Js.truthy clipboardText) || String.eqb (Js.trim clipboardText) ""
  then notice "Clipboard is empty"
  else
    prepared <- prepare h settings clipboardText ;;
    match prepared with
    | None => ret tt
    | Some (title, content, tags, sourceUrl) =>
        file <- writeNote h settings title content tags sourceUrl ;;
        rewriteWithImages h settings content tags sourceUrl file ;;;
        openFile h file ;;;
        notice ("Note created: " +:+ basename file +:+ " in "
                +:+ inboxFolder settings)
    end.

(** The world after some notices are shown and nothing else happens. *)
Definition withNotices (w : World) (shown : list string) : World :=
  {| vault := vault w; dateReads := dateReads w;
     randomReads := randomReads w; notices := notices w ++ shown;
     opened := opened w |}.

(** The ways in which the fetch of a page fails, with the message of the
    error inside [fetchURLContent]: the request fails, the status is not
    200, the text of the response is blank, the conversion fails. *)
Inductive FetchFails (h : Host) (url : string) : string -> Prop :=
| RequestFails (message : string) :
    requestUrl h url = Failed message -> FetchFails h url message
| StatusNot200 (response : Response) :
    requestUrl h url = Done response -> status response <> 200 ->
    FetchFails h url
      ("HTTP " +:+ Js.toString (status response) +:+ ": Failed to fetch URL")
| BlankResponse (response : Response) :
    requestUrl h url = Done response -> status response = 200 ->
    Js.trim (text response) = "" ->
    FetchFails h url "Received empty response from URL"
| ConversionFails (response : Response) (message : string) :
    requestUrl h url = Done response -> status response = 200 ->
    Js.trim (text response) <> "" ->
    turndown h (text response) = Failed message ->
    FetchFails h url message.





(** An image reference that [downloadImagesInContent] leaves remote: its
    URL is not an http or https URL; or the URL does not parse; or its
    download does not get a response of status 200 and neither the alt
    text nor the URL has a dollar sign. *)
Definition StaysRemote (h : Host) (m : string * string) : Prop :=
  (Js.startsWith (snd m) "http://" = false
   /\ Js.startsWith (snd m) "https://" = false)
  \/ URL_pathname h (snd m) = None
  \/ ((forall r, requestUrl h (snd m) = Done r -> status r <> 200)
      /\ Js.includes (fst m) "$" = false
      /\ Js.includes (snd m) "$" = false).

(** Replacements that put a text without dollar signs in its own place. *)
Definition Selfsame (replacements : list (string * string)) : Prop :=
  List.Forall
    (fun r => fst r = snd r /\ Js.includes (snd r) "$" = false) replacements.

(** A host for the examples whose random numbers are in range. *)
Definition diceHost : Host :=
  {| normalizePath := normalizePath offlineHost;
     getConfig := getConfig offlineHost;
     getAllFolders := getAllFolders offlineHost;
     requestUrl := requestUrl offlineHost;
     createFolderError := createFolderError offlineHost;
     createError := createError offlineHost;
     createBinaryError := createBinaryError offlineHost;
     modifyError := modifyError offlineHost;
     openFileError := openFileError offlineHost;
     clock := clock offlineHost;
     randomBelow := fun n bound => ((7 * n + 10) mod bound)%nat;
     URL_resolve := URL_resolve offlineHost;
     URL_pathname := URL_pathname offlineHost;
     fetchChat := fetchChat offlineHost;
     completionContent := completionContent offlineHost;
     JSON_parse := JSON_parse offlineHost;
     documentTitle := documentTitle offlineHost;
     documentH1 := documentH1 offlineHost;
     turndown := turndown offlineHost |}.

(** A host for the examples that does not open the notes. *)
Definition lockedHost : Host :=
  {| normalizePath := normalizePath offlineHost;
     getConfig := getConfig offlineHost;
     getAllFolders := getAllFolders offlineHost;
     requestUrl := requestUrl offlineHost;
     createFolderError := createFolderError offlineHost;
     createError := createError offlineHost;
     createBinaryError := createBinaryError offlineHost;
     modifyError := modifyError offlineHost;
     openFileError := fun _ => Some "cannot open"%string;
     clock := clock offlineHost;
     randomBelow := randomBelow offlineHost;
     URL_resolve := URL_resolve offlineHost;
     URL_pathname := URL_pathname offlineHost;
     fetchChat := fetchChat offlineHost;
     completionContent := completionContent offlineHost;
     JSON_parse := JSON_parse offlineHost;
     documentTitle := documentTitle offlineHost;
     documentH1 := documentH1 offlineHost;
     turndown := turndown offlineHost |}.

(** The characters of the prefix of the image files. *)
Definition isPrefixChar (c : ascii) : bool :=
  let n := N_of_ascii c in
  ((97 <=? n) && (n <=? 122))%N || ((48 <=? n) && (n <=? 57))%N.

(** The world after some readings of the random numbers. *)
Definition afterRandom (w : World) (reads : nat) : World :=
  {| vault := vault w; dateReads := dateReads w;
     randomReads := randomReads w + reads; notices := notices w;
     opened := opened w |}.

(** *** The settings and their data on disk

    [loadData] gives null when nothing was saved, or the object that was
    saved; of that object the plugin reads four keys, each of which may
    be missing (data saved by a version that did not have the key).  The
    values are taken to have the types that [saveSettings] writes. *)

Record StoredSettings := {
  storedInboxFolder : option string;
  storedUseOpenAI : option bool;
  storedOpenAIApiKey : option string;
  storedDownloadImages : option bool
}.

(** [Object.assign({}, target, source)] on the four keys: a key of the
    source, when it is there, replaces the key of the target. *)
Definition assignSettings (target : ClipboardToNoteSettings)
    (source : option StoredSettings) : ClipboardToNoteSettings :=
  match source with
  | None => target
  | Some d =>
      {| inboxFolder := default (inboxFolder target) (storedInboxFolder d);
         useOpenAI := default (useOpenAI target) (storedUseOpenAI d);
         openAIApiKey := default (openAIApiKey target) (storedOpenAIApiKey d);
         downloadImages :=
           default (downloadImages target) (storedDownloadImages d) |}
  end.

(** The object that [saveData(this.settings)] writes. *)
Definition storedOf (s : ClipboardToNoteSettings) : StoredSettings :=
  {| storedInboxFolder := Some (inboxFolder s);
     storedUseOpenAI := Some (useOpenAI s);
     storedOpenAIApiKey := Some (openAIApiKey s);
     storedDownloadImages := Some (downloadImages s) |}.

(** The plugin, as far as its settings go: the field [settings] and the
    data on disk. *)
Record Plugin := {
  settings : ClipboardToNoteSettings;
  data : option StoredSettings
}.

Definition loadSettings (p : Plugin) : Plugin :=
  {| settings := assignSettings DEFAULT_SETTINGS (data p); data := data p |}.

Definition saveSettings (p : Plugin) : Plugin :=
  {| settings := settings p; data := Some (storedOf (settings p)) |}.

(** The four controls of the settings tab, with the value that the user
    enters. *)
Inductive SettingChange :=
| InboxFolderChange (value : string)
| UseOpenAIChange (value : bool)
| OpenAIApiKeyChange (value : string)
| DownloadImagesChange (value : bool).

(** The [onChange] handlers of [display]: the field is set, and the
    settings are saved. *)
Definition onChange (c : SettingChange) (p : Plugin) : Plugin :=
  let s := settings p in
  let s' :=
    match c with
    | InboxFolderChange value =>
        {| inboxFolder := if Js.truthy value then value else "Inbox";
           useOpenAI := useOpenAI s; openAIApiKey := openAIApiKey s;
           downloadImages := downloadImages s |}
    | UseOpenAIChange value =>
        {| inboxFolder := inboxFolder s; useOpenAI := value;
           openAIApiKey := openAIApiKey s;
           downloadImages := downloadImages s |}
    | OpenAIApiKeyChange value =>
        {| inboxFolder := inboxFolder s; useOpenAI := useOpenAI s;
           openAIApiKey := value; downloadImages := downloadImages s |}
    | DownloadImagesChange value =>
        {| inboxFolder := inboxFolder s; useOpenAI := useOpenAI s;
           openAIApiKey := openAIApiKey s; downloadImages := value |}
    end in
  saveSettings {| settings := s'; data := data p |}.

(** The plugin after it is loaded and the user makes some changes. *)
Definition afterChanges (p : Plugin) (changes : list SettingChange) : Plugin :=
  fold_left (fun q c => onChange c q) changes (loadSettings p).

(** ** Part II. Properties *)

#[local] Arguments String.append !s1 s2 / : simpl nomatch.

Ltac invc H := inversion H; subst; clear H.

(** [lia] with quotients and remainders by constants. *)
Ltac dlia := Z.to_euclidean_division_equations; lia.

(** *** Strings *)

Lemma str_app_nil_r (s : string) : s +:+ "" = s.
Proof. induction s as [|c s IH]; simpl; [reflexivity | now rewrite IH]. Qed.

Lemma str_app_assoc (a b c : string) : (a +:+ b) +:+ c = a +:+ (b +:+ c).
Proof. induction a as [|x a IH]; simpl; [reflexivity | now rewrite IH]. Qed.

Lemma str_length_app (a b : string) :
  String.length (a +:+ b) = (String.length a + String.length b)%nat.
Proof. induction a as [|x a IH]; simpl; [reflexivity | now rewrite IH]. Qed.

Lemma str_app_inv_head (a b c : string) : a +:+ b = a +:+ c -> b = c.
Proof. induction a as [|x a IH]; simpl; intros H; [exact H | invc H; auto]. Qed.

Lemma str_length_zero (s : string) : String.length s = 0%nat -> s = "".
Proof. destruct s; simpl; [reflexivity | discriminate]. Qed.

Lemma stripPrefix_app (p r : string) : Js.stripPrefix p (p +:+ r) = Some r.
Proof.
  induction p as [|a p IH]; simpl; [reflexivity |].
  now rewrite Ascii.eqb_refl.
Qed.

Lemma stripPrefix_Some (p s r : string) :
  Js.stripPrefix p s = Some r <-> s = p +:+ r.
Proof.
  split.
  - revert s; induction p as [|a p IH]; intros s; simpl.
    + now intros [= ->].
    + destruct s as [|b s]; [discriminate |].
      destruct (Ascii.eqb a b) eqn:E; [| discriminate].
      apply Ascii.eqb_eq in E as ->. intros H. now rewrite (IH _ H).
  - intros ->. apply stripPrefix_app.
Qed.

Lemma startsWith_true (s p : string) :
  Js.startsWith s p = true <-> exists r, s = p +:+ r.
Proof.
  unfold Js.startsWith. split.
  - destruct (Js.stripPrefix p s) as [r|] eqn:E; [| discriminate].
    intros _. exists r. now apply stripPrefix_Some.
  - intros [r ->]. now rewrite stripPrefix_app.
Qed.

Lemma startsWith_app (p r : string) : Js.startsWith (p +:+ r) p = true.
Proof. apply startsWith_true. now exists r. Qed.

Lemma split_not_nil (sep : ascii) (s : string) : Js.split sep s <> [].
Proof.
  induction s as [|c s IH]; simpl; [discriminate |].
  destruct (Ascii.eqb c sep); [discriminate |].
  destruct (Js.split sep s); [congruence | discriminate].
Qed.

(** [split] gives more than one piece exactly when the separator occurs. *)
Lemma split_many (sep : ascii) (s : string) :
  (1 <? length (Js.split sep s))%nat = true
  <-> exists a b, s = a +:+ String sep b.
Proof.
  induction s as [|c s IH]; simpl.
  - split; [discriminate |]. intros ([|x a] & b & H); discriminate.
  - destruct (Ascii.eqb c sep) eqn:E.
    + apply Ascii.eqb_eq in E as ->. split.
      * intros _. now exists "", s.
      * intros _. pose proof (split_not_nil sep s) as H.
        destruct (Js.split sep s); [congruence | reflexivity].
    + apply Ascii.eqb_neq in E.
      pose proof (split_not_nil sep s) as Hne.
      destruct (Js.split sep s) as [|piece rest]; [congruence |].
      simpl in *. rewrite IH. split.
      * intros (a & b & ->). now exists (String c a), b.
      * intros ([|x a] & b & H); simpl in H; invc H; [congruence |].
        now exists a, b.
Qed.

(** *** C2: [isURL] *)

Lemma Matches_char_inv (c : ascii) (s : string) :
  Matches (RChar c) s -> s = Js.chr c.
Proof. intros H. inversion H. reflexivity. Qed.

Lemma Matches_dot_inv (s : string) :
  Matches RDot s -> exists c, s = Js.chr c /\ Js.isLineTerminator c = false.
Proof. intros H. inversion H as [| c Hc | | | | |]. now exists c. Qed.

Lemma Matches_seq_inv (a b : Regex) (s : string) :
  Matches (RSeq a b) s ->
  exists s1 s2, s = s1 +:+ s2 /\ Matches a s1 /\ Matches b s2.
Proof.
  intros H. inversion H as [| | a' b' s1 s2 H1 H2 | | | |]. now exists s1, s2.
Qed.

Lemma Matches_opt_inv (a : Regex) (s : string) :
  Matches (ROpt a) s -> s = "" \/ Matches a s.
Proof. intros H. inversion H; auto. Qed.

Lemma Matches_plus_inv (a : Regex) (s : string) :
  Matches (RPlus a) s -> exists s1 s2, s = s1 +:+ s2 /\ Matches a s1.
Proof.
  intros H. inversion H as [| | | | | a' s1 H1 | a' s1 s2 H1 H2].
  - exists s, "". now rewrite str_app_nil_r.
  - now exists s1, s2.
Qed.

Lemma testHttpUrl_sound (t : string) :
  TestAtStart httpUrlPattern t -> testHttpUrl t = true.
Proof.
  intros (p & r & -> & H). unfold httpUrlPattern in H.
  apply Matches_seq_inv in H as (h1 & p1 & -> & ->%Matches_char_inv & H).
  apply Matches_seq_inv in H as (h2 & p2 & -> & ->%Matches_char_inv & H).
  apply Matches_seq_inv in H as (h3 & p3 & -> & ->%Matches_char_inv & H).
  apply Matches_seq_inv in H as (h4 & p4 & -> & ->%Matches_char_inv & H).
  apply Matches_seq_inv in H as (o & p5 & -> & Ho & H).
  apply Matches_seq_inv in H as (h6 & p6 & -> & ->%Matches_char_inv & H).
  apply Matches_seq_inv in H as (h7 & p7 & -> & ->%Matches_char_inv & H).
  apply Matches_seq_inv in H as (h8 & p8 & -> & ->%Matches_char_inv & H).
  apply Matches_plus_inv in H as (d & y & -> & Hd).
  apply Matches_dot_inv in Hd as (c & -> & Hc).
  apply Matches_opt_inv in Ho as [-> | ->%Matches_char_inv];
    unfold testHttpUrl; simpl; now rewrite Hc.
Qed.

Lemma httpUrlPattern_intro (opt : string) (c : ascii) (rest : string) :
  Matches (ROpt (RChar "s")) opt ->
  Js.isLineTerminator c = false ->
  TestAtStart httpUrlPattern ("http" +:+ opt +:+ "://" +:+ String c rest).
Proof.
  intros Ho Hc. exists ("http" +:+ opt +:+ "://" +:+ Js.chr c), rest. split.
  - simpl. rewrite !str_app_assoc. reflexivity.
  - unfold httpUrlPattern.
    apply (MSeq (RChar "h") _ (Js.chr "h")); [constructor |].
    apply (MSeq (RChar "t") _ (Js.chr "t")); [constructor |].
    apply (MSeq (RChar "t") _ (Js.chr "t")); [constructor |].
    apply (MSeq (RChar "p") _ (Js.chr "p")); [constructor |].
    apply MSeq; [exact Ho |].
    apply (MSeq (RChar ":") _ (Js.chr ":")); [constructor |].
    apply (MSeq (RChar "/") _ (Js.chr "/")); [constructor |].
    apply (MSeq (RChar "/") _ (Js.chr "/")); [constructor |].
    apply MPlusOne. now constructor.
Qed.

Lemma testHttpUrl_complete (t : string) :
  testHttpUrl t = true -> TestAtStart httpUrlPattern t.
Proof.
  unfold testHttpUrl.
  destruct (Js.stripPrefix "http" t) as [r|] eqn:E; [| discriminate].
  apply stripPrefix_Some in E as ->.
  assert (Hrest : forall r,
    match Js.stripPrefix "://" r with
    | Some (String c _) => negb (Js.isLineTerminator c)
    | _ => false
    end = true ->
    exists c rest, r = "://" +:+ String c rest
                   /\ Js.isLineTerminator c = false).
  { intros r0 H. destruct (Js.stripPrefix "://" r0) as [[|c x]|] eqn:E;
      try discriminate.
    apply stripPrefix_Some in E as ->. exists c, x. split; [reflexivity |].
    now apply negb_true_iff. }
  destruct r as [|c r']; [discriminate |].
  destruct (Ascii.eqb c "s") eqn:Es.
  - apply Ascii.eqb_eq in Es as ->. intros H.
    apply orb_true_iff in H as [H | H].
    + apply Hrest in H as (c & rest & -> & Hc).
      apply (httpUrlPattern_intro (Js.chr "s") c rest); [| exact Hc].
      apply MOptSome. constructor.
    + apply Hrest in H as (c & rest & H & _). discriminate.
  - intros H. apply Hrest in H as (c0 & rest & -> & Hc).
    apply (httpUrlPattern_intro "" c0 rest); [constructor | exact Hc].
Qed.

(** C2.  [isURL s] is true exactly when the trimmed text has no line feed
    and matches, from its start, the pattern http, optional s, colon, two
    slashes, one or more characters other than line terminators (with the
    letters of the scheme as written, in lower case); so a text whose
    trimmed form has a line feed is never a URL. *)
Theorem isURL_spec (s : string) :
  (isURL s = true
   <-> ~ HasNewline (Js.trim s) /\ TestAtStart httpUrlPattern (Js.trim s))
  /\ (HasNewline (Js.trim s) -> isURL s = false).
Proof.
  unfold isURL, HasNewline.
  pose proof (split_many Js.nl (Js.trim s)) as Hs.
  destruct (1 <? length (Js.split Js.nl (Js.trim s)))%nat eqn:E.
  - split; [| reflexivity]. split; [discriminate |].
    intros [Hno _]. exfalso. apply Hno. now apply Hs.
  - assert (Hno : ~ exists a b, Js.trim s = a +:+ String Js.nl b).
    { intros H. apply Hs in H. discriminate. }
    split; [| intros H; contradiction].
    split.
    + intros H. split; [exact Hno | now apply testHttpUrl_complete].
    + intros [_ H]. now apply testHttpUrl_sound.
Qed.

(** The scheme is matched as written: upper case is refused. *)
Example isURL_upper_case : isURL "HTTP://site.com" = false.
Proof. reflexivity. Qed.

Example isURL_trailing_newline :
  isURL ("https://site.com/page" +:+ Js.chr Js.nl) = true.
Proof. reflexivity. Qed.

(** *** C6: [generateTitle] *)

Lemma firstLine_cons (c : ascii) (t : string) :
  firstLine (String c t)
  = if Ascii.eqb c Js.nl then "" else String c (firstLine t).
Proof.
  unfold firstLine. simpl. destruct (Ascii.eqb c Js.nl); [reflexivity |].
  pose proof (split_not_nil Js.nl t).
  destruct (Js.split Js.nl t); [congruence | reflexivity].
Qed.

Lemma trimEnd_cons (c : ascii) (s : string) :
  Js.trimEnd (String c s)
  = if Js.truthy (Js.trimEnd s) then String c (Js.trimEnd s)
    else if Js.isWhiteSpace c then "" else Js.chr c.
Proof. simpl. destruct (Js.trimEnd s); reflexivity. Qed.

Lemma nl_isWhiteSpace : Js.isWhiteSpace Js.nl = true.
Proof. reflexivity. Qed.

Lemma isWhiteSpace_not_nl (c : ascii) :
  Js.isWhiteSpace c = false -> Ascii.eqb c Js.nl = false.
Proof.
  intros H. destruct (Ascii.eqb c Js.nl) eqn:E; [| reflexivity].
  apply Ascii.eqb_eq in E as ->. discriminate.
Qed.

Lemma trimEnd_idem (s : string) : Js.trimEnd (Js.trimEnd s) = Js.trimEnd s.
Proof.
  induction s as [|c s IH]; [reflexivity |].
  rewrite trimEnd_cons.
  destruct (Js.trimEnd s) as [|d u] eqn:E; simpl Js.truthy; cbv iota.
  - destruct (Js.isWhiteSpace c) eqn:W; [reflexivity |].
    simpl. now rewrite W.
  - rewrite trimEnd_cons, IH. reflexivity.
Qed.

Lemma trimStart_idem (s : string) :
  Js.trimStart (Js.trimStart s) = Js.trimStart s.
Proof.
  induction s as [|c s IH]; [reflexivity |].
  simpl. destruct (Js.isWhiteSpace c) eqn:W; [exact IH |].
  simpl. now rewrite W.
Qed.

Lemma trimStart_trimEnd (s : string) :
  Js.trimStart (Js.trimEnd s) = Js.trimEnd (Js.trimStart s).
Proof.
  induction s as [|c s IH]; [reflexivity |].
  rewrite trimEnd_cons. simpl Js.trimStart at 2.
  destruct (Js.isWhiteSpace c) eqn:W.
  - rewrite <- IH. destruct (Js.trimEnd s) as [|d u]; simpl; [reflexivity |].
    now rewrite W.
  - rewrite trimEnd_cons.
    destruct (Js.truthy (Js.trimEnd s)); simpl; now rewrite W.
Qed.

Lemma trim_trimStart (s : string) : Js.trim (Js.trimStart s) = Js.trim s.
Proof. unfold Js.trim. now rewrite trimStart_idem. Qed.

Lemma trim_trimEnd (s : string) : Js.trim (Js.trimEnd s) = Js.trim s.
Proof. unfold Js.trim. now rewrite trimStart_trimEnd, trimEnd_idem. Qed.

Lemma trimStart_trim (s : string) : Js.trimStart (Js.trim s) = Js.trim s.
Proof. unfold Js.trim. now rewrite trimStart_trimEnd, trimStart_idem. Qed.

Lemma trim_idem (s : string) : Js.trim (Js.trim s) = Js.trim s.
Proof.
  unfold Js.trim at 1. rewrite trimStart_trim. unfold Js.trim.
  now rewrite trimEnd_idem.
Qed.

(** The first line of an all-white text is all white. *)
Lemma trimEnd_firstLine_blank (t : string) :
  Js.trimEnd t = "" -> Js.trimEnd (firstLine t) = "".
Proof.
  induction t as [|c t IH]; [reflexivity |].
  rewrite trimEnd_cons, firstLine_cons.
  destruct (Js.trimEnd t) eqn:E; simpl Js.truthy; cbv iota; [| discriminate].
  destruct (Js.isWhiteSpace c) eqn:W; [| discriminate].
  intros _. destruct (Ascii.eqb c Js.nl); [reflexivity |].
  rewrite trimEnd_cons, IH by reflexivity. simpl. now rewrite W.
Qed.

(** Trimming the end of the text changes at most the trailing white space
    of its first line. *)
Lemma trimEnd_firstLine (t : string) :
  Js.trimEnd (firstLine (Js.trimEnd t)) = Js.trimEnd (firstLine t).
Proof.
  induction t as [|c t IH]; [reflexivity |].
  rewrite trimEnd_cons.
  destruct (Js.trimEnd t) as [|d u] eqn:E; simpl Js.truthy; cbv iota.
  - rewrite firstLine_cons.
    pose proof (trimEnd_firstLine_blank t E) as Hb.
    destruct (Js.isWhiteSpace c) eqn:W.
    + destruct (Ascii.eqb c Js.nl); [reflexivity |].
      rewrite trimEnd_cons, Hb. simpl. now rewrite W.
    + rewrite (isWhiteSpace_not_nl c W).
      rewrite trimEnd_cons, Hb. simpl. rewrite W.
      unfold Js.chr. rewrite firstLine_cons, (isWhiteSpace_not_nl c W).
      simpl. now rewrite W.
  - rewrite (firstLine_cons c (String d u)), (firstLine_cons c t).
    destruct (Ascii.eqb c Js.nl); [reflexivity |].
    rewrite (trimEnd_cons c (firstLine (String d u))).
    rewrite (trimEnd_cons c (firstLine t)), IH. reflexivity.
Qed.

Lemma trimStart_nonwhite (c : ascii) (s : string) :
  Js.isWhiteSpace c = false -> Js.trimStart (String c s) = String c s.
Proof. intros W. simpl. now rewrite W. Qed.

Lemma trimEnd_nonwhite_truthy (c : ascii) (s : string) :
  Js.isWhiteSpace c = false -> Js.truthy (Js.trimEnd (String c s)) = true.
Proof.
  intros W. rewrite trimEnd_cons.
  destruct (Js.truthy (Js.trimEnd s)); [reflexivity |]. now rewrite W.
Qed.

(** The first line of the trimmed text is the first line that is not
    blank, up to white space at its ends. *)
Lemma firstLine_trimStart (text : string) :
  Js.trim (firstNonEmptyLine text)
  = Js.trimEnd (firstLine (Js.trimStart text)).
Proof.
  induction text as [|c s IH]; [reflexivity |].
  simpl Js.trimStart. destruct (Js.isWhiteSpace c) eqn:W.
  - rewrite <- IH. unfold firstNonEmptyLine. simpl Js.split.
    destruct (Ascii.eqb c Js.nl) eqn:En.
    + reflexivity.
    + pose proof (split_not_nil Js.nl s) as Hne.
      destruct (Js.split Js.nl s) as [|piece rest]; [congruence |].
      simpl List.filter.
      assert (Ht : Js.trim (String c piece) = Js.trim piece).
      { unfold Js.trim. simpl. now rewrite W. }
      unfold isBlankLine. rewrite Ht.
      destruct (negb (negb (Js.truthy (Js.trim piece)))); simpl;
        [exact Ht | reflexivity].
  - unfold firstNonEmptyLine. change (hd "" (Js.split Js.nl (String c s)))
      with (firstLine (String c s)) in *.
    assert (Hf : firstLine (String c s) = String c (firstLine s)).
    { now rewrite firstLine_cons, (isWhiteSpace_not_nl c W). }
    unfold firstLine in Hf.
    destruct (Js.split Js.nl (String c s)) as [|first rest] eqn:Es.
    { now apply split_not_nil in Es. }
    simpl in Hf. subst first. simpl List.filter.
    assert (Hnb : isBlankLine (String c (hd "" (Js.split Js.nl s))) = false).
    { unfold isBlankLine, Js.trim.
      now rewrite (trimStart_nonwhite c _ W), (trimEnd_nonwhite_truthy c _ W). }
    rewrite Hnb. simpl. unfold Js.trim. rewrite (trimStart_nonwhite c _ W).
    unfold firstLine. rewrite Es. reflexivity.
Qed.

Lemma firstLine_trim (text : string) :
  Js.trimEnd (firstLine (Js.trim text)) = Js.trim (firstNonEmptyLine text).
Proof.
  unfold Js.trim at 1. now rewrite trimEnd_firstLine, firstLine_trimStart.
Qed.

Lemma dropHashes_trimEnd (s : string) :
  dropHashes (Js.trimEnd s) = Js.trimEnd (dropHashes s).
Proof.
  induction s as [|c s IH]; [reflexivity |].
  simpl dropHashes at 2. destruct (Ascii.eqb c "#") eqn:E.
  - apply Ascii.eqb_eq in E as ->. rewrite <- IH, trimEnd_cons.
    destruct (Js.trimEnd s); reflexivity.
  - rewrite trimEnd_cons.
    destruct (Js.truthy (Js.trimEnd s)); simpl; [now rewrite E |].
    destruct (Js.isWhiteSpace c); simpl; [reflexivity | now rewrite E].
Qed.

Lemma trim_stripHeading (line : string) :
  Js.trim (stripHeading line) = Js.trim (dropHashes (Js.trimEnd line)).
Proof.
  rewrite dropHashes_trimEnd, trim_trimEnd. unfold stripHeading.
  destruct line as [|c s]; [reflexivity |].
  unfold Js.startsWith. cbn [Js.stripPrefix]. rewrite Ascii.eqb_sym.
  destruct (Ascii.eqb c "#") eqn:E; [apply trim_trimStart |].
  cbn [dropHashes]. now rewrite E.
Qed.

(** The cleaned line of [generateTitle] is the stripped first line that is
    not blank. *)
Lemma cleaned_strippedLine (text : string) :
  Js.trim (stripHeading (hd EmptyString (Js.split Js.nl (Js.trim text))))
  = strippedLine text.
Proof.
  rewrite trim_stripHeading. unfold strippedLine.
  now rewrite <- firstLine_trim.
Qed.

Lemma substring_0_length (m : nat) (s : string) :
  String.length (String.substring 0 m s) = Nat.min m (String.length s).
Proof.
  revert s; induction m as [|m IH]; intros [|c s]; simpl; auto.
Qed.

Lemma js_substring_0 (s : string) (m : nat) :
  (m <= String.length s)%nat ->
  Js.substring s 0 (Z.of_nat m) = String.substring 0 m s.
Proof.
  intros H. unfold Js.substring, Js.clampIndex.
  replace (Z.to_nat (Z.min (Z.max 0 0) (Z.of_nat (String.length s))))
    with 0%nat by lia.
  replace (Z.to_nat (Z.min (Z.max (Z.of_nat m) 0)
                       (Z.of_nat (String.length s)))) with m by lia.
  rewrite Nat.min_0_l, Nat.max_0_l, Nat.sub_0_r. reflexivity.
Qed.

Lemma trimStart_length (s : string) :
  (String.length (Js.trimStart s) <= String.length s)%nat.
Proof.
  induction s as [|c s IH]; simpl; [lia |].
  destruct (Js.isWhiteSpace c); simpl; lia.
Qed.

Lemma trimStart_fixed_head (c : ascii) (s : string) :
  Js.trimStart (String c s) = String c s -> Js.isWhiteSpace c = false.
Proof.
  simpl. destruct (Js.isWhiteSpace c); [| reflexivity].
  intros H. pose proof (trimStart_length s) as Hl. rewrite H in Hl.
  simpl in Hl. lia.
Qed.

Lemma trimStart_substring (s : string) (m : nat) :
  Js.trimStart s = s ->
  Js.trimStart (String.substring 0 m s) = String.substring 0 m s.
Proof.
  destruct s as [|c s]; [destruct m; reflexivity |].
  intros H%trimStart_fixed_head. destruct m as [|m]; [reflexivity |].
  simpl. now rewrite H.
Qed.

Lemma trimEnd_fixed_last (s : string) (n : nat) (c : ascii) :
  String.get n s = Some c -> String.length s = S n ->
  Js.isWhiteSpace c = false -> Js.trimEnd s = s.
Proof.
  revert n; induction s as [|d s IH]; intros n Hg Hl W; [discriminate |].
  rewrite trimEnd_cons. destruct n as [|n]; simpl in Hg, Hl.
  - injection Hg as ->. injection Hl as Hl. apply str_length_zero in Hl as ->.
    simpl. now rewrite W.
  - injection Hl as Hl. rewrite (IH n Hg Hl W).
    destruct s; [discriminate | reflexivity].
Qed.

(** C6, at the input where the claim as written fails: the cleaned line
    has 55 characters and its 50th is a space; the title is 49 characters
    and the dots, not the first 50 characters and the dots. *)
Lemma generateTitle_truncation_counterexample :
  let line := "aaaaaaaaaaaaaaaaaaaaaaaaaaaaaaaaaaaaaaaaaaaaaaaaa bbbbb" in
  strippedLine line = line
  /\ (50 < String.length line)%nat
  /\ generateTitle line <> String.substring 0 50 line +:+ "..."
  /\ generateTitle line
     = "aaaaaaaaaaaaaaaaaaaaaaaaaaaaaaaaaaaaaaaaaaaaaaaaa...".
Proof.
  cbv zeta. split; [vm_compute; reflexivity |].
  split; [vm_compute; lia |].
  split; [vm_compute; discriminate | vm_compute; reflexivity].
Qed.

(** A line is its leading hash signs and what [dropHashes] leaves, which
    does not start with a hash sign. *)
Lemma dropHashes_split (s : string) :
  exists hashes,
    s = hashes +:+ dropHashes s
    /\ allChars (fun c => Ascii.eqb c "#") hashes = true
    /\ Js.startsWith (dropHashes s) "#" = false.
Proof.
  induction s as [|c s (hs & IH & Ha & Hn)]; [now exists ""%string |].
  cbn [dropHashes]. destruct (Ascii.eqb c "#") eqn:E.
  - exists (String c hs). split; [cbn [String.append]; now f_equal |].
    split; [| exact Hn]. cbn [allChars]. now rewrite E, Ha.
  - exists ""%string. repeat split.
    unfold Js.startsWith. cbn [Js.stripPrefix]. rewrite Ascii.eqb_sym, E.
    reflexivity.
Qed.

(** C6.  [generateTitle] works on the first line that is not
    blank, without its leading hash signs and the white space around it:
    that line, trimmed, is a run of hash signs and a rest that does not
    start with a hash sign, and the stripped line is the rest, trimmed.
    When the stripped line has more than 50 characters the title is its
    first 50 characters, without the white space at their end, followed
    by three dots; this is the first 50 characters and the dots whenever
    the 50th character is not white space.  A line of at most 50
    characters is the title, unchanged; when the line is empty the title
    is Untitled Note. *)
Theorem generateTitle_spec (text : string) :
  generateTitle text = titleOf text
  /\ ((50 < String.length (strippedLine text))%nat ->
      generateTitle text
      = Js.trimEnd (String.substring 0 50 (strippedLine text)) +:+ "...")
  /\ (forall c,
        (50 < String.length (strippedLine text))%nat ->
        String.get 49 (strippedLine text) = Some c ->
        Js.isWhiteSpace c = false ->
        generateTitle text
        = String.substring 0 50 (strippedLine text) +:+ "...")
  /\ ((String.length (strippedLine text) <= 50)%nat ->
      strippedLine text <> "" ->
      generateTitle text = strippedLine text)
  /\ (strippedLine text = "" -> generateTitle text = "Untitled Note")
  /\ (exists hashes rest,
        Js.trim (firstNonEmptyLine text) = hashes +:+ rest
        /\ allChars (fun c => Ascii.eqb c "#") hashes = true
        /\ match rest with
           | String c _ => c <> "#"%char
           | EmptyString => True
           end
        /\ strippedLine text = Js.trim rest).
Proof.
  assert (Hlead : exists hashes rest,
            Js.trim (firstNonEmptyLine text) = hashes +:+ rest
            /\ allChars (fun c => Ascii.eqb c "#") hashes = true
            /\ match rest with
               | String c _ => c <> "#"%char
               | EmptyString => True
               end
            /\ strippedLine text = Js.trim rest).
  { destruct (dropHashes_split (Js.trim (firstNonEmptyLine text)))
      as (hashes & Hl & Hh & Hn).
    exists hashes, (dropHashes (Js.trim (firstNonEmptyLine text))).
    split; [exact Hl |]. split; [exact Hh |]. split; [| reflexivity].
    destruct (dropHashes (Js.trim (firstNonEmptyLine text))) as [|c r];
      [exact I |].
    intros ->. unfold Js.startsWith in Hn. cbn [Js.stripPrefix] in Hn.
    rewrite Ascii.eqb_refl in Hn. discriminate Hn. }
  assert (Ht : generateTitle text = titleOf text).
  { unfold generateTitle, titleOf. rewrite cleaned_strippedLine.
    set (line := strippedLine text).
    destruct (50 <? String.length line)%nat eqn:E.
    - apply Nat.ltb_lt in E.
      change (Js.substring line 0 50)
        with (Js.substring line 0 (Z.of_nat 50%nat)).
      rewrite (js_substring_0 line 50) by lia.
      unfold Js.trim. rewrite trimStart_substring; [reflexivity |].
      apply trimStart_trim.
    - destruct line; reflexivity. }
  split; [exact Ht |]. rewrite Ht. unfold titleOf.
  set (line := strippedLine text).
  split; [| split; [| split; [| split]]].
  - intros H. apply Nat.ltb_lt in H. now rewrite H.
  - intros c H Hg W. pose proof H as H'. apply Nat.ltb_lt in H'. rewrite H'.
    rewrite (trimEnd_fixed_last _ 49 c); auto.
    + rewrite String.substring_correct1 by lia. exact Hg.
    + rewrite substring_0_length. lia.
  - intros H Hne. assert (E : (50 <? String.length line)%nat = false)
      by (apply Nat.ltb_ge; lia).
    rewrite E. destruct line; [congruence | reflexivity].
  - intros ->. reflexivity.
  - exact Hlead.
Qed.

Example generateTitle_sixty :
  generateTitle
    "123456789012345678901234567890123456789012345678901234567890"
  = "12345678901234567890123456789012345678901234567890...".
Proof. reflexivity. Qed.

Example generateTitle_forty :
  generateTitle "# 1234567890123456789012345678901234567890"
  = "1234567890123456789012345678901234567890".
Proof. reflexivity. Qed.

(** *** C7: [getAttachmentFolder] *)

Lemma join_cons2 (sep x y : string) (l : list string) :
  Js.join sep (x :: y :: l) = x +:+ sep +:+ Js.join sep (y :: l).
Proof. reflexivity. Qed.

Lemma split_join (sep : ascii) (s : string) :
  Js.join (Js.chr sep) (Js.split sep s) = s.
Proof.
  induction s as [|c s IH]; [reflexivity |].
  simpl Js.split. pose proof (split_not_nil sep s) as Hne.
  destruct (Ascii.eqb c sep) eqn:E.
  - apply Ascii.eqb_eq in E as ->.
    destruct (Js.split sep s) as [|p rest]; [congruence |].
    rewrite join_cons2, IH. reflexivity.
  - destruct (Js.split sep s) as [|p [|q rest]]; [congruence | |].
    + simpl in *. now rewrite IH.
    + rewrite join_cons2. rewrite join_cons2 in IH.
      cbn [String.append]. now rewrite IH.
Qed.

Lemma substring_0_app (a b : string) :
  String.substring 0 (String.length a) (a +:+ b) = a.
Proof.
  induction a as [|c a IH]; simpl.
  - destruct b; reflexivity.
  - now rewrite IH.
Qed.

(** Where the last separator stands: after the joined pieces before the
    last one. *)
Lemma lastIndexOf_go_split (c : ascii) (s : string) (i found : Z) :
  Js.lastIndexOf_go c s i found
  = match Js.split c s with
    | [_] => found
    | pieces =>
        i + Z.of_nat (String.length (Js.join (Js.chr c) (removelast pieces)))
    end.
Proof.
  revert i found; induction s as [|d s IH]; intros i found; [reflexivity |].
  simpl Js.lastIndexOf_go. rewrite IH. clear IH. simpl Js.split.
  pose proof (split_not_nil c s) as Hne.
  destruct (Ascii.eqb d c) eqn:E.
  - destruct (Js.split c s) as [|p [|q rest]]; [congruence | |].
    + simpl. lia.
    + change (removelast ("" :: p :: q :: rest))
        with ("" :: p :: removelast (q :: rest)).
      change (removelast (p :: q :: rest)) with (p :: removelast (q :: rest)).
      rewrite (join_cons2 _ "" p), !str_length_app.
      simpl String.length. lia.
  - destruct (Js.split c s) as [|p [|q rest]]; [congruence | reflexivity |].
    change (removelast (String d p :: q :: rest))
      with (String d p :: removelast (q :: rest)).
    change (removelast (p :: q :: rest)) with (p :: removelast (q :: rest)).
    destruct (removelast (q :: rest)) as [|x xs].
    + simpl. lia.
    + rewrite !join_cons2. cbn [String.append String.length]. lia.
Qed.

Lemma join_removelast (sep : string) (l : list string) (x y : string) :
  Js.join sep (x :: y :: l)
  = Js.join sep (removelast (x :: y :: l)) +:+ sep
    +:+ List.last (x :: y :: l) EmptyString.
Proof.
  revert x y; induction l as [|z l IH]; intros x y; [reflexivity |].
  rewrite join_cons2, (IH y z).
  change (removelast (x :: y :: z :: l))
    with (x :: removelast (y :: z :: l)).
  change (List.last (x :: y :: z :: l) "")
    with (List.last (y :: z :: l) "").
  destruct (removelast (y :: z :: l)) as [|a r] eqn:Er.
  - discriminate.
  - rewrite join_cons2, !str_app_assoc. reflexivity.
Qed.

(** The directory that the code cuts out with [lastIndexOf] and
    [substring] is the path without its last segment. *)
Lemma noteDir_containingDirectory (notePath : string) :
  Js.substring notePath 0 (Js.lastIndexOf notePath "/")
  = containingDirectory notePath.
Proof.
  unfold Js.lastIndexOf, containingDirectory.
  rewrite lastIndexOf_go_split.
  pose proof (split_join "/" notePath) as Hj.
  pose proof (split_not_nil "/" notePath) as Hne.
  destruct (Js.split "/" notePath) as [|x [|y l]]; [congruence | |].
  - unfold Js.substring, Js.clampIndex.
    replace (Z.to_nat (Z.min (Z.max 0 0) (Z.of_nat (String.length notePath))))
      with 0%nat by lia.
    replace (Z.to_nat (Z.min (Z.max (-1) 0)
                         (Z.of_nat (String.length notePath))))
      with 0%nat by lia.
    simpl. destruct notePath; reflexivity.
  - rewrite Z.add_0_l.
    change (Js.chr "/") with "/" in *.
    rewrite join_removelast in Hj.
    set (dir := Js.join "/" (removelast (x :: y :: l))) in *.
    rewrite js_substring_0.
    + rewrite <- Hj. apply substring_0_app.
    + rewrite <- Hj, str_length_app. lia.
Qed.

Lemma substringFrom_app (a b : string) :
  Js.substringFrom (a +:+ b) (Z.of_nat (String.length a)) = b.
Proof.
  unfold Js.substringFrom, Js.substring, Js.clampIndex.
  rewrite str_length_app.
  replace (Z.to_nat (Z.min (Z.max (Z.of_nat (String.length a)) 0)
             (Z.of_nat (String.length a + String.length b))))
    with (String.length a) by lia.
  replace (Z.to_nat (Z.min (Z.max (Z.of_nat (String.length a
                                             + String.length b)) 0)
             (Z.of_nat (String.length a + String.length b))))
    with (String.length a + String.length b)%nat by lia.
  rewrite Nat.min_l, Nat.max_r by lia.
  replace (String.length a + String.length b - String.length a)%nat
    with (String.length b) by lia.
  induction a as [|c a IH]; simpl.
  - induction b as [|d b IHb]; simpl; [reflexivity | now rewrite IHb].
  - exact IH.
Qed.

Lemma truthy_eqb (s : string) : Js.truthy s = negb (String.eqb s "").
Proof. destruct s; reflexivity. Qed.

(** C7.  [getAttachmentFolder] follows the four rules in order: with the
    attachment folder not set (undefined or empty) or equal to a slash, the
    directory that contains the note, or a dot for a note at the root;
    else, for a configured path that starts with a slash or has no
    dot-slash in it, that path as it is; else, for one that starts with
    dot-slash, the rest of it under the directory of the note; and
    otherwise the configured path as it is. *)
Theorem getAttachmentFolder_rules (h : Host) (notePath : string) :
  getAttachmentFolder h notePath
  = attachmentFolderRules (getConfig h "attachmentFolderPath") notePath.
Proof.
  unfold getAttachmentFolder, attachmentFolderRules.
  rewrite noteDir_containingDirectory.
  set (dir := containingDirectory notePath).
  destruct (getConfig h "attachmentFolderPath") as [p|]; simpl default.
  - rewrite !truthy_eqb, negb_involutive.
    destruct (String.eqb p "" || String.eqb p "/").
    { destruct (String.eqb dir ""); reflexivity. }
    destruct (Js.startsWith p "/" || negb (Js.includes p "./"));
      [reflexivity |].
    unfold Js.startsWith.
    destruct (Js.stripPrefix "./" p) as [rest|] eqn:E; [| reflexivity].
    apply stripPrefix_Some in E as ->.
    change 2 with (Z.of_nat (String.length "./")).
    rewrite substringFrom_app. destruct (String.eqb dir ""); reflexivity.
  - simpl. rewrite truthy_eqb. destruct (String.eqb dir ""); reflexivity.
Qed.

Example getAttachmentFolder_examples :
  let host (c : option string) : Host :=
    exampleHost c [] (fun _ => Failed "") exampleClock (fun _ => Failed "") in
  getAttachmentFolder (host None) "Inbox/Note.md" = "Inbox"
  /\ getAttachmentFolder (host None) "Note.md" = "."
  /\ getAttachmentFolder (host (Some "/")) "a/b/Note.md" = "a/b"
  /\ getAttachmentFolder (host (Some "assets")) "a/Note.md" = "assets"
  /\ getAttachmentFolder (host (Some "./img")) "a/Note.md" = "a/img"
  /\ getAttachmentFolder (host (Some "./img")) "Note.md" = "img"
  /\ getAttachmentFolder (host (Some "x/./y")) "a/Note.md" = "x/./y".
Proof. cbv zeta. repeat split; reflexivity. Qed.

(** *** C5: [createYamlFrontmatter] *)

Lemma forallb_range (P : Z -> bool) (lo len n : Z) :
  forallb (fun k => P (lo + Z.of_nat k)) (seq 0 (Z.to_nat len)) = true ->
  lo <= n < lo + len -> P n = true.
Proof.
  intros H Hn. rewrite forallb_forall in H.
  specialize (H (Z.to_nat (n - lo))).
  replace (lo + Z.of_nat (Z.to_nat (n - lo))) with n in H by lia.
  apply H, in_seq. lia.
Qed.

(** Padding the decimal digits of a number below 100 to two places gives
    its tens and its units. *)
Lemma padStart_twoDigits (n : Z) :
  0 <= n <= 99 -> Js.padStart (Js.toString n) 2 "0" = twoDigits n.
Proof.
  intros H. apply String.eqb_eq.
  apply (forallb_range
           (fun n => String.eqb (Js.padStart (Js.toString n) 2 "0")
                       (twoDigits n)) 0 100 n); [| lia].
  vm_compute. reflexivity.
Qed.

Lemma toString_fourDigits (n : Z) :
  1000 <= n <= 9999 -> Js.toString n = fourDigits n.
Proof.
  intros H. apply String.eqb_eq.
  apply (forallb_range
           (fun n => String.eqb (Js.toString n) (fourDigits n)) 1000 9000 n);
    [| lia].
  vm_compute. reflexivity.
Qed.

Lemma twoDigits_isDigit (n : Z) :
  0 <= n <= 99 ->
  exists a b, twoDigits n = String a (String b "")
              /\ isDigit a = true /\ isDigit b = true.
Proof.
  intros H. unfold twoDigits. eexists _, _. split; [reflexivity |].
  assert (Hd : forall d, 0 <= d <= 9 -> isDigit (digitChar d) = true).
  { intros d Hd. unfold isDigit, digitChar.
    rewrite nat_ascii_embedding by lia.
    apply andb_true_iff. split; [apply Nat.leb_le | apply Nat.leb_le]; lia. }
  split; apply Hd.
  - split; [apply Z.div_pos; lia |].
    assert (n / 10 < 10) by (apply Z.div_lt_upper_bound; lia). lia.
  - pose proof (Z.mod_pos_bound n 10). lia.
Qed.

Lemma fourDigits_isDigit (n : Z) :
  1000 <= n <= 9999 ->
  exists a b c d,
    fourDigits n = String a (String b (String c (String d "")))
    /\ isDigit a = true /\ isDigit b = true
    /\ isDigit c = true /\ isDigit d = true.
Proof.
  intros H. unfold fourDigits.
  assert (Hm : 0 <= n mod 100 <= 99) by (pose proof (Z.mod_pos_bound n 100); lia).
  destruct (twoDigits_isDigit _ Hm) as (c & d & -> & Hc & Hd).
  eexists _, _, c, d. split; [reflexivity |].
  assert (Hk : forall k, 0 <= k <= 9 -> isDigit (digitChar k) = true).
  { intros k Hk. unfold isDigit, digitChar.
    rewrite nat_ascii_embedding by lia.
    apply andb_true_iff. split; [apply Nat.leb_le | apply Nat.leb_le]; lia. }
  repeat split; auto; apply Hk.
  - split; [apply Z.div_pos; lia |].
    assert (n / 1000 < 10) by (apply Z.div_lt_upper_bound; lia). lia.
  - pose proof (Z.mod_pos_bound (n / 100) 10). lia.
Qed.

Lemma timestampOf_format (now : Date) :
  ValidClock now -> isTimestampFormat (timestampOf now) = true.
Proof.
  intros (Hy & Hm & Hd & Hh & Hmi). unfold timestampOf.
  destruct (fourDigits_isDigit _ Hy) as (y1 & y2 & y3 & y4 & -> & ? & ? & ? & ?).
  destruct (twoDigits_isDigit (getMonth now + 1)) as (m1 & m2 & -> & ? & ?);
    [lia |].
  destruct (twoDigits_isDigit (getDate now)) as (d1 & d2 & -> & ? & ?);
    [lia |].
  destruct (twoDigits_isDigit (getHours now)) as (h1 & h2 & -> & ? & ?);
    [lia |].
  destruct (twoDigits_isDigit (getMinutes now)) as (i1 & i2 & -> & ? & ?);
    [lia |].
  unfold isTimestampFormat. cbn [String.append list_ascii_of_string forallb].
  repeat match goal with H : isDigit _ = true |- _ => rewrite H; clear H end.
  reflexivity.
Qed.

(** The template literal of the code is the timestamp of the reading. *)
Lemma code_timestamp (now : Date) :
  ValidClock now ->
  Js.toString (getFullYear now) +:+ "-"
  +:+ Js.padStart (Js.toString (getMonth now + 1)) 2 "0" +:+ "-"
  +:+ Js.padStart (Js.toString (getDate now)) 2 "0" +:+ " "
  +:+ Js.padStart (Js.toString (getHours now)) 2 "0" +:+ ":"
  +:+ Js.padStart (Js.toString (getMinutes now)) 2 "0"
  = timestampOf now.
Proof.
  intros (Hy & Hm & Hd & Hh & Hmi). unfold timestampOf.
  rewrite (toString_fourDigits _ Hy), !padStart_twoDigits by lia.
  reflexivity.
Qed.

Lemma tagString_tagList (tags : list string) :
  (if (0 <? length tags)%nat then "[" +:+ Js.join ", " tags +:+ "]" else "[]")
  = tagList tags.
Proof. destruct tags; reflexivity. Qed.

Lemma createYamlFrontmatter_run (h : Host) (tags : list string)
    (sourceUrl : option string) (w : World) :
  ValidClock (clock h (dateReads w)) ->
  createYamlFrontmatter h tags sourceUrl w
  = (Returns (frontmatterAt (clock h (dateReads w)) tags sourceUrl), tick w).
Proof.
  intros Hv. unfold createYamlFrontmatter, bind, newDate, ret. cbv zeta.
  rewrite (code_timestamp _ Hv), tagString_tagList.
  apply (f_equal2 pair); [f_equal | reflexivity].
  unfold frontmatterAt, frontmatterLines, sourcesLine.
  destruct sourceUrl as [u|]; [destruct u as [|c u] |];
    cbn [Js.truthy String.eqb app Js.join String.concat];
    rewrite ?str_app_assoc; reflexivity.
Qed.

(** C5.  With a reading of the clock in range, [createYamlFrontmatter]
    returns these lines, joined by line feeds, in this order: the opening
    dashes, modified, created, tags, the sources line if there is one, the
    closing dashes.  Modified and created carry the same timestamp, of the
    shape YYYY-MM-DD HH:MM in local time; the tags are a bracketed list
    joined by a comma and a space, or two brackets when there are none; the
    sources line is there exactly when a source URL is supplied (a string
    that is not empty).  The call reads the clock once and changes nothing
    else. *)
Theorem createYamlFrontmatter_spec (h : Host) (tags : list string)
    (sourceUrl : option string) (w : World) :
  ValidClock (clock h (dateReads w)) ->
  let ts := timestampOf (clock h (dateReads w)) in
  isTimestampFormat ts = true
  /\ (sourcesLine sourceUrl <> []
      <-> exists u, sourceUrl = Some u /\ u <> "")
  /\ exists w',
       createYamlFrontmatter h tags sourceUrl w
       = (Returns (Js.join (Js.chr Js.nl)
                     (frontmatterLines ts tags sourceUrl)), w')
       /\ vault w' = vault w /\ dateReads w' = S (dateReads w).
Proof.
  intros Hv ts. split; [now apply timestampOf_format |]. split.
  - unfold sourcesLine. destruct sourceUrl as [u|].
    + destruct (String.eqb_spec u ""); split.
      * congruence.
      * intros (u' & [= <-] & Hne). congruence.
      * intros _. now exists u.
      * discriminate.
    + split; [congruence | intros (u & H & _); discriminate].
  - exists (tick w). split; [| split; reflexivity].
    now apply createYamlFrontmatter_run.
Qed.

(** C5 at the tags AI and Research with a source URL, the clock at
    2024-03-09 14:05. *)
Lemma createYamlFrontmatter_spec_witness :
  ValidClock (clock offlineHost 0)
  /\ fst (createYamlFrontmatter offlineHost ["AI"; "Research"]
            (Some "https://site.com/page") (startWorld ∅))
     = Returns
         (Js.join (Js.chr Js.nl)
            ["---"; "modified: 2024-03-09 14:05"; "created: 2024-03-09 14:05";
             "tags: [AI, Research]";
             "sources: " +:+ Js.chr Js.dquote
             +:+ "[Website](https://site.com/page)" +:+ Js.chr Js.dquote;
             "---"]).
Proof.
  assert (Hv : ValidClock (clock offlineHost (dateReads (startWorld ∅)))).
  { unfold ValidClock. simpl. lia. }
  split; [exact Hv |].
  destruct (createYamlFrontmatter_spec offlineHost ["AI"; "Research"]
              (Some "https://site.com/page") (startWorld ∅) Hv)
    as (_ & _ & w' & -> & _).
  reflexivity.
Defined.

(** *** C3: [suggestTagsKeyword] *)

Lemma insert_perm (x : Tag) (l : list Tag) :
  Permutation (x :: l) (JsArray.insert byScore x l).
Proof.
  induction l as [|y l IH]; simpl; [reflexivity |].
  destruct (byScore x y <=? 0); [reflexivity |].
  rewrite <- IH. apply perm_swap.
Qed.

Lemma sort_perm (l : list Tag) : Permutation l (JsArray.sort byScore l).
Proof.
  induction l as [|x l IH]; simpl; [reflexivity |].
  rewrite <- insert_perm. now constructor.
Qed.

Lemma insert_sorted (x : Tag) (l : list Tag) :
  StronglySorted (fun a b => score b <= score a) l ->
  StronglySorted (fun a b => score b <= score a) (JsArray.insert byScore x l).
Proof.
  induction l as [|y l IH]; intros Hs; simpl.
  - repeat constructor.
  - apply StronglySorted_inv in Hs as [Hs Hy].
    destruct (byScore x y <=? 0) eqn:E; unfold byScore in E.
    + apply Z.leb_le in E. constructor; [now constructor |].
      constructor; [lia |].
      eapply List.Forall_impl; [| exact Hy]. simpl. intros z Hz. lia.
    + apply Z.leb_gt in E. constructor; [now apply IH |].
      eapply Permutation_Forall; [apply insert_perm |].
      constructor; [lia | exact Hy].
Qed.

Lemma sort_sorted (l : list Tag) :
  StronglySorted (fun a b => score b <= score a) (JsArray.sort byScore l).
Proof.
  induction l as [|x l IH]; simpl; [constructor | now apply insert_sorted].
Qed.

Lemma insert_stable (s : Z) (x : Tag) (l : list Tag) :
  List.filter (fun t => score t =? s) (JsArray.insert byScore x l)
  = List.filter (fun t => score t =? s) (x :: l).
Proof.
  induction l as [|y l IH]; [reflexivity |].
  simpl JsArray.insert.
  destruct (byScore x y <=? 0) eqn:E; [reflexivity |].
  unfold byScore in E. apply Z.leb_gt in E.
  cbn [List.filter] in *. rewrite IH.
  destruct (score x =? s) eqn:Ex; [| reflexivity].
  apply Z.eqb_eq in Ex.
  assert (Ey : (score y =? s) = false) by (apply Z.eqb_neq; lia).
  now rewrite Ey.
Qed.

Lemma sort_stable (s : Z) (l : list Tag) :
  List.filter (fun t => score t =? s) (JsArray.sort byScore l)
  = List.filter (fun t => score t =? s) l.
Proof.
  induction l as [|x l IH]; [reflexivity |].
  simpl JsArray.sort. rewrite insert_stable. cbn [List.filter].
  now rewrite IH.
Qed.

Lemma sort_StableDescending (l : list Tag) :
  StableDescending l (JsArray.sort byScore l).
Proof.
  split; [apply sort_perm |]. split; [apply sort_sorted |].
  intros s. apply sort_stable.
Qed.

(** A ranking is determined by its input: two stable descending sorts of
    the same list are equal. *)
Lemma StableDescending_unique (input r1 r2 : list Tag) :
  StableDescending input r1 -> StableDescending input r2 -> r1 = r2.
Proof.
  intros (P1 & S1 & F1) (P2 & S2 & F2).
  assert (P : Permutation r1 r2) by (now rewrite <- P1).
  assert (F : forall s, List.filter (fun t => score t =? s) r1
                        = List.filter (fun t => score t =? s) r2)
    by (intros s; now rewrite F1, F2).
  clear P1 P2 F1 F2 input.
  revert r2 S2 P F. induction S1 as [|x r1 S1 IH Hx]; intros r2 S2 P F.
  - now apply Permutation_nil in P.
  - destruct r2 as [|y r2].
    { symmetry in P. now apply Permutation_nil in P. }
    apply StronglySorted_inv in S2 as [S2 Hy].
    assert (Hxy : score x = score y).
    { assert (score x <= score y).
      { assert (Hin : In x (y :: r2))
          by (eapply Permutation_in; [exact P | now left]).
        destruct Hin as [-> | Hin]; [lia |].
        rewrite List.Forall_forall in Hy. now apply Hy. }
      assert (score y <= score x).
      { assert (Hin : In y (x :: r1))
          by (eapply Permutation_in; [symmetry; exact P | now left]).
        destruct Hin as [-> | Hin]; [lia |].
        rewrite List.Forall_forall in Hx. now apply Hx. }
      lia. }
    pose proof (F (score x)) as Fx. cbn [List.filter] in Fx.
    rewrite Z.eqb_refl in Fx. rewrite <- Hxy, Z.eqb_refl in Fx.
    injection Fx as <- _.
    f_equal. apply IH; [exact S2 | now apply Permutation_cons_inv in P |].
    intros s. specialize (F s). cbn [List.filter] in F.
    destruct (score x =? s); [now injection F | exact F].
Qed.

Lemma score_loop (p : string -> bool) (ws : list string) (acc : Z) :
  fold_left (fun score word => if p word then score + 3 else score) ws acc
  = acc + 3 * Z.of_nat (length (List.filter p ws)).
Proof.
  revert acc; induction ws as [|w ws IH]; intros acc; simpl; [lia |].
  rewrite IH. destruct (p w); simpl length; lia.
Qed.

Lemma keywordScore_nonneg (lowerText leaf : string) :
  0 <= keywordScore lowerText leaf.
Proof.
  unfold keywordScore.
  destruct (Js.includes lowerText (Js.toLowerCase leaf)); lia.
Qed.

(** The loop over the folders collects the candidates. *)
Lemma scoreFolders_candidates (text : string) (folders : list TFolder)
    (acc : list Tag) :
  fold_left (scoreFolder (Js.toLowerCase text)) folders acc
  = acc ++ candidates folders text.
Proof.
  revert acc; induction folders as [|f folders IH]; intros acc.
  - simpl. now rewrite app_nil_r.
  - cbn [fold_left]. rewrite IH. unfold candidates.
    cbn [List.filter]. unfold scoreFolder at 1.
    destruct (isRoot (path f)); cbn [negb]; [reflexivity |].
    cbn [map List.filter score]. cbv zeta.
    rewrite score_loop.
    change (0 + 10) with 10.
    fold (wordsOf (Js.toLowerCase (leafName (path f)))).
    set (k := keywordScore (Js.toLowerCase text) (leafName (path f))).
    assert (Hk : (if Js.includes (Js.toLowerCase text)
                       (Js.toLowerCase (leafName (path f)))
                  then 10 else 0)
                 + 3 * Z.of_nat
                         (length
                            (List.filter
                               (fun word =>
                                  (2 <? String.length word)%nat
                                  && Js.includes (Js.toLowerCase text) word)
                               (wordsOf (Js.toLowerCase (leafName (path f))))))
                 = k) by reflexivity.
    rewrite Hk. pose proof (keywordScore_nonneg (Js.toLowerCase text)
                              (leafName (path f))) as Hn. fold k in Hn.
    destruct (0 <? k) eqn:E.
    + assert (E' : (k =? 0) = false) by (apply Z.eqb_neq; lia).
      rewrite E'. cbn [negb]. now rewrite <- app_assoc.
    + assert (E' : (k =? 0) = true) by (apply Z.eqb_eq; lia).
      rewrite E'. reflexivity.
Qed.

(** The result of [suggestTagsKeyword]: the leaf names of the first three
    candidates at most, in a stable descending order of their scores. *)
Lemma suggestTagsKeyword_ranked (h : Host) (text : string) (w : World) :
  exists ranked,
    StableDescending (candidates (getAllFolders h (vault w)) text) ranked
    /\ suggestTagsKeyword h text w
       = (Returns (map folder (firstn 3 ranked)), w).
Proof.
  exists (JsArray.sort byScore (candidates (getAllFolders h (vault w)) text)).
  split; [apply sort_StableDescending |].
  unfold suggestTagsKeyword, bind, getFolders, ret. cbv zeta.
  rewrite scoreFolders_candidates. reflexivity.
Qed.

(** The example of the specification: Research is ranked by its whole name
    and its one word; AI Projects has no word of more than 2 characters in
    the text and is left out. *)
Example suggestTagsKeyword_example :
  let h := exampleHost None
             [{| path := "Research" |}; {| path := "Work/AI Projects" |}]
             (fun _ => Failed "") exampleClock (fun _ => Failed "") in
  fst (suggestTagsKeyword h "New research on AI" (startWorld ∅))
  = Returns ["Research"].
Proof. reflexivity. Qed.

(** *** C9: the fallback of [suggestTagsOpenAI] *)

Lemma candidates_no_folders (folders : list TFolder) (text : string) :
  folderNamesOf folders = [] -> candidates folders text = [].
Proof.
  unfold folderNamesOf, candidates. intros H.
  apply map_eq_nil in H. now rewrite H.
Qed.

Lemma suggestTagsKeyword_no_folders (h : Host) (text : string) (w : World) :
  folderNamesOf (getAllFolders h (vault w)) = [] ->
  suggestTagsKeyword h text w = (Returns [], w).
Proof.
  intros H. unfold suggestTagsKeyword, bind, getFolders, ret. cbv zeta.
  now rewrite scoreFolders_candidates, (candidates_no_folders _ _ H).
Qed.

Lemma suggestTagsKeyword_returns (h : Host) (text : string) (w : World) :
  exists tags, suggestTagsKeyword h text w = (Returns tags, w).
Proof.
  unfold suggestTagsKeyword, bind, getFolders, ret. cbv zeta. eauto.
Qed.

(** C9.  When the API key is empty, or the chat request ends in a transport
    error, or its response is not 2xx, or the content of the response does
    not parse as JSON (or is missing), or the parsed value is not an array,
    [suggestTagsOpenAI] returns what [suggestTagsKeyword] returns on the
    same text, and leaves the world as that call does. *)
Theorem suggestTagsOpenAI_fallback (h : Host)
    (settings : ClipboardToNoteSettings) (text : string) (w : World) :
  AiFallback h settings text w ->
  suggestTagsOpenAI h settings text w = suggestTagsKeyword h text w.
Proof.
  intros Hf. unfold suggestTagsOpenAI.
  destruct (Js.truthy (openAIApiKey settings)) eqn:Ek; [| reflexivity].
  cbn [negb].
  destruct (suggestTagsKeyword_returns h text w) as (kw & Hkw).
  unfold tryCatch, bind at 1, getFolders. cbv zeta.
  destruct (length (folderNamesOf (getAllFolders h (vault w))) =? 0)%nat
    eqn:En.
  { apply Nat.eqb_eq, length_zero_iff_nil in En.
    now rewrite (suggestTagsKeyword_no_folders h text w En). }
  unfold bind, await.
  destruct Hf as [Hk | m Hm | r Hr Hok | r Hr Hc | r c Hr Hc Hp | r c Hr Hc Hp].
  - rewrite Hk in Ek. discriminate.
  - rewrite Hm. reflexivity.
  - rewrite Hr. unfold ret. rewrite Hok. cbn [negb]. now rewrite Hkw.
  - rewrite Hr. unfold ret.
    destruct (ok r); cbn [negb]; [| now rewrite Hkw].
    rewrite Hc. reflexivity.
  - rewrite Hr. unfold ret.
    destruct (ok r); cbn [negb]; [| now rewrite Hkw].
    rewrite Hc. unfold ret. rewrite Hp. reflexivity.
  - rewrite Hr. unfold ret.
    destruct (ok r); cbn [negb]; [| now rewrite Hkw].
    rewrite Hc. unfold ret. rewrite Hp. unfold ret. now rewrite Hkw.
Qed.

(** C9 at a chat endpoint that answers 500. *)
Lemma suggestTagsOpenAI_fallback_witness :
  let h := exampleHost None
             [{| path := "Research" |}; {| path := "Work/AI Projects" |}]
             (fun _ => Failed "") exampleClock
             (fun _ => Done {| fetchStatus := 500; fetchBody := "oops" |}) in
  let settings := {| inboxFolder := "Inbox"; useOpenAI := true;
                     openAIApiKey := "sk-test"; downloadImages := false |} in
  suggestTagsOpenAI h settings "New research on AI" (startWorld ∅)
  = suggestTagsKeyword h "New research on AI" (startWorld ∅).
Proof.
  cbv zeta.
  apply (suggestTagsOpenAI_fallback _ _ _ _).
  apply (NotOk _ _ _ _ {| fetchStatus := 500; fetchBody := "oops" |});
    reflexivity.
Defined.

(** *** C4: collision-free placement of notes and images *)

Lemma str_app_inv_tail (a b c : string) : a +:+ c = b +:+ c -> a = b.
Proof.
  revert b; induction a as [|x a IH]; intros [|y b] H; simpl in H.
  - reflexivity.
  - exfalso. apply (f_equal String.length) in H.
    simpl in H. rewrite str_length_app in H. lia.
  - exfalso. apply (f_equal String.length) in H.
    simpl in H. rewrite str_length_app in H. lia.
  - injection H as -> H. f_equal. now apply IH.
Qed.

(** The decimal digits of a number determine it. *)
Lemma toString_inj (a b : Z) : Js.toString a = Js.toString b -> a = b.
Proof.
  unfold Js.toString. intros H.
  assert (Hn : forall z, Z.to_int z <> Pos Nil /\ Z.to_int z <> Neg Nil).
  { intros [|p|p]; simpl; split; try discriminate;
      intros [= E]; now apply (Unsigned.to_uint_nonnil p). }
  apply DecimalZ.to_int_inj.
  assert (E : NilZero.int_of_string (NilZero.string_of_int (Z.to_int a))
              = NilZero.int_of_string (NilZero.string_of_int (Z.to_int b)))
    by now rewrite H.
  rewrite !NilZero.isi in E by apply Hn. now injection E.
Qed.

(** A host that returns paths as they are keeps the counters apart. *)
Lemma identity_CounterInjective (h : Host) :
  (forall p, normalizePath h p = p) -> CounterInjective h.
Proof.
  intros Hid before after j k. rewrite !Hid. intros H.
  apply str_app_inv_head, str_app_inv_tail, toString_inj in H. lia.
Qed.

(** No more candidates can be occupied than the vault has entries. *)
Lemma occupied_bound (v : gmap string Entry) (next : nat -> string) (c : nat) :
  (forall j k, next j = next k -> j = k) ->
  (forall j, (1 <= j <= c)%nat -> is_Some (v !! next j)) ->
  (c <= size v)%nat.
Proof.
  intros Hinj Hocc.
  assert (Hi : Inj (=) (=) next) by (intros j k; apply Hinj).
  set (l := next <$> seq 1 c).
  assert (Hnd : NoDup l) by (apply NoDup_fmap_2; [exact Hi | apply NoDup_seq]).
  assert (Hsub : (list_to_set l : gset string) ⊆ dom v).
  { intros x Hx. apply elem_of_list_to_set in Hx.
    apply list_elem_of_fmap in Hx as (j & -> & Hj).
    apply elem_of_seq in Hj. apply elem_of_dom, Hocc. lia. }
  apply subseteq_size in Hsub.
  rewrite size_list_to_set, size_dom in Hsub by exact Hnd.
  unfold l in Hsub. now rewrite length_fmap, length_seq in Hsub.
Qed.

(** The loop, once it tests candidates: with every earlier candidate
    occupied and fuel for the entries that are left, it returns the first
    free candidate. *)
Lemma whileOccupied_candidates (next : nat -> string) (w : World) :
  (forall j k, next j = next k -> j = k) ->
  forall fuel c,
    (1 <= c)%nat -> (1 <= fuel)%nat -> (size (vault w) + 2 <= c + fuel)%nat ->
    (forall j, (1 <= j < c)%nat -> is_Some (vault w !! next j)) ->
    exists k,
      (c <= k)%nat
      /\ whileOccupied fuel next (next c) (c + 1) w = (Returns (next k), w)
      /\ vault w !! next k = None
      /\ forall j, (1 <= j < k)%nat -> is_Some (vault w !! next j).
Proof.
  intros Hinj fuel. induction fuel as [|fuel IH]; intros c Hc Hf Hsz Hocc;
    [lia |].
  cbn [whileOccupied]. unfold bind, getAbstractFileByPath.
  destruct (vault w !! next c) as [e|] eqn:Ec.
  - assert (Hocc' : forall j, (1 <= j < c + 1)%nat ->
                              is_Some (vault w !! next j)).
    { intros j Hj. destruct (decide (j = c)) as [-> | Hne].
      - rewrite Ec. eauto.
      - apply Hocc. lia. }
    assert (Hb : (c <= size (vault w))%nat).
    { apply (occupied_bound _ next c Hinj). intros j Hj. apply Hocc'. lia. }
    destruct (IH (c + 1)%nat) as (k & Hk & Hrun & Hfree & Hall);
      [lia | lia | lia | exact Hocc' |].
    exists k. repeat split; try assumption. lia.
  - exists c. repeat split; try assumption. lia.
Qed.

(** The search for a free path ends, at the free slot. *)
Lemma untilFree_finds (next : nat -> string) (initial : string) (w : World) :
  (forall j k, next j = next k -> j = k) ->
  exists p,
    untilFree next initial w = (Returns p, w) /\ FreeSlot w initial next p.
Proof.
  intros Hinj. unfold untilFree, bind at 1, vaultSize.
  replace (size (vault w) + 2)%nat with (S (size (vault w) + 1)) by lia.
  cbn [whileOccupied]. unfold bind, getAbstractFileByPath.
  destruct (vault w !! initial) as [e|] eqn:E0.
  - destruct (whileOccupied_candidates next w Hinj (size (vault w) + 1) 1)
      as (k & Hk & Hrun & Hfree & Hall); [lia | lia | lia | intros j Hj; lia |].
    exists (next k). split; [exact Hrun |].
    split; [exact Hfree |]. right. split; [rewrite E0; eauto |].
    exists k. repeat split; [lia | exact Hall].
  - exists initial. split; [reflexivity |].
    split; [exact E0 |]. left. now split.
Qed.

Lemma noteCandidate_inj (h : Host) (settings : ClipboardToNoteSettings)
    (title : string) :
  CounterInjective h ->
  forall j k, noteCandidate h settings title j = noteCandidate h settings title k
              -> j = k.
Proof.
  intros Hinj j k. unfold noteCandidate. intros H.
  apply (Hinj (inboxFolder settings +:+ "/" +:+ stripEllipsis (sanitize title)
               +:+ "-") ".md").
  now rewrite !str_app_assoc.
Qed.

Lemma imageCandidate_inj (h : Host) (attachmentFolder filename : string) :
  CounterInjective h ->
  forall j k, imageCandidate h attachmentFolder filename j
              = imageCandidate h attachmentFolder filename k -> j = k.
Proof.
  intros Hinj j k. unfold imageCandidate. intros H.
  apply (Hinj (attachmentFolder +:+ "/" +:+ baseOf (sanitize filename)
               +:+ "-") (extensionOf (sanitize filename))).
  now rewrite !str_app_assoc.
Qed.

(** What [matchExtension] finds is the extension of the name. *)
Lemma matchExtension_Some (s before matched : string) :
  matchExtension s = Some (before, matched) ->
  s = before +:+ matched
  /\ exists rest, matched = String "." rest /\ rest <> ""
                  /\ Js.includes rest "." = false.
Proof.
  revert before; induction s as [|c s IH]; intros before; [discriminate |].
  cbn [matchExtension].
  destruct (Ascii.eqb c "." && Js.truthy s && negb (Js.includes s "."))
    eqn:E.
  - intros [= <- <-]. split; [reflexivity |].
    apply andb_true_iff in E as [E Hn]. apply andb_true_iff in E as [Ec Ht].
    apply Ascii.eqb_eq in Ec as ->. exists s. split; [reflexivity |].
    split; [destruct s; [discriminate | congruence] |].
    now apply negb_true_iff.
  - destruct (matchExtension s) as [[b m]|]; [| discriminate].
    intros [= <- <-]. destruct (IH b eq_refl) as [-> Hm].
    split; [reflexivity | exact Hm].
Qed.

Lemma splitsAtExtension (name : string) :
  SplitsAtExtension name (baseOf name) (extensionOf name).
Proof.
  unfold SplitsAtExtension, baseOf, extensionOf.
  destruct (matchExtension name) as [[b m]|] eqn:E.
  - apply matchExtension_Some in E as [-> Hm]. split; [reflexivity | now right].
  - split; [now rewrite str_app_nil_r | now left].
Qed.

Lemma substring_skip_app (a b : string) (m : nat) :
  String.substring (String.length a) m (a +:+ b) = String.substring 0 m b.
Proof. induction a as [|c a IH]; simpl; [reflexivity | exact IH]. Qed.

Lemma substring_all (s : string) :
  String.substring 0 (String.length s) s = s.
Proof. induction s as [|c s IH]; simpl; [reflexivity | now rewrite IH]. Qed.

Lemma endsWith_app (a b : string) : Js.endsWith (a +:+ b) b = true.
Proof.
  unfold Js.endsWith. rewrite str_length_app.
  replace (String.length a + String.length b - String.length b)%nat
    with (String.length a) by lia.
  rewrite substring_skip_app, substring_all, String.eqb_refl.
  rewrite andb_true_r. apply Nat.leb_le. lia.
Qed.

(** Three dots at the end of a title are cut off. *)
Lemma stripEllipsis_app (x : string) : stripEllipsis (x +:+ "...") = x.
Proof.
  unfold stripEllipsis. rewrite endsWith_app, str_length_app.
  replace (Z.of_nat (String.length x + String.length "...") - 3)
    with (Z.of_nat (String.length x)) by (simpl String.length; lia).
  rewrite js_substring_0 by (rewrite str_length_app; lia).
  apply substring_0_app.
Qed.

Lemma placeNote_run (h : Host) (settings : ClipboardToNoteSettings)
    (title fullContent : string) (w : World) :
  CounterInjective h ->
  exists p,
    FreeSlot w
      (normalizePath h
         (inboxFolder settings +:+ "/" +:+ sanitize title +:+ ".md"))
      (noteCandidate h settings title) p
    /\ placeNote h settings title fullContent w
       = match createError h p with
         | None => (Returns p, setVault (insert p (TextFile fullContent)) w)
         | Some message => (Throws message, w)
         end.
Proof.
  intros Hinj.
  destruct (untilFree_finds (noteCandidate h settings title)
              (normalizePath h
                 (inboxFolder settings +:+ "/" +:+ sanitize title +:+ ".md"))
              w (noteCandidate_inj h settings title Hinj))
    as (p & Hrun & Hslot).
  exists p. split; [exact Hslot |].
  unfold placeNote. cbv zeta. unfold bind at 1.
  unfold noteCandidate in Hrun. rewrite Hrun.
  unfold create, bind, vaultWrite, ret.
  destruct (createError h p); reflexivity.
Qed.

Lemma placeImage_run (h : Host) (attachmentFolder filename : string)
    (buffer : list Byte.byte) (w : World) :
  CounterInjective h ->
  exists p,
    FreeSlot w
      (normalizePath h (attachmentFolder +:+ "/" +:+ sanitize filename))
      (imageCandidate h attachmentFolder filename) p
    /\ placeImage h attachmentFolder filename buffer w
       = match createBinaryError h p with
         | None => (Returns p, setVault (insert p (BinaryFile buffer)) w)
         | Some message => (Throws message, w)
         end.
Proof.
  intros Hinj.
  destruct (untilFree_finds (imageCandidate h attachmentFolder filename)
              (normalizePath h
                 (attachmentFolder +:+ "/" +:+ sanitize filename))
              w (imageCandidate_inj h attachmentFolder filename Hinj))
    as (p & Hrun & Hslot).
  exists p. split; [exact Hslot |].
  unfold placeImage. cbv zeta. unfold bind at 1.
  unfold imageCandidate, baseOf, extensionOf in Hrun. rewrite Hrun.
  unfold createBinary, bind, vaultWrite, ret.
  destruct (createBinaryError h p); reflexivity.
Qed.

Example placeNote_draft :
  fst (placeNote offlineHost DEFAULT_SETTINGS "Draft" "text"
         (startWorld (draftVault false)))
  = Returns "Inbox/Draft-1.md"
  /\ fst (placeNote offlineHost DEFAULT_SETTINGS "Draft" "text"
            (startWorld (draftVault true)))
     = Returns "Inbox/Draft-2.md"
  /\ fst (placeNote offlineHost DEFAULT_SETTINGS "Long title..." "text"
            (startWorld (<["Inbox/Long title....md" := TextFile ""]> ∅)))
     = Returns "Inbox/Long title-1.md"
  /\ fst (placeImage offlineHost "Inbox" "abc_photo.png" []
            (startWorld (<["Inbox/abc_photo.png" := BinaryFile []]> ∅)))
     = Returns "Inbox/abc_photo-1.png".
Proof. repeat split; vm_compute; reflexivity. Qed.


(** *** C8: [downloadImage] *)

Lemma isUnsafe_spec (c : ascii) :
  isUnsafe c = true <-> In c unsafeCharacters.
Proof.
  unfold isUnsafe, unsafeCharacters. simpl In.
  rewrite !orb_true_iff, !Ascii.eqb_eq. intuition congruence.
Qed.

(** Sanitizing replaces each unsafe character by a hyphen and leaves every
    other character in its place. *)
Lemma sanitize_get (name : string) (i : nat) :
  String.get i (sanitize name)
  = match String.get i name with
    | Some c => Some (if isUnsafe c then "-"%char else c)
    | None => None
    end.
Proof.
  revert i; induction name as [|c name IH]; intros i; [reflexivity |].
  destruct i as [|i]; simpl; [reflexivity | apply IH].
Qed.

Lemma ensureFolder_run (h : Host) (dir : string) (w : World) :
  (if negb (String.eqb dir ".") && negb (String.eqb dir "/")
   then ensureFolderExists h dir else ret tt) w
  = match folderRefusal h dir w with
    | Some message => (Throws message, w)
    | None => (Returns tt, afterFolderStep h dir w)
    end.
Proof.
  unfold folderRefusal, afterFolderStep, needsFolder.
  destruct (negb (String.eqb dir ".") && negb (String.eqb dir "/"));
    cbn [andb]; [| reflexivity].
  unfold ensureFolderExists, bind, getAbstractFileByPath.
  destruct (vault w !! normalizePath h dir); [reflexivity |].
  unfold tryCatch, createFolder, vaultWrite, throw.
  destruct (createFolderError h (normalizePath h dir)); reflexivity.
Qed.

Lemma downloadImage_run (h : Host) (imageUrl filename notePath : string)
    (w : World) :
  CounterInjective h ->
  exists result w',
    downloadImage h imageUrl filename notePath w = (Returns result, w')
    /\ DownloadOutcome h imageUrl filename notePath w result w'.
Proof.
  intros Hinj. unfold downloadImage, DownloadOutcome, tryCatch. cbv zeta.
  unfold bind at 1, await.
  destruct (requestUrl h imageUrl) as [r | message].
  2: { exists imageUrl, w. split; [reflexivity | now split]. }
  unfold ret at 1.
  destruct (status r =? 200) eqn:Es; cbn [negb].
  2: { exists imageUrl, w. split; [reflexivity | now split]. }
  unfold bind at 1. rewrite ensureFolder_run.
  destruct (folderRefusal h (getAttachmentFolder h notePath) w) as [m|].
  { exists imageUrl, w. split; [reflexivity | now split]. }
  destruct (placeImage_run h (getAttachmentFolder h notePath) filename
              (arrayBuffer r)
              (afterFolderStep h (getAttachmentFolder h notePath) w) Hinj)
    as (p & Hslot & ->).
  destruct (createBinaryError h p) as [m|] eqn:Eb.
  - exists imageUrl, (afterFolderStep h (getAttachmentFolder h notePath) w).
    split; [reflexivity |]. exists p. split; [exact Hslot |].
    rewrite Eb. now split.
  - eexists p, _. split; [reflexivity |]. exists p. split; [exact Hslot |].
    rewrite Eb. now split.
Qed.

(** C8.  With a host whose [normalizePath] keeps counters apart,
    [downloadImage] always returns a string: it does not throw and the
    search for a free path ends.  When the fetch fails, or the status is
    not 200, or the attachment folder cannot be created, or the write is
    refused, the result is the remote URL as it was given; when the
    status is 200 and the write succeeds, the result is the final local
    path, which is the free slot for the attachment folder and the file
    name with each unsafe character replaced by a hyphen, and the bytes
    are written there. *)
Theorem downloadImage_spec (h : Host) (imageUrl filename notePath : string)
    (w : World) :
  CounterInjective h ->
  (exists result w',
     downloadImage h imageUrl filename notePath w = (Returns result, w')
     /\ DownloadOutcome h imageUrl filename notePath w result w')
  /\ (forall i,
        String.get i (sanitize filename)
        = match String.get i filename with
          | Some c => Some (if isUnsafe c then "-"%char else c)
          | None => None
          end)
  /\ (forall c, isUnsafe c = true <-> In c unsafeCharacters).
Proof.
  intros Hinj. split; [now apply downloadImage_run |].
  split; [apply sanitize_get | apply isUnsafe_spec].
Qed.

Example downloadImage_examples :
  let w := startWorld (<["Inbox/Field notes.md" := TextFile ""]> ∅) in
  fst (downloadImage webHost "https://site.com/page/images/photo.png"
         "k3x_photo.png" "Inbox/Field notes.md" w)
  = Returns "Inbox/k3x_photo.png"
  /\ fst (downloadImage webHost "https://site.com/page/images/photo.png"
            "k3x_ph:o*to.png" "Inbox/Field notes.md" w)
     = Returns "Inbox/k3x_ph-o-to.png"
  /\ downloadImage webHost "https://site.com/page/images/gone.png"
       "k3x_gone.png" "Inbox/Field notes.md" w
     = (Returns "https://site.com/page/images/gone.png", w)
  /\ downloadImage offlineHost "https://site.com/page/images/photo.png"
       "k3x_photo.png" "Inbox/Field notes.md" w
     = (Returns "https://site.com/page/images/photo.png", w).
Proof. cbv zeta. repeat split; vm_compute; reflexivity. Qed.

(** C8 at the image of the example page. *)
Lemma downloadImage_spec_witness :
  CounterInjective webHost
  /\ exists result w',
       downloadImage webHost "https://site.com/page/images/photo.png"
         "k3x_photo.png" "Inbox/Field notes.md"
         (startWorld (<["Inbox/Field notes.md" := TextFile ""]> ∅))
       = (Returns result, w')
       /\ DownloadOutcome webHost "https://site.com/page/images/photo.png"
            "k3x_photo.png" "Inbox/Field notes.md"
            (startWorld (<["Inbox/Field notes.md" := TextFile ""]> ∅))
            result w'.
Proof.
  assert (Hinj : CounterInjective webHost)
    by (apply identity_CounterInjective; reflexivity).
  split; [exact Hinj |].
  exact (proj1 (downloadImage_spec webHost
                  "https://site.com/page/images/photo.png" "k3x_photo.png"
                  "Inbox/Field notes.md"
                  (startWorld (<["Inbox/Field notes.md" := TextFile ""]> ∅))
                  Hinj)).
Defined.

(** *** C10: the second write reads the clock again *)

Lemma digitChar_inj (a b : Z) :
  0 <= a <= 9 -> 0 <= b <= 9 -> digitChar a = digitChar b -> a = b.
Proof.
  intros Ha Hb H. unfold digitChar in H.
  apply (f_equal nat_of_ascii) in H.
  rewrite !nat_ascii_embedding in H by lia. lia.
Qed.

Lemma twoDigits_inj (a b : Z) :
  0 <= a <= 99 -> 0 <= b <= 99 -> twoDigits a = twoDigits b -> a = b.
Proof.
  intros Ha Hb H. unfold twoDigits in H. injection H as H1 H2.
  apply digitChar_inj in H1, H2; dlia.
Qed.

Lemma fourDigits_inj (a b : Z) :
  1000 <= a <= 9999 -> 1000 <= b <= 9999 -> fourDigits a = fourDigits b ->
  a = b.
Proof.
  intros Ha Hb H. unfold fourDigits, twoDigits in H.
  injection H as H1 H2 H3 H4.
  apply digitChar_inj in H1, H2, H3, H4; dlia.
Qed.

(** Two readings in range with the same timestamp are the same reading:
    the timestamp shows every field of the clock. *)
Lemma timestampOf_inj (a b : Date) :
  ValidClock a -> ValidClock b -> timestampOf a = timestampOf b -> a = b.
Proof.
  intros (Hy & Hm & Hd & Hh & Hi) (Hy' & Hm' & Hd' & Hh' & Hi') H.
  unfold timestampOf, fourDigits, twoDigits in H.
  cbn [String.append] in H.
  injection H as Y1 Y2 Y3 Y4 M1 M2 D1 D2 H1 H2 I1 I2.
  apply digitChar_inj in Y1, Y2, Y3, Y4, M1, M2, D1, D2, H1, H2, I1, I2;
    try dlia.
  destruct a, b; simpl in *; f_equal; dlia.
Qed.

Lemma timestampOf_length (now : Date) : String.length (timestampOf now) = 16%nat.
Proof. reflexivity. Qed.

(** Front matter blocks for the same tags and source differ as soon as
    their timestamps differ. *)
Lemma frontmatterAt_inj (a b : Date) (tags : list string)
    (sourceUrl : option string) :
  ValidClock a -> ValidClock b ->
  frontmatterAt a tags sourceUrl = frontmatterAt b tags sourceUrl -> a = b.
Proof.
  intros Ha Hb H. apply timestampOf_inj; [exact Ha | exact Hb |].
  unfold frontmatterAt, frontmatterLines in H. cbn [app] in H.
  rewrite !(join_cons2 _ "---"), !(join_cons2 _ ("modified: " +:+ _)) in H.
  rewrite !str_app_assoc in H.
  do 3 apply str_app_inv_head in H.
  revert H. generalize (timestampOf_length a) (timestampOf_length b).
  generalize (timestampOf a) (timestampOf b). intros u v Hu Hv.
  generalize (Js.chr Js.nl
              +:+ Js.join (Js.chr Js.nl)
                    (("created: " +:+ u) :: ("tags: " +:+ tagList tags)
                     :: sourcesLine sourceUrl ++ ["---"])).
  generalize (Js.chr Js.nl
              +:+ Js.join (Js.chr Js.nl)
                    (("created: " +:+ v) :: ("tags: " +:+ tagList tags)
                     :: sourcesLine sourceUrl ++ ["---"])).
  assert (Hl : String.length u = String.length v) by congruence.
  clear Hu Hv. revert v Hl.
  induction u as [|c u IHu]; intros [|d v] Hl x y E; simpl in *;
    try discriminate; [reflexivity |].
  injection E as -> E. injection Hl as Hl. f_equal. eauto.
Qed.

Lemma bind_run {A B : Type} (m : M A) (k : A -> M B) (w w' : World) (a : A) :
  m w = (Returns a, w') -> bind m k w = k a w'.
Proof. intros H. unfold bind. now rewrite H. Qed.

Lemma tryCatch_run {A : Type} (m : M A) (k : string -> M A) (w w' : World)
    (a : A) :
  m w = (Returns a, w') -> tryCatch m k w = (Returns a, w').
Proof. intros H. unfold tryCatch. now rewrite H. Qed.

Lemma suggestTagsOpenAI_returns (h : Host) (settings : ClipboardToNoteSettings)
    (text : string) (w : World) :
  exists tags, suggestTagsOpenAI h settings text w = (Returns tags, w).
Proof.
  destruct (suggestTagsKeyword_returns h text w) as (kw & Hkw).
  unfold suggestTagsOpenAI.
  destruct (Js.truthy (openAIApiKey settings)); cbn [negb]; [| eauto].
  unfold tryCatch, bind at 1, getFolders. cbv zeta.
  destruct (length (folderNamesOf (getAllFolders h (vault w))) =? 0)%nat;
    [unfold ret; eauto |].
  unfold bind, await.
  destruct (fetchChat h _) as [r | m]; [| unfold throw; eauto].
  unfold ret. destruct (ok r); cbn [negb]; [| rewrite Hkw; eauto].
  destruct (completionContent h (fetchBody r)) as [c|];
    [| unfold throw; eauto].
  unfold ret. destruct (JSON_parse h (Js.trim c)) as [[items|]|];
    unfold ret, throw; [eauto | rewrite Hkw; eauto | eauto].
Qed.

Lemma suggestTags_returns (h : Host) (settings : ClipboardToNoteSettings)
    (text : string) (w : World) :
  exists tags,
    (if useOpenAI settings then suggestTagsOpenAI h settings text
     else suggestTagsKeyword h text) w = (Returns tags, w).
Proof.
  destruct (useOpenAI settings);
    [apply suggestTagsOpenAI_returns | apply suggestTagsKeyword_returns].
Qed.

Lemma fetchURLContent_ok (h : Host) (url markdown : string) (w : World) :
  PageFetched h url markdown ->
  exists title html,
    fetchURLContent h url w = (Returns (title, markdown, html), w).
Proof.
  intros (r & Hr & Hs & Ht & Hm).
  unfold fetchURLContent. eexists _, _. apply tryCatch_run.
  unfold bind at 1, await. rewrite Hr. unfold ret at 1. rewrite Hs.
  cbn [Z.eqb Pos.eqb negb]. cbv zeta.
  assert (Hh : negb (Js.truthy (text r)) || String.eqb (Js.trim (text r)) ""
               = false).
  { apply orb_false_iff. split.
    - destruct (text r); [now elim Ht | reflexivity].
    - now apply String.eqb_neq. }
  rewrite Hh. unfold bind, await. rewrite Hm. reflexivity.
Qed.

Lemma isURL_truthy (s : string) : isURL s = true -> Js.truthy (Js.trim s) = true.
Proof.
  unfold isURL. destruct (Js.trim s); [discriminate | reflexivity].
Qed.

(** The first part of a run on a URL whose page is fetched: the title of
    the page, the content with absolute image URLs, some tags, and the
    URL as the source; the vault and the clock are not touched. *)
Lemma prepare_url (h : Host) (settings : ClipboardToNoteSettings)
    (clipboardText markdown : string) (w : World) :
  isURL clipboardText = true ->
  PageFetched h (Js.trim clipboardText) markdown ->
  exists title tags w',
    prepare h settings clipboardText w
    = (Returns
         (Some (title,
                convertRelativeImageUrls h markdown (Js.trim clipboardText),
                tags, Some (Js.trim clipboardText))), w')
    /\ vault w' = vault w /\ dateReads w' = dateReads w.
Proof.
  intros Hu Hp. unfold prepare. rewrite Hu. cbv zeta.
  unfold bind at 1, notice.
  set (w1 := {| vault := vault w; dateReads := dateReads w;
                randomReads := randomReads w;
                notices := notices w ++ ["Fetching content from URL..."];
                opened := opened w |}).
  destruct (fetchURLContent_ok h _ markdown w1 Hp) as (title & html & Hf).
  destruct (suggestTags_returns h settings markdown w1) as (tags & Ht).
  exists title, tags. eexists. split.
  - apply tryCatch_run. rewrite (bind_run _ _ _ _ _ Hf).
    unfold bind at 1, ret at 1. rewrite (bind_run _ _ _ _ _ Ht).
    unfold bind, ret. reflexivity.
  - split; reflexivity.
Qed.

Lemma ensureFolderExists_ok (h : Host) (dir : string) (w : World) :
  (forall p, createFolderError h p = None) ->
  exists w',
    ensureFolderExists h dir w = (Returns tt, w')
    /\ dateReads w' = dateReads w.
Proof.
  intros Hc. unfold ensureFolderExists, bind, getAbstractFileByPath.
  destruct (vault w !! normalizePath h dir); [unfold ret; eauto |].
  unfold tryCatch, createFolder, vaultWrite. rewrite Hc. eauto.
Qed.

(** The first write: the note is created with the front matter of the
    reading of the clock at that time. *)
Lemma writeNote_ok (h : Host) (settings : ClipboardToNoteSettings)
    (title content : string) (tags : list string)
    (sourceUrl : option string) (w : World) :
  CounterInjective h -> NoRefusal h ->
  ValidClock (clock h (dateReads w)) ->
  exists file w',
    writeNote h settings title content tags sourceUrl w = (Returns file, w')
    /\ vault w' !! file
       = Some (TextFile
                 (frontmatterAt (clock h (dateReads w)) tags sourceUrl
                  +:+ Js.chr Js.nl +:+ Js.chr Js.nl +:+ content))
    /\ dateReads w' = S (dateReads w).
Proof.
  intros Hinj (Hcf & Hc & _) Hv. unfold writeNote.
  rewrite (bind_run _ _ _ _ _ (createYamlFrontmatter_run h tags sourceUrl w Hv)).
  cbv zeta.
  destruct (ensureFolderExists_ok h (inboxFolder settings) (tick w) Hcf)
    as (w1 & He & Hd1).
  rewrite (bind_run _ _ _ _ _ He).
  destruct (placeNote_run h settings title
              (frontmatterAt (clock h (dateReads w)) tags sourceUrl
               +:+ Js.chr Js.nl +:+ Js.chr Js.nl +:+ content) w1 Hinj)
    as (p & _ & Hp).
  rewrite Hc in Hp. exists p. eexists. split; [exact Hp |].
  split; [apply lookup_insert_eq | exact Hd1].
Qed.

Lemma afterFolderStep_dateReads (h : Host) (dir : string) (w : World) :
  dateReads (afterFolderStep h dir w) = dateReads w.
Proof. unfold afterFolderStep. destruct (needsFolder h dir w); reflexivity. Qed.

Lemma DownloadOutcome_dateReads (h : Host) (imageUrl filename notePath : string)
    (w : World) (result : string) (w' : World) :
  DownloadOutcome h imageUrl filename notePath w result w' ->
  dateReads w' = dateReads w.
Proof.
  unfold DownloadOutcome. cbv zeta.
  destruct (requestUrl h imageUrl) as [r|]; [| now intros [_ ->]].
  destruct (status r =? 200); [| now intros [_ ->]].
  destruct (folderRefusal h _ w); [now intros [_ ->] |].
  intros (p & _ & H).
  destruct (createBinaryError h p); destruct H as [_ ->];
    [| simpl]; apply afterFolderStep_dateReads.
Qed.

Lemma localizeStep_returns (h : Host) (notePath prefix : string)
    (replacements : list (string * string)) (m : string * string) (w : World) :
  CounterInjective h ->
  exists replacements' w',
    localizeStep h notePath prefix replacements m w
    = (Returns replacements', w')
    /\ dateReads w' = dateReads w.
Proof.
  intros Hinj. unfold localizeStep. destruct m as [alt imageUrl].
  destruct (negb (Js.startsWith imageUrl "http://")
            && negb (Js.startsWith imageUrl "https://"));
    [unfold ret; eauto |].
  unfold tryCatch, bind at 1.
  destruct (URL_pathname h imageUrl) as [pathname|];
    [| unfold throw, ret; eauto].
  unfold ret at 1. cbv zeta.
  lazymatch goal with
  | |- context [downloadImage h imageUrl ?f notePath] =>
      destruct (downloadImage_run h imageUrl f notePath w Hinj)
        as (result & w' & Hrun & Hout)
  end.
  rewrite (bind_run _ _ _ _ _ Hrun). unfold ret.
  eexists _, w'. split; [reflexivity |].
  eapply DownloadOutcome_dateReads; exact Hout.
Qed.

Lemma forEachMatch_returns (h : Host) (notePath prefix : string)
    (matches : list (string * string)) :
  CounterInjective h ->
  forall replacements w,
    exists replacements' w',
      forEachMatch (localizeStep h notePath prefix) matches replacements w
      = (Returns replacements', w')
      /\ dateReads w' = dateReads w.
Proof.
  intros Hinj. induction matches as [|m matches IH]; intros replacements w.
  - unfold forEachMatch, ret. eauto.
  - cbn [forEachMatch].
    destruct (localizeStep_returns h notePath prefix replacements m w Hinj)
      as (r1 & w1 & H1 & Hd1).
    rewrite (bind_run _ _ _ _ _ H1).
    destruct (IH r1 w1) as (r2 & w2 & H2 & Hd2).
    exists r2, w2. split; [exact H2 | congruence].
Qed.

(** Making the images local always ends, and does not read the clock. *)
Lemma downloadImagesInContent_returns (h : Host)
    (markdownContent baseUrl notePath prefix : string) (w : World) :
  CounterInjective h ->
  exists body w',
    downloadImagesInContent h markdownContent baseUrl notePath prefix w
    = (Returns body, w')
    /\ dateReads w' = dateReads w.
Proof.
  intros Hinj. unfold downloadImagesInContent.
  destruct (forEachMatch_returns h notePath prefix
              (imageMatches 0 markdownContent) Hinj [] w)
    as (r & w' & Hr & Hd).
  rewrite (bind_run _ _ _ _ _ Hr). unfold ret. eauto.
Qed.

Lemma generateImagePrefix_run (h : Host) (w : World) :
  exists prefix w',
    generateImagePrefix h w = (Returns prefix, w')
    /\ dateReads w' = dateReads w.
Proof.
  unfold generateImagePrefix, bind, random, ret. cbv zeta.
  eexists _, _. split; reflexivity.
Qed.

(** The second write: the note is overwritten with the front matter of a
    new reading of the clock, taken after the images are downloaded. *)
Lemma rewriteWithImages_ok (h : Host) (settings : ClipboardToNoteSettings)
    (content : string) (tags : list string) (url file : string) (w : World) :
  CounterInjective h -> NoRefusal h ->
  Js.truthy url = true -> downloadImages settings = true ->
  ValidClock (clock h (dateReads w)) ->
  exists body w',
    rewriteWithImages h settings content tags (Some url) file w
    = (Returns tt, w')
    /\ vault w' !! file
       = Some (TextFile
                 (frontmatterAt (clock h (dateReads w)) tags (Some url)
                  +:+ Js.chr Js.nl +:+ Js.chr Js.nl +:+ body))
    /\ dateReads w' = S (dateReads w).
Proof.
  intros Hinj (_ & _ & Hm) Hu Hd Hv. unfold rewriteWithImages.
  rewrite Hu, Hd. cbn [andb].
  unfold bind at 1, notice.
  set (w0 := {| vault := vault w; dateReads := dateReads w;
                randomReads := randomReads w;
                notices := notices w ++ ["Downloading images..."];
                opened := opened w |}).
  destruct (generateImagePrefix_run h w0) as (pre & w1 & Hg & Hd1).
  rewrite (bind_run _ _ _ _ _ Hg).
  destruct (downloadImagesInContent_returns h content url file pre w1 Hinj)
    as (body & w2 & Hrun & Hd2).
  rewrite (bind_run _ _ _ _ _ Hrun).
  assert (Hd3 : dateReads w2 = dateReads w) by (rewrite Hd2, Hd1; reflexivity).
  assert (Hv2 : ValidClock (clock h (dateReads w2))) by now rewrite Hd3.
  rewrite (bind_run _ _ _ _ _
             (createYamlFrontmatter_run h tags (Some url) w2 Hv2)).
  cbv zeta. unfold modify, vaultWrite. rewrite Hm.
  exists body. eexists. split; [reflexivity |].
  rewrite Hd3. split; [apply lookup_insert_eq |].
  simpl. now rewrite Hd3.
Qed.

(** C10.  In a run on a URL whose page is fetched, with image downloads
    enabled, a host that refuses no write and keeps counters apart, and
    the two readings of the clock in range: the note is first written
    with the front matter of the first reading; the second write builds
    the front matter again from a second reading of the clock, taken at
    the time of the rewrite, and this is what the note holds when the run
    ends.  So the created and modified values are those of the rewrite,
    and they differ from those of the first write whenever the two
    readings differ, which they do when the rewrite falls in a later
    minute. *)
Theorem rewrite_regenerates_timestamps (h : Host)
    (settings : ClipboardToNoteSettings) (clipboardText markdown : string)
    (w : World) :
  CounterInjective h -> NoRefusal h ->
  isURL clipboardText = true ->
  PageFetched h (Js.trim clipboardText) markdown ->
  downloadImages settings = true ->
  ValidClock (clock h (dateReads w)) ->
  ValidClock (clock h (S (dateReads w))) ->
  let url := Js.trim clipboardText in
  let content := convertRelativeImageUrls h markdown url in
  let first := clock h (dateReads w) in
  let second := clock h (S (dateReads w)) in
  exists title tags file body wp w1 w2 w',
    prepare h settings clipboardText w
    = (Returns (Some (title, content, tags, Some url)), wp)
    /\ writeNote h settings title content tags (Some url) wp
       = (Returns file, w1)
    /\ vault w1 !! file
       = Some (TextFile (frontmatterAt first tags (Some url)
                         +:+ Js.chr Js.nl +:+ Js.chr Js.nl +:+ content))
    /\ rewriteWithImages h settings content tags (Some url) file w1
       = (Returns tt, w2)
    /\ vault w2 !! file
       = Some (TextFile (frontmatterAt second tags (Some url)
                         +:+ Js.chr Js.nl +:+ Js.chr Js.nl +:+ body))
    /\ createNoteFromClipboard h settings (Done clipboardText) w
       = (Returns tt, w')
    /\ vault w' = vault w2
    /\ dateReads w' = S (S (dateReads w))
    /\ (second <> first ->
        frontmatterAt second tags (Some url)
        <> frontmatterAt first tags (Some url)).
Proof.
  intros Hinj Hno Hu Hp Hdl Hv1 Hv2 url content first second.
  destruct (prepare_url h settings clipboardText markdown w Hu Hp)
    as (title & tags & wp & Hprep & Hvp & Hdp).
  assert (Hvp1 : ValidClock (clock h (dateReads wp))) by now rewrite Hdp.
  destruct (writeNote_ok h settings title content tags (Some url) wp
              Hinj Hno Hvp1) as (file & w1 & Hwrite & Hfile1 & Hd1).
  assert (Hv11 : ValidClock (clock h (dateReads w1)))
    by now rewrite Hd1, Hdp.
  destruct (rewriteWithImages_ok h settings content tags url file w1
              Hinj Hno (isURL_truthy _ Hu) Hdl Hv11)
    as (body & w2 & Hrew & Hfile2 & Hd2).
  assert (Hfin : exists w',
            createNoteFromClipboard h settings (Done clipboardText) w
            = (Returns tt, w')
            /\ vault w' = vault w2 /\ dateReads w' = dateReads w2).
  { unfold createNoteFromClipboard, tryCatch.
    unfold bind at 1, await, ret at 1.
    assert (He : negb (Js.truthy clipboardText)
                 || String.eqb (Js.trim clipboardText) "" = false).
    { pose proof (isURL_truthy _ Hu) as Ht. apply orb_false_iff. split.
      - destruct clipboardText; [discriminate | reflexivity].
      - destruct (Js.trim clipboardText); [discriminate | reflexivity]. }
    rewrite He. rewrite (bind_run _ _ _ _ _ Hprep).
    fold url content. rewrite (bind_run _ _ _ _ _ Hwrite).
    rewrite (bind_run _ _ _ _ _ Hrew).
    unfold bind, openFile.
    destruct (openFileError h file); unfold notice; eexists;
      (split; [reflexivity | split; reflexivity]). }
  destruct Hfin as (w' & Hrun & Hv' & Hd').
  exists title, tags, file, body, wp, w1, w2, w'.
  split; [exact Hprep |]. split; [exact Hwrite |].
  split; [now rewrite Hfile1, Hdp |]. split; [exact Hrew |].
  split; [now rewrite Hfile2, Hd1, Hdp |].
  split; [exact Hrun |]. split; [exact Hv' |]. split.
  - now rewrite Hd', Hd2, Hd1, Hdp.
  - intros Hne Heq. apply Hne.
    now apply (frontmatterAt_inj second first tags (Some url)).
Qed.

(** C10 at the example page, with the clock at 14:05 for the first write
    and at 14:06 for the rewrite. *)
Lemma rewrite_regenerates_timestamps_witness :
  (CounterInjective webHost /\ NoRefusal webHost
   /\ isURL "https://site.com/page" = true
   /\ PageFetched webHost (Js.trim "https://site.com/page") examplePage
   /\ downloadImages downloadingSettings = true
   /\ ValidClock (clock webHost 0) /\ ValidClock (clock webHost 1))
  /\ exists file body w',
       createNoteFromClipboard webHost downloadingSettings
         (Done "https://site.com/page") (startWorld ∅)
       = (Returns tt, w')
       /\ vault w' !! file
          = Some (TextFile
                    (frontmatterAt (clock webHost 1) [] 
                       (Some "https://site.com/page")
                     +:+ Js.chr Js.nl +:+ Js.chr Js.nl +:+ body))
       /\ frontmatterAt (clock webHost 1) [] (Some "https://site.com/page")
          <> frontmatterAt (clock webHost 0) []
               (Some "https://site.com/page").
Proof.
  assert (Hinj : CounterInjective webHost)
    by (apply identity_CounterInjective; reflexivity).
  assert (Hno : NoRefusal webHost) by (repeat split).
  assert (Hu : isURL "https://site.com/page" = true) by reflexivity.
  assert (Hp : PageFetched webHost (Js.trim "https://site.com/page")
                 examplePage).
  { eexists. split; [reflexivity |]. split; [reflexivity |].
    split; [vm_compute; discriminate | reflexivity]. }
  assert (Hd : downloadImages downloadingSettings = true) by reflexivity.
  assert (Hv1 : ValidClock (clock webHost (dateReads (startWorld ∅))))
    by (unfold ValidClock; simpl; lia).
  assert (Hv2 : ValidClock (clock webHost (S (dateReads (startWorld ∅)))))
    by (unfold ValidClock; simpl; lia).
  split;
    [exact (conj Hinj (conj Hno (conj Hu (conj Hp (conj Hd (conj Hv1 Hv2))))))
    |].
  destruct (rewrite_regenerates_timestamps webHost downloadingSettings
              "https://site.com/page" examplePage (startWorld ∅)
              Hinj Hno Hu Hp Hd Hv1 Hv2)
    as (title & tags & file & body & wp & w1 & w2 & w'
        & Hprep & _ & _ & _ & Hfile & Hrun & Hvault & _ & Hdiff).
  assert (Htags : tags = []).
  { vm_compute in Hprep. now injection Hprep as _ <- _. }
  subst tags. exists file, body, w'. split; [exact Hrun |].
  split; [now rewrite Hvault |].
  apply Hdiff. vm_compute. discriminate.
Defined.

Example createNoteFromClipboard_two_phase :
  let w' := snd (createNoteFromClipboard webHost downloadingSettings
                   (Done "https://site.com/page") (startWorld ∅)) in
  vault w' !! "Inbox/Web Clipping.md"
  = Some (TextFile
            (Js.join (Js.chr Js.nl)
               ["---"; "modified: 2024-03-09 14:06";
                "created: 2024-03-09 14:06"; "tags: []";
                "sources: " +:+ Js.chr Js.dquote
                +:+ "[Website](https://site.com/page)" +:+ Js.chr Js.dquote;
                "---"; ""; "Field notes"; "";
                "![photo](Inbox/abc_photo.png)"]))
  /\ notices w'
     = ["Fetching content from URL..."; "URL content fetched successfully";
        "Downloading images..."; "Note created: Web Clipping in Inbox"].
Proof. cbv zeta. split; vm_compute; reflexivity. Qed.

(** *** C1: the scan of the image references *)

Lemma span_spec (p : ascii -> bool) (s a b : string) :
  Js.span p s = (a, b) ->
  s = a +:+ b /\ allChars p a = true
  /\ match b with EmptyString => True | String c _ => p c = false end.
Proof.
  revert a b; induction s as [|c s IH]; intros a b; simpl.
  - intros [= <- <-]. repeat split.
  - destruct (p c) eqn:E.
    + destruct (Js.span p s) as [a' b'] eqn:Es. intros [= <- <-].
      destruct (IH a' b' eq_refl) as (-> & Ha & Hb).
      repeat split; [simpl; now rewrite E, Ha | exact Hb].
    + intros [= <- <-]. repeat split. exact E.
Qed.

Lemma span_app (p : ascii -> bool) (a b : string) :
  allChars p a = true ->
  match b with EmptyString => True | String c _ => p c = false end ->
  Js.span p (a +:+ b) = (a, b).
Proof.
  intros Ha Hb. induction a as [|c a IH]; simpl in *.
  - destruct b as [|d b]; simpl; [reflexivity | now rewrite Hb].
  - apply andb_true_iff in Ha as [Hc Ha]. now rewrite Hc, (IH Ha).
Qed.

Lemma fullMatch_app (alt url rest : string) :
  fullMatch alt url +:+ rest
  = "![" +:+ alt +:+ "](" +:+ url +:+ ")" +:+ rest.
Proof. unfold fullMatch. now rewrite !str_app_assoc. Qed.

Lemma fullMatch_length (alt url : string) :
  String.length (fullMatch alt url)
  = S (String.length ("[" +:+ alt +:+ "](" +:+ url +:+ ")")).
Proof. reflexivity. Qed.

(** What a match of the image pattern says about the text. *)
Lemma matchImage_Some (s alt url rest : string) :
  matchImage s = Some (alt, url, rest) ->
  s = fullMatch alt url +:+ rest
  /\ allChars (notChar "]") alt = true
  /\ allChars (notChar ")") url = true
  /\ url <> "".
Proof.
  unfold matchImage.
  destruct (Js.stripPrefix "![" s) as [r|] eqn:E0; [| discriminate].
  apply stripPrefix_Some in E0 as ->.
  destruct (Js.span (fun c => negb (Ascii.eqb c "]")) r) as [a r1] eqn:Ea.
  apply span_spec in Ea as (-> & Ha & _).
  destruct (Js.stripPrefix "](" r1) as [r2|] eqn:E1; [| discriminate].
  apply stripPrefix_Some in E1 as ->.
  destruct (Js.span (fun c => negb (Ascii.eqb c ")")) r2) as [u r3] eqn:Eu.
  apply span_spec in Eu as (-> & Hu & _).
  destruct (Js.truthy u) eqn:Et; [| discriminate].
  destruct (Js.stripPrefix ")" r3) as [r4|] eqn:E2; [| discriminate].
  apply stripPrefix_Some in E2 as ->.
  intros [= <- <- <-]. rewrite fullMatch_app.
  repeat split; try assumption. intros ->. discriminate.
Qed.

(** Text that starts with an image reference is matched as that reference. *)
Lemma matchImage_complete (alt url rest : string) :
  allChars (notChar "]") alt = true ->
  allChars (notChar ")") url = true ->
  url <> "" ->
  matchImage (fullMatch alt url +:+ rest) = Some (alt, url, rest).
Proof.
  intros Ha Hu Hne. rewrite fullMatch_app. unfold matchImage.
  rewrite stripPrefix_app.
  rewrite (span_app (fun c => negb (Ascii.eqb c "]")) alt
             ("](" +:+ url +:+ ")" +:+ rest) Ha) by reflexivity.
  rewrite stripPrefix_app.
  rewrite (span_app (fun c => negb (Ascii.eqb c ")")) url
             (")" +:+ rest) Hu) by reflexivity.
  destruct url; [congruence |]. cbn [Js.truthy].
  now rewrite stripPrefix_app.
Qed.

Lemma pieces_skip (x rest : string) :
  pieces (String.length x) (x +:+ rest) = pieces 0 rest.
Proof. induction x as [|c x IH]; simpl; [destruct rest |]; auto. Qed.

Lemma imageMatches_skip (x rest : string) :
  imageMatches (String.length x) (x +:+ rest) = imageMatches 0 rest.
Proof. induction x as [|c x IH]; simpl; [destruct rest |]; auto. Qed.

Lemma imageMatches_pieces (skip : nat) (s : string) :
  imageMatches skip s = imagesOf (pieces skip s).
Proof.
  revert skip; induction s as [|c s IH]; intros skip; [reflexivity |].
  cbn [imageMatches pieces]. destruct skip as [|k]; [| apply IH].
  destruct (matchImage (String c s)) as [[[alt url] rest]|].
  - cbn [imagesOf flat_map app]. f_equal. apply IH.
  - cbn [imagesOf flat_map app]. apply IH.
Qed.

Lemma pieces_scan (n : nat) (s : string) :
  (String.length s <= n)%nat ->
  textOf pieceText (pieces 0 s) = s /\ WellScanned (pieces 0 s).
Proof.
  revert s; induction n as [|n IH]; intros s Hn.
  - destruct s; [now split | simpl in Hn; lia].
  - destruct s as [|c s]; [now split |]. simpl in Hn.
    cbn [pieces].
    destruct (matchImage (String c s)) as [[[alt url] rest]|] eqn:Em.
    + apply matchImage_Some in Em as (Es & Ha & Hu & Hne).
      rewrite fullMatch_length.
      assert (Es' : s = ("[" +:+ alt +:+ "](" +:+ url +:+ ")") +:+ rest).
      { unfold fullMatch in Es. cbn [String.append] in Es.
        injection Es as _ Es. rewrite Es. cbn [String.append].
        rewrite !str_app_assoc. reflexivity. }
      cbn [Nat.sub]. rewrite Nat.sub_0_r.
      assert (Hp : pieces
                     (String.length ("[" +:+ alt +:+ "](" +:+ url +:+ ")")) s
                   = pieces 0 rest).
      { rewrite Es'. apply pieces_skip. }
      rewrite Hp.
      destruct (IH rest) as [Ht Hw].
      { rewrite Es', str_length_app in Hn. lia. }
      split.
      * cbn [textOf pieceText]. rewrite Ht. symmetry. exact Es.
      * cbn [WellScanned]. now repeat split.
    + destruct (IH s) as [Ht Hw]; [lia |].
      split.
      * cbn [textOf pieceText]. now rewrite Ht.
      * cbn [WellScanned]. rewrite Ht. now split.
Qed.

Lemma pieces_text (s : string) : textOf pieceText (pieces 0 s) = s.
Proof. apply (pieces_scan (String.length s)). lia. Qed.

Lemma pieces_WellScanned (s : string) : WellScanned (pieces 0 s).
Proof. apply (pieces_scan (String.length s)). lia. Qed.

(** *** C1: occurrences of one text in another *)

Lemma str_app_eq_app (x y a b : string) :
  x +:+ y = a +:+ b ->
  (exists m, a = x +:+ m /\ y = m +:+ b)
  \/ (exists m, m <> "" /\ x = a +:+ m /\ b = m +:+ y).
Proof.
  revert a; induction x as [|c x IH]; intros a H.
  - left. exists a. now split.
  - destruct a as [|d a].
    + right. exists (String c x). repeat split; [discriminate |].
      symmetry. exact H.
    + simpl in H. injection H as -> H.
      destruct (IH a H) as [(m & -> & ->) | (m & Hm & -> & ->)].
      * left. now exists m.
      * right. now exists m.
Qed.

Lemma str_app_inv_last (a b : string) (e f : ascii) :
  a +:+ Js.chr e = b +:+ Js.chr f -> a = b /\ e = f.
Proof.
  revert b; induction a as [|c a IH]; intros [|d b] H; simpl in H.
  - now injection H.
  - injection H as _ H. destruct b; discriminate.
  - injection H as _ H. destruct a; discriminate.
  - injection H as -> H. destruct (IH b H) as [-> ->]. now split.
Qed.

Lemma includes_cons (c : ascii) (s p : string) :
  Js.includes (String c s) p = Js.startsWith (String c s) p || Js.includes s p.
Proof. reflexivity. Qed.

Lemma includes_true (s p : string) :
  Js.includes s p = true <-> exists a b, s = a +:+ p +:+ b.
Proof.
  split.
  - induction s as [|c s IH].
    + simpl. rewrite orb_false_r. intros H.
      apply startsWith_true in H as (r & ->). now exists "", r.
    + rewrite includes_cons. intros H. apply orb_true_iff in H as [H | H].
      * apply startsWith_true in H as (r & ->). now exists "", r.
      * destruct (IH H) as (a & b & ->). now exists (String c a), b.
  - intros (a & b & ->). induction a as [|c a IH].
    + simpl String.append.
      destruct (p +:+ b) eqn:E.
      * destruct p; [reflexivity | discriminate].
      * rewrite includes_cons, <- E, startsWith_app. reflexivity.
    + simpl String.append. rewrite includes_cons, IH. apply orb_true_r.
Qed.

Lemma includes_false_app_l (u v p : string) :
  Js.includes (u +:+ v) p = false -> Js.includes u p = false.
Proof.
  intros H. destruct (Js.includes u p) eqn:E; [| reflexivity].
  apply includes_true in E as (a & b & ->).
  assert (Js.includes ((a +:+ p +:+ b) +:+ v) p = true).
  { apply includes_true. exists a, (b +:+ v). now rewrite !str_app_assoc. }
  congruence.
Qed.

Lemma includes_false_app_r (u v p : string) :
  Js.includes (u +:+ v) p = false -> Js.includes v p = false.
Proof.
  intros H. destruct (Js.includes v p) eqn:E; [| reflexivity].
  apply includes_true in E as (a & b & ->).
  assert (Js.includes (u +:+ a +:+ p +:+ b) p = true).
  { apply includes_true. exists (u +:+ a), b. now rewrite !str_app_assoc. }
  congruence.
Qed.

(** One-character patterns. *)
Lemma includes_char_cons (c d : ascii) (s : string) :
  Js.includes (String c s) (Js.chr d) = Ascii.eqb d c || Js.includes s (Js.chr d).
Proof.
  rewrite includes_cons. unfold Js.startsWith, Js.chr. cbn [Js.stripPrefix].
  destruct (Ascii.eqb d c); reflexivity.
Qed.

Lemma includes_char_app (d : ascii) (u v : string) :
  Js.includes (u +:+ v) (Js.chr d)
  = Js.includes u (Js.chr d) || Js.includes v (Js.chr d).
Proof.
  induction u as [|c u IH].
  - simpl String.append. destruct v; reflexivity.
  - simpl String.append. rewrite !includes_char_cons, IH.
    now rewrite orb_assoc.
Qed.

Lemma includes_char_allChars (d : ascii) (s : string) :
  Js.includes s (Js.chr d) = false -> allChars (notChar d) s = true.
Proof.
  induction s as [|c s IH]; [reflexivity |].
  rewrite includes_char_cons. intros H.
  apply orb_false_iff in H as [Hc Hs]. simpl. unfold notChar at 1.
  rewrite Ascii.eqb_sym, Hc. simpl. now apply IH.
Qed.

(** Up to the first delimiter, a text is cut in one way only. *)
Lemma span_unique (d : ascii) (u v x y : string) :
  allChars (notChar d) u = true -> allChars (notChar d) v = true ->
  u +:+ String d x = v +:+ String d y -> u = v /\ x = y.
Proof.
  revert v; induction u as [|c u IH]; intros [|e v] Hu Hv H; simpl in *.
  - now injection H.
  - injection H as -> _. unfold notChar in Hv.
    rewrite Ascii.eqb_refl in Hv. discriminate.
  - injection H as -> _. unfold notChar in Hu.
    rewrite Ascii.eqb_refl in Hu. discriminate.
  - injection H as -> H. apply andb_true_iff in Hu as [_ Hu].
    apply andb_true_iff in Hv as [_ Hv].
    destruct (IH v Hu Hv H) as [-> ->]. now split.
Qed.

(** Two image references of which one starts the other have the same alt
    text. *)
Lemma fullMatch_prefix_alt (alt url a x r r' : string) :
  allChars (notChar "]") alt = true -> allChars (notChar "]") a = true ->
  fullMatch a x +:+ r = fullMatch alt url +:+ r' ->
  a = alt /\ x +:+ String ")" r = url +:+ String ")" r'.
Proof.
  intros Halt Ha H. rewrite !fullMatch_app in H.
  cbn [String.append] in H. injection H as H.
  change ("](" +:+ ?z) with (String "]" (String "(" z)) in H.
  cbn [String.append] in H.
  apply span_unique in H as [-> H]; [| assumption | assumption].
  injection H as H. now split.
Qed.

Lemma allChars_app (f : ascii -> bool) (u v : string) :
  allChars f (u +:+ v) = allChars f u && allChars f v.
Proof.
  induction u as [|c u IH]; [reflexivity |].
  cbn [String.append allChars]. now rewrite IH, andb_assoc.
Qed.

(** A prefix without the character [c] of a text cut before a [c] is a
    prefix of the part before. *)
Lemma startsWith_cut (c : ascii) (p u v : string) :
  allChars (notChar c) p = true ->
  Js.startsWith (u +:+ String c v) p = true -> Js.startsWith u p = true.
Proof.
  intros Hp H. apply startsWith_true in H as [r H]. apply startsWith_true.
  apply str_app_eq_app in H as [(m & -> & Hm) | (m & _ & -> & _)];
    [| now exists m].
  destruct m as [|e m].
  - exists ""%string. now rewrite !str_app_nil_r.
  - exfalso. cbn [String.append] in Hm. injection Hm as <- _.
    rewrite allChars_app in Hp. apply andb_true_iff in Hp as [_ Hp].
    cbn [allChars] in Hp. unfold notChar in Hp.
    rewrite Ascii.eqb_refl in Hp. discriminate.
Qed.

Lemma isAbsoluteRef_cut (u v : string) :
  isAbsoluteRef (u +:+ String ")" v) = true -> isAbsoluteRef u = true.
Proof.
  unfold isAbsoluteRef. intros H.
  repeat (apply orb_true_iff in H as [H | H]);
    apply (startsWith_cut ")") in H; try reflexivity; rewrite H;
    repeat rewrite orb_true_r; reflexivity.
Qed.

(** A replacement text without a dollar sign is inserted as it is. *)
Lemma getSubstitution_plain (matched before after template : string) :
  Js.includes template "$" = false ->
  Js.getSubstitution matched before after template = template.
Proof.
  induction template as [|c t IH]; [reflexivity |].
  change "$"%string with (Js.chr "$"). rewrite includes_char_cons.
  intros H. apply orb_false_iff in H as [Hc Ht].
  cbn [Js.getSubstitution]. rewrite Ascii.eqb_sym, Hc.
  now rewrite (IH Ht).
Qed.

Lemma splitFirst_unfold (pat s : string) :
  Js.splitFirst pat s
  = match Js.stripPrefix pat s with
    | Some rest => Some (EmptyString, rest)
    | None =>
        match s with
        | EmptyString => None
        | String c s' =>
            match Js.splitFirst pat s' with
            | Some (before, after) => Some (String c before, after)
            | None => None
            end
        end
    end.
Proof. destruct s; reflexivity. Qed.

(** Where the first occurrence is, when there is none before. *)
Lemma splitFirst_first (pat P Q : string) :
  (forall a b, P = a +:+ b -> b <> "" ->
               Js.stripPrefix pat (b +:+ pat +:+ Q) = None) ->
  Js.splitFirst pat (P +:+ pat +:+ Q) = Some (P, Q).
Proof.
  induction P as [|c P IH]; intros H.
  - simpl String.append. now rewrite splitFirst_unfold, stripPrefix_app.
  - rewrite splitFirst_unfold.
    rewrite (H "" (String c P)) by (try reflexivity; discriminate).
    simpl String.append. cbv iota. rewrite IH; [reflexivity |].
    intros a b -> Hb. apply (H (String c a) b); [reflexivity | exact Hb].
Qed.

Lemma replace_first (X pat template P Q : string) :
  Js.splitFirst pat X = Some (P, Q) ->
  Js.includes template "$" = false ->
  Js.replace X pat template = P +:+ template +:+ Q.
Proof.
  intros H Ht. unfold Js.replace. rewrite H.
  now rewrite getSubstitution_plain.
Qed.

(** *** C1: the absolutize pass *)

Lemma textOf_app (f : Piece -> string) (l1 l2 : list Piece) :
  textOf f (l1 ++ l2) = textOf f l1 +:+ textOf f l2.
Proof.
  induction l1 as [|p l1 IH]; [reflexivity |].
  cbn [app textOf]. now rewrite IH, str_app_assoc.
Qed.

Lemma absolutizeStep_repOf (h : Host) (dir : string)
    (replacements : list (string * string)) (alt url : string) :
  absolutizeStep h dir replacements (alt, url)
  = replacements ++ repOf h dir (Image alt url).
Proof.
  unfold absolutizeStep, repOf, isAbsoluteRef.
  destruct (Js.startsWith url "http://"), (Js.startsWith url "https://"),
    (Js.startsWith url "data:"), (Js.startsWith url "blob:");
    cbn [orb]; try (now rewrite app_nil_r).
  destruct (URL_resolve h url dir); [reflexivity | now rewrite app_nil_r].
Qed.

Lemma fold_absolutize (h : Host) (dir : string) (l : list Piece)
    (acc : list (string * string)) :
  fold_left (absolutizeStep h dir) (imagesOf l) acc
  = acc ++ flat_map (repOf h dir) l.
Proof.
  revert acc; induction l as [|p l IH]; intros acc.
  - simpl. now rewrite app_nil_r.
  - destruct p as [c | alt url].
    + change (imagesOf (Lit c :: l)) with (imagesOf l).
      change (flat_map (repOf h dir) (Lit c :: l))
        with (flat_map (repOf h dir) l).
      apply IH.
    + change (imagesOf (Image alt url :: l)) with ((alt, url) :: imagesOf l).
      change (flat_map (repOf h dir) (Image alt url :: l))
        with (repOf h dir (Image alt url) ++ flat_map (repOf h dir) l).
      cbn [fold_left]. rewrite absolutizeStep_repOf, IH.
      now rewrite app_assoc.
Qed.

(** The start of an image reference does not appear where two texts
    without it are joined, unless the first ends with the exclamation mark
    and the second starts with the bracket. *)
Lemma includes_bang_app (u v : string) :
  Js.includes u "![" = false -> Js.includes v "![" = false ->
  (forall u', u <> u' +:+ "!") \/ (forall v', v <> String "[" v') ->
  Js.includes (u +:+ v) "![" = false.
Proof.
  intros Hu Hv Hj.
  destruct (Js.includes (u +:+ v) "![") eqn:E; [| reflexivity]. exfalso.
  apply includes_true in E as (a & b & E).
  apply str_app_eq_app in E as [(m & -> & ->) | (m & Hm & -> & Hb)].
  - assert (Js.includes (m +:+ "![" +:+ b) "![" = true)
      by (apply includes_true; eauto).
    congruence.
  - destruct m as [|e m]; [congruence |].
    cbn [String.append] in Hb. injection Hb as <- Hb.
    destruct m as [|f m].
    + cbn [String.append] in Hb.
      destruct Hj as [Hj | Hj]; [now apply (Hj a) | now apply (Hj b)].
    + cbn [String.append] in Hb. injection Hb as <- Hb.
      match type of Hu with
      | Js.includes ?t _ = false =>
          assert (Js.includes t "![" = true)
            by (apply includes_true; exists a, m; reflexivity)
      end.
      congruence.
Qed.

(** Inside an image reference, after its first character, there is no
    start of an image reference when its parts have none. *)
Lemma fullMatch_tail_bang (alt url : string) :
  Js.includes alt "![" = false -> Js.includes url "![" = false ->
  Js.includes ("[" +:+ alt +:+ "](" +:+ url +:+ ")") "![" = false.
Proof.
  intros Ha Hu.
  apply includes_bang_app; [reflexivity | | left].
  - apply includes_bang_app; [exact Ha | | right; discriminate].
    apply includes_bang_app; [reflexivity | | left].
    + apply includes_bang_app; [exact Hu | reflexivity | right; discriminate].
    + intros u' H. change "](" with ("]" +:+ Js.chr "(") in H.
      change "!"%string with (Js.chr "!") in H.
      apply str_app_inv_last in H as [_ H]. discriminate.
  - intros u' H. change "["%string with ("" +:+ Js.chr "[") in H.
    change "!"%string with (Js.chr "!") in H.
    apply str_app_inv_last in H as [_ H]. discriminate.
Qed.

Lemma fullMatch_tail (alt url : string) :
  fullMatch alt url = String "!" ("[" +:+ alt +:+ "](" +:+ url +:+ ")").
Proof. reflexivity. Qed.

Lemma fullMatch_tail_last (alt url : string) :
  "[" +:+ alt +:+ "](" +:+ url +:+ ")"
  = ("[" +:+ alt +:+ "](" +:+ url) +:+ Js.chr ")".
Proof. now rewrite !str_app_assoc. Qed.

(** A text that starts strictly inside an image reference does not start
    with the start of an image reference. *)
Lemma inside_reference (a1 x a m rest z : string) :
  Js.includes a1 "![" = false -> Js.includes x "![" = false ->
  fullMatch a1 x = a +:+ m -> a <> "" -> m <> "" ->
  m +:+ rest <> "![" +:+ z.
Proof.
  intros Ha Hx Hf Hane Hmne H.
  destruct a as [|c0 a']; [congruence |].
  rewrite fullMatch_tail in Hf. cbn [String.append] in Hf.
  injection Hf as _ Hf.
  assert (Hf' : "[" +:+ a1 +:+ "](" +:+ x +:+ ")" = a' +:+ m) by exact Hf.
  clear Hf.
  destruct m as [|e m]; [congruence |].
  cbn [String.append] in H. injection H as -> H.
  destruct m as [|f m].
  - rewrite fullMatch_tail_last in Hf'.
    change "!"%string with (Js.chr "!") in Hf'.
    apply str_app_inv_last in Hf' as [_ Hf']. discriminate.
  - cbn [String.append] in H. injection H as -> _.
    pose proof (fullMatch_tail_bang a1 x Ha Hx) as Hb.
    rewrite Hf' in Hb.
    match type of Hb with
    | Js.includes ?t _ = false =>
        assert (Js.includes t "![" = true)
          by (apply includes_true; exists a', m; reflexivity)
    end.
    congruence.
Qed.

Lemma fullMatch_dollar (alt url : string) :
  Js.includes alt "$" = false -> Js.includes url "$" = false ->
  Js.includes (fullMatch alt url) "$" = false.
Proof.
  intros Ha Hu. unfold fullMatch. change "$"%string with (Js.chr "$") in *.
  rewrite !includes_char_app, Ha, Hu. reflexivity.
Qed.

Lemma WellScanned_app (l r : list Piece) :
  WellScanned (l ++ r) ->
  ScannedBefore (textOf pieceText r) l /\ WellScanned r.
Proof.
  induction l as [|p l IH]; intros H; [now split |].
  destruct p as [c | alt url]; cbn [app WellScanned ScannedBefore] in *.
  - destruct H as [Hm H]. destruct (IH H) as [H1 H2].
    rewrite textOf_app in Hm. now repeat split.
  - destruct H as (Ha & Hu & Hne & H). destruct (IH H) as [H1 H2].
    now repeat split.
Qed.

Lemma tidyPiece_Image (h : Host) (dir a x : string) :
  tidyPiece h dir (Image a x) = true ->
  Js.includes a "![" = false /\ Js.includes x "![" = false
  /\ (isAbsoluteRef x = false ->
      forall ab, URL_resolve h x dir = Some ab ->
        Js.includes a "$" = false /\ Js.includes ab "$" = false
        /\ Js.includes ab "![" = false /\ isAbsoluteRef ab = true).
Proof.
  cbn [tidyPiece]. intros H.
  apply andb_true_iff in H as [H Hst]. apply andb_true_iff in H as [Ha Hx].
  apply negb_true_iff in Ha, Hx.
  split; [exact Ha |]. split; [exact Hx |].
  intros Hrel ab Hab. rewrite Hrel, Hab in Hst.
  apply andb_true_iff in Hst as [Hst H4].
  apply andb_true_iff in Hst as [Hst H3].
  apply andb_true_iff in Hst as [H1 H2].
  apply negb_true_iff in H1, H2, H3. now repeat split.
Qed.

(** What an image reference becomes, with what is needed of its URL. *)
Lemma absolutized_Image (h : Host) (dir a x : string) :
  allChars (notChar ")") x = true ->
  tidyPiece h dir (Image a x) = true ->
  exists x',
    absolutized h dir (Image a x) = fullMatch a x'
    /\ Js.includes x' "![" = false
    /\ ((x' = x /\ (isAbsoluteRef x = true \/ URL_resolve h x dir = None))
        \/ isAbsoluteRef x' = true).
Proof.
  intros Hx Ht. apply tidyPiece_Image in Ht as (_ & Hbx & Hres).
  cbn [absolutized]. destruct (isAbsoluteRef x) eqn:E1.
  - exists x. auto 10.
  - destruct (URL_resolve h x dir) as [ab|] eqn:E2.
    + destruct (Hres eq_refl ab eq_refl) as (_ & _ & Hb & Hab).
      exists ab. repeat split; try assumption. now right.
    + exists x. auto 10.
Qed.

Section OneReference.

Variable h : Host.
Variable dir : string.
Variables alt url absoluteUrl : string.

Hypothesis alt_scanned : allChars (notChar "]") alt = true.
Hypothesis url_scanned : allChars (notChar ")") url = true.
Hypothesis url_nonempty : url <> "".
Hypothesis alt_plain : Js.includes alt "![" = false.
Hypothesis url_plain : Js.includes url "![" = false.
Hypothesis url_relative : isAbsoluteRef url = false.
Hypothesis url_resolves : URL_resolve h url dir = Some absoluteUrl.

(** A text that, before the start of an image reference, already starts
    with the reference [![alt](url)], has the reference in the part
    before. *)
Lemma reference_cut (w v r : string) :
  w <> "" ->
  w +:+ "![" +:+ v = fullMatch alt url +:+ r ->
  exists r', w = fullMatch alt url +:+ r'.
Proof.
  intros Hw H.
  apply str_app_eq_app in H as [(m & Hs & Hm) | (m & _ & Hs & _)];
    [| now exists m].
  destruct m as [|e m].
  - exists ""%string. now rewrite Hs, !str_app_nil_r.
  - exfalso.
    apply (inside_reference alt url w (String e m) r v
             alt_plain url_plain Hs Hw); [discriminate |].
    now rewrite Hm.
Qed.

(** Absolutizing the pieces after a text does not make the whole start
    with the reference when it did not before. *)
Lemma reference_transfer (l : list Piece) (z : string) :
  forall w r,
    w <> "" ->
    w +:+ textOf (absolutized h dir) l +:+ z = fullMatch alt url +:+ r ->
    exists r', w +:+ textOf pieceText l +:+ z = fullMatch alt url +:+ r'.
Proof.
  induction l as [|p l IH]; intros w r Hw H.
  - now exists r.
  - destruct p as [c | a x].
    + cbn [textOf absolutized pieceText] in *.
      rewrite !str_app_assoc in *.
      change (Js.chr c +:+ ?t) with (String c t) in *.
      specialize (IH (w +:+ Js.chr c) r).
      rewrite !str_app_assoc in IH. apply IH; [| exact H].
      destruct w; [congruence | discriminate].
    + assert (exists v, textOf (absolutized h dir) (Image a x :: l) +:+ z
                        = "![" +:+ v) as [v Hv].
      { cbn [textOf absolutized].
        destruct (isAbsoluteRef x); [| destruct (URL_resolve h x dir)];
          rewrite !str_app_assoc, fullMatch_app; eexists; reflexivity. }
      rewrite Hv in H.
      destruct (reference_cut w v r Hw H) as [r' ->].
      rewrite str_app_assoc. eexists; reflexivity.
Qed.

(** In the text already absolutized, followed by anything, the reference
    does not occur at a position before the end of that text. *)
Lemma no_earlier_reference (l : list Piece) (z : string) :
  ScannedBefore z l ->
  forallb (tidyPiece h dir) l = true ->
  forall a b r,
    textOf (absolutized h dir) l = a +:+ b -> b <> "" ->
    b +:+ z <> fullMatch alt url +:+ r.
Proof.
  induction l as [|p l IH]; intros Hs Ht a b r Hab Hb Heq.
  - destruct a; [| discriminate]. simpl in Hab. congruence.
  - cbn [forallb] in Ht. apply andb_true_iff in Ht as [Htp Ht].
    cbn [textOf] in Hab.
    apply str_app_eq_app in Hab as [(m & -> & Hm) | (m & Hmne & Hp & ->)].
    + assert (Hs' : ScannedBefore z l)
        by (destruct p; cbn [ScannedBefore] in Hs; tauto).
      exact (IH Hs' Ht m b r Hm Hb Heq).
    + rewrite str_app_assoc in Heq.
      destruct p as [c | a1 x1].
      * cbn [absolutized] in Hp.
        destruct a as [|c0 a'].
        -- simpl in Hp. subst m.
           destruct (reference_transfer l z (Js.chr c) r
                       ltac:(discriminate) Heq) as [r' Hr'].
           cbn [ScannedBefore] in Hs. destruct Hs as [Hnone _].
           change (Js.chr c +:+ ?t) with (String c t) in Hr'.
           rewrite Hr', matchImage_complete in Hnone by assumption.
           discriminate.
        -- cbn in Hp. injection Hp as _ Hp.
           destruct a'; [simpl in Hp; congruence | discriminate].
      * cbn [ScannedBefore] in Hs. destruct Hs as (Ha1 & Hx1 & Hne1 & _).
        pose proof (tidyPiece_Image h dir a1 x1 Htp) as (Hba & _ & _).
        destruct (absolutized_Image h dir a1 x1 Hx1 Htp)
          as (x' & Hx' & Hb' & Hstat).
        rewrite Hx' in Hp.
        destruct a as [|c0 a'].
        -- simpl in Hp. subst m.
           destruct (fullMatch_prefix_alt alt url a1 x' _ _
                       alt_scanned Ha1 Heq) as [-> Hu].
           apply str_app_eq_app in Hu
             as [(m & Hm & Hr) | (m & Hm & -> & Hr)].
           ++ destruct m as [|e m].
              ** rewrite str_app_nil_r in Hm. subst x'.
                 destruct Hstat as [[-> [E | E]] | E]; congruence.
              ** cbn [String.append] in Hr. injection Hr as <- _.
                 pose proof url_scanned as Hc. rewrite Hm in Hc.
                 rewrite allChars_app in Hc.
                 apply andb_true_iff in Hc as [_ Hc].
                 cbn [allChars] in Hc. unfold notChar in Hc.
                 rewrite Ascii.eqb_refl in Hc. discriminate.
           ++ destruct m as [|e m]; [congruence |].
              cbn [String.append] in Hr. injection Hr as <- _.
              destruct Hstat as [[E _] | E].
              ** rewrite <- E in Hx1. rewrite allChars_app in Hx1.
                 apply andb_true_iff in Hx1 as [_ Hx1].
                 cbn [allChars] in Hx1. unfold notChar in Hx1.
                 rewrite Ascii.eqb_refl in Hx1. discriminate.
              ** apply isAbsoluteRef_cut in E. congruence.
        -- apply (inside_reference a1 x' (String c0 a') m
                    (textOf (absolutized h dir) l +:+ z)
                    (alt +:+ "](" +:+ url +:+ ")" +:+ r)
                    Hba Hb' Hp); [discriminate | exact Hmne |].
           rewrite Heq, fullMatch_app. reflexivity.
Qed.

End OneReference.

Lemma applyReplacements_cons (s t : string) (rest : list (string * string))
    (x : string) :
  applyReplacements ((s, t) :: rest) x
  = applyReplacements rest (Js.replace x s t).
Proof. reflexivity. Qed.

(** The replacements, applied in order to a text of which the first
    pieces are already absolutized, absolutize the rest. *)
Lemma applyReplacements_pieces (h : Host) (dir : string) :
  forall todo done,
    WellScanned (done ++ todo) ->
    forallb (tidyPiece h dir) (done ++ todo) = true ->
    applyReplacements (flat_map (repOf h dir) todo)
      (textOf (absolutized h dir) done +:+ textOf pieceText todo)
    = textOf (absolutized h dir) (done ++ todo).
Proof.
  induction todo as [|p todo IH]; intros done Hw Ht.
  - cbn. now rewrite app_nil_r, str_app_nil_r.
  - destruct (WellScanned_app done (p :: todo) Hw) as [Hsb Hwr].
    pose proof Ht as Hts. rewrite forallb_app in Hts.
    apply andb_true_iff in Hts as [Htd Htr].
    cbn [forallb] in Htr. apply andb_true_iff in Htr as [Htp _].
    assert (Hmid : done ++ p :: todo = (done ++ [p]) ++ todo)
      by (now rewrite <- app_assoc).
    rewrite Hmid in Hw, Ht |- *.
    specialize (IH (done ++ [p]) Hw Ht). rewrite <- IH.
    rewrite textOf_app. cbn [textOf]. rewrite str_app_nil_r.
    change (flat_map (repOf h dir) (p :: todo))
      with (repOf h dir p ++ flat_map (repOf h dir) todo).
    destruct p as [c | a x].
    + cbn [repOf app pieceText absolutized]. now rewrite str_app_assoc.
    + cbn [WellScanned] in Hwr. destruct Hwr as (Ha & Hx & Hne & _).
      destruct (tidyPiece_Image h dir a x Htp) as (Hba & Hbx & Hres).
      cbn [repOf absolutized pieceText].
      destruct (isAbsoluteRef x) eqn:E1;
        [cbn [app]; now rewrite str_app_assoc |].
      destruct (URL_resolve h x dir) as [ab|] eqn:E2;
        [| cbn [app]; now rewrite str_app_assoc].
      destruct (Hres eq_refl ab eq_refl) as (Hda & Hdb & _).
      cbn [app]. rewrite applyReplacements_cons. f_equal.
      rewrite str_app_assoc. apply replace_first.
      * apply splitFirst_first. intros a0 b Hab Hb.
        destruct (Js.stripPrefix (fullMatch a x)
                    (b +:+ fullMatch a x +:+ textOf pieceText todo))
          as [r|] eqn:E; [| reflexivity].
        exfalso. apply stripPrefix_Some in E.
        exact (no_earlier_reference h dir a x ab Ha Hx Hne Hba Hbx E1 E2
                 done _ Hsb Htd a0 b r Hab Hb E).
      * now apply fullMatch_dollar.
Qed.

Lemma normalizedBaseUrl_baseDirectory (baseUrl : string) :
  (if negb (Js.endsWith baseUrl "/") then baseUrl +:+ "/" else baseUrl)
  = baseDirectory baseUrl.
Proof. unfold baseDirectory. now destruct (Js.endsWith baseUrl "/"). Qed.

Lemma convertRelativeImageUrls_pieces (h : Host)
    (markdownContent baseUrl : string) :
  convertRelativeImageUrls h markdownContent baseUrl
  = applyReplacements
      (flat_map (repOf h (baseDirectory baseUrl)) (pieces 0 markdownContent))
      markdownContent.
Proof.
  unfold convertRelativeImageUrls.
  rewrite normalizedBaseUrl_baseDirectory, imageMatches_pieces.
  now rewrite fold_absolutize.
Qed.

(** First-occurrence replacement: the replacement recorded for the
    second reference of this text lands inside the URL of the first one,
    which begins with http:// and is scanned as an image reference, so the
    absolute reference is changed and the relative one is not. *)
Lemma convertRelativeImageUrls_first_occurrence :
  let markdownContent := "![x](http://h/![a](r) ![a](r)"%string in
  let baseUrl := "https://site.com/page"%string in
  pieces 0 markdownContent
  = [Image "x" "http://h/![a](r"; Lit " "; Image "a" "r"]
  /\ isAbsoluteRef "http://h/![a](r" = true
  /\ isAbsoluteRef "r" = false
  /\ URL_resolve offlineHost "r" (baseDirectory baseUrl)
     = Some "https://site.com/page/r"%string
  /\ convertRelativeImageUrls offlineHost markdownContent baseUrl
     = "![x](http://h/![a](https://site.com/page/r) ![a](r)"%string
  /\ convertRelativeImageUrls offlineHost markdownContent baseUrl
     <> textOf (absolutized offlineHost (baseDirectory baseUrl))
          (pieces 0 markdownContent).
Proof. vm_compute. repeat split; discriminate. Qed.

(** The example of the specification, for any host whose resolver gives
    the expected URL. *)
Lemma convertRelativeImageUrls_photo (h : Host) :
  URL_resolve h "images/photo.png" "https://site.com/page/"
  = Some "https://site.com/page/images/photo.png"%string ->
  convertRelativeImageUrls h "![photo](images/photo.png)"
    "https://site.com/page"
  = "![photo](https://site.com/page/images/photo.png)"%string.
Proof.
  intros Hres. rewrite convertRelativeImageUrls_pieces.
  change (pieces 0 "![photo](images/photo.png)")
    with [Image "photo" "images/photo.png"].
  change (baseDirectory "https://site.com/page")
    with "https://site.com/page/"%string.
  cbn [flat_map repOf app].
  change (isAbsoluteRef "images/photo.png") with false.
  cbv iota. rewrite Hres. vm_compute. reflexivity.
Qed.

(** In a tidy text, the absolutize pass leaves every image
    reference whose URL begins with http://, https://, data: or blob:
    as it is, replaces the URL of every other image reference by its
    resolution against the base URL, to which a slash is appended when it
    does not end with one, keeping the alt text, and leaves a reference
    whose URL does not resolve as it is; the text between the references
    is kept.  With a resolver that resolves images/photo.png against
    https://site.com/page/ as a directory, the reference to
    images/photo.png in a page at https://site.com/page becomes a
    reference to https://site.com/page/images/photo.png. *)
Lemma convertRelativeImageUrls_tidy (h : Host)
    (markdownContent baseUrl : string) :
  Tidy h baseUrl markdownContent ->
  convertRelativeImageUrls h markdownContent baseUrl
  = textOf (absolutized h (baseDirectory baseUrl))
      (pieces 0 markdownContent)
  /\ (URL_resolve h "images/photo.png" "https://site.com/page/"
      = Some "https://site.com/page/images/photo.png"%string ->
      convertRelativeImageUrls h "![photo](images/photo.png)"
        "https://site.com/page"
      = "![photo](https://site.com/page/images/photo.png)"%string).
Proof.
  intros Ht. split; [| apply convertRelativeImageUrls_photo].
  rewrite convertRelativeImageUrls_pieces.
  pose proof (applyReplacements_pieces h (baseDirectory baseUrl)
                (pieces 0 markdownContent) []
                (pieces_WellScanned markdownContent) Ht) as H.
  cbn [textOf app] in H. rewrite pieces_text in H. exact H.
Qed.

Example convertRelativeImageUrls_tidy_example :
  let markdownContent :=
    ("Intro ![photo](images/photo.png), "
     +:+ "![logo](https://cdn.site.com/logo.png) and "
     +:+ "![dot](data:image/gif;base64,R0lGOD) ![none](//) "
     +:+ "![photo](images/photo.png)")%string in
  let baseUrl := "https://en.site.com/wiki/Page_(topic)"%string in
  Tidy offlineHost baseUrl markdownContent
  /\ convertRelativeImageUrls offlineHost markdownContent baseUrl
     = textOf (absolutized offlineHost (baseDirectory baseUrl))
         (pieces 0 markdownContent)
  /\ convertRelativeImageUrls offlineHost "![photo](images/photo.png)"
       "https://site.com/page"
     = "![photo](https://site.com/page/images/photo.png)"%string.
Proof.
  intros markdownContent baseUrl.
  assert (Ht : Tidy offlineHost baseUrl markdownContent)
    by (vm_compute; reflexivity).
  split; [exact Ht |].
  destruct (convertRelativeImageUrls_tidy offlineHost markdownContent baseUrl
              Ht) as [Hpass Hphoto].
  split; [exact Hpass | apply Hphoto; reflexivity].
Qed.

(** The text of the mixed example after the pass. *)
Example convertRelativeImageUrls_mixed :
  convertRelativeImageUrls offlineHost
    ("Intro ![photo](images/photo.png), "
     +:+ "![logo](https://cdn.site.com/logo.png) and "
     +:+ "![dot](data:image/gif;base64,R0lGOD) ![none](//) "
     +:+ "![photo](images/photo.png)")
    "https://en.site.com/wiki/Page_(topic)"
  = ("Intro ![photo](https://en.site.com/wiki/Page_(topic)/images/photo.png), "
     +:+ "![logo](https://cdn.site.com/logo.png) and "
     +:+ "![dot](data:image/gif;base64,R0lGOD) ![none](//) "
     +:+ "![photo](https://en.site.com/wiki/Page_(topic)/images/photo.png)")%string.
Proof. vm_compute. reflexivity. Qed.

(** A text in which no reference is rewritten comes back as it is. *)
Lemma convertRelativeImageUrls_untouched (h : Host)
    (markdownContent baseUrl : string) :
  (forall alt url,
     In (alt, url) (imageMatches 0 markdownContent) ->
     isAbsoluteRef url = true
     \/ URL_resolve h url (baseDirectory baseUrl) = None) ->
  convertRelativeImageUrls h markdownContent baseUrl = markdownContent.
Proof.
  intros H. rewrite convertRelativeImageUrls_pieces.
  rewrite imageMatches_pieces in H.
  assert (Hnil : flat_map (repOf h (baseDirectory baseUrl))
                   (pieces 0 markdownContent) = []).
  { induction (pieces 0 markdownContent) as [|p l IH]; [reflexivity |].
    change (flat_map (repOf h (baseDirectory baseUrl)) (p :: l))
      with (repOf h (baseDirectory baseUrl) p
            ++ flat_map (repOf h (baseDirectory baseUrl)) l).
    destruct p as [c | a x].
    - apply IH. intros alt url Hin. now apply (H alt url).
    - rewrite IH by (intros alt url Hin; apply (H alt url); now right).
      cbn [repOf]. destruct (H a x (or_introl eq_refl)) as [E | E];
        rewrite E; [reflexivity |].
      now destruct (isAbsoluteRef x). }
  now rewrite Hnil.
Qed.

(** A dollar sign in the alt text or in the resolved URL is read by the
    replacement as a pattern: two dollar signs give one, and a dollar
    sign before an ampersand gives the whole reference again. *)
Example convertRelativeImageUrls_dollar :
  convertRelativeImageUrls offlineHost "![$$](a.png)" "https://site.com/page"
  = "![$](https://site.com/page/a.png)"%string
  /\ convertRelativeImageUrls offlineHost "![a](b.png?x=$&y)"
       "https://site.com/page"
     = "![a](https://site.com/page/b.png?x=![a](b.png?x=$&y)y)"%string.
Proof. vm_compute. split; reflexivity. Qed.

(** C1.  The absolutize pass does not do on every text what is said of
    it.  It records the text of each reference that it resolves with the
    text to put in its place, and afterwards replaces, pair by pair, the
    first place where the recorded text occurs, reading the new text as a
    replacement pattern.  So the alt text is not kept when it has two
    dollar signs, which the pattern reads as one; and in a text where the
    relative reference to r occurs first inside the URL of a reference
    that begins with http://, that absolute reference is changed and the
    relative one is left as it was.  The resolver is that of RFC 3986,
    which resolves both URLs as the claim expects. *)
Theorem convertRelativeImageUrls_divergence :
  let baseUrl := "https://site.com/page"%string in
  (URL_resolve offlineHost "a.png" (baseUrl +:+ "/")
   = Some "https://site.com/page/a.png"%string
   /\ convertRelativeImageUrls offlineHost "![$$](a.png)" baseUrl
      = "![$](https://site.com/page/a.png)"%string
   /\ convertRelativeImageUrls offlineHost "![$$](a.png)" baseUrl
      <> "![$$](https://site.com/page/a.png)"%string)
  /\ (URL_resolve offlineHost "r" (baseUrl +:+ "/")
      = Some "https://site.com/page/r"%string
      /\ imageMatches 0 "![x](http://h/![a](r) ![a](r)"
         = [("x", "http://h/![a](r"); ("a", "r")]%string
      /\ convertRelativeImageUrls offlineHost
           "![x](http://h/![a](r) ![a](r)" baseUrl
         = "![x](http://h/![a](https://site.com/page/r) ![a](r)"%string
      /\ convertRelativeImageUrls offlineHost
           "![x](http://h/![a](r) ![a](r)" baseUrl
         <> "![x](http://h/![a](r) ![a](https://site.com/page/r)"%string).
Proof. vm_compute. repeat split; discriminate. Qed.

(** ** Placement, in the words of the claim *)

Lemma NoDot_includes (s : string) : Js.includes s "." = false <-> NoDot s.
Proof.
  unfold NoDot. split.
  - intros H a b ->.
    assert (Ht : Js.includes (a +:+ "." +:+ b) "." = true)
      by (apply includes_true; now exists a, b).
    congruence.
  - intros H. destruct (Js.includes s ".") eqn:E; [| reflexivity].
    apply includes_true in E as (a & b & ->). now destruct (H a b).
Qed.

Lemma matchExtension_None (s : string) :
  matchExtension s = None ->
  forall b rest, s = b +:+ "." +:+ rest -> NoDot rest -> rest = "".
Proof.
  induction s as [|c s IH]; intros Hm b rest Hs Hrest.
  - destruct b; discriminate.
  - cbn [matchExtension] in Hm.
    destruct (Ascii.eqb c "." && Js.truthy s && negb (Js.includes s "."))
      eqn:Hc; [discriminate |].
    destruct (matchExtension s) as [[? ?]|] eqn:E; [discriminate |].
    destruct b as [|d b]; cbn [String.append] in Hs; injection Hs as -> ->.
    + apply NoDot_includes in Hrest. rewrite Hrest in Hc.
      destruct rest; [reflexivity | discriminate].
    + now apply (IH eq_refl b rest).
Qed.

(** The split that the code makes of a file name is the one at its
    extension. *)
Lemma extensionAt (name : string) :
  ExtensionAt name (baseOf name) (extensionOf name).
Proof.
  unfold ExtensionAt, baseOf, extensionOf.
  destruct (matchExtension name) as [[b m]|] eqn:E.
  - apply matchExtension_Some in E as [-> (rest & -> & Hne & Hno)].
    split; [reflexivity |]. left. exists rest.
    split; [reflexivity | split; [exact Hne | now apply NoDot_includes]].
  - split; [now rewrite str_app_nil_r |]. right.
    split; [reflexivity | now apply matchExtension_None].
Qed.

Lemma substring_split (m : nat) (s : string) :
  (m <= String.length s)%nat ->
  s = String.substring 0 m s
      +:+ String.substring m (String.length s - m) s.
Proof.
  revert s; induction m as [|m IH]; intros s Hm.
  - rewrite Nat.sub_0_r, substring_all. now destruct s.
  - destruct s as [|c s]; [simpl in Hm; lia |].
    cbn [String.substring String.length String.append Nat.sub].
    f_equal. apply IH. simpl in Hm. lia.
Qed.

Lemma endsWith_true (s p : string) :
  Js.endsWith s p = true -> exists x, s = x +:+ p.
Proof.
  unfold Js.endsWith. cbv zeta. intros H.
  apply andb_true_iff in H as [Hl He].
  apply Nat.leb_le in Hl. apply String.eqb_eq in He.
  exists (String.substring 0 (String.length s - String.length p) s).
  pose proof (substring_split (String.length s - String.length p) s
                ltac:(lia)) as Hs.
  replace (String.length s - (String.length s - String.length p))%nat
    with (String.length p) in Hs by lia.
  now rewrite He in Hs.
Qed.

(** What the code cuts off a title is the three dots at its end. *)
Lemma titleBase (name : string) : TitleBase name (stripEllipsis name).
Proof.
  unfold TitleBase. destruct (Js.endsWith name "...") eqn:E.
  - left. apply endsWith_true in E as (x & ->).
    now rewrite stripEllipsis_app.
  - right. unfold stripEllipsis. rewrite E. split; [reflexivity |].
    intros x ->. now rewrite endsWith_app in E.
Qed.

(** A name has one base and one extension. *)
Lemma ExtensionAt_unique (name b1 e1 b2 e2 : string) :
  ExtensionAt name b1 e1 -> ExtensionAt name b2 e2 -> b1 = b2 /\ e1 = e2.
Proof.
  intros [H1 [(r1 & -> & Hn1 & Hd1) | (-> & Ha1)]]
         [H2 [(r2 & -> & Hn2 & Hd2) | (-> & Ha2)]].
  - rewrite H1 in H2.
    apply str_app_eq_app in H2 as [(m & -> & Hm) | (m & Hne & -> & Hm)].
    + destruct m as [|c m]; cbn [String.append] in Hm.
      * injection Hm as ->. now rewrite str_app_nil_r.
      * injection Hm as _ ->. now destruct (Hd1 m r2).
    + destruct m as [|c m]; [congruence |]. cbn [String.append] in Hm.
      injection Hm as _ ->. now destruct (Hd2 m r1).
  - destruct Hn1. now apply (Ha2 b1 r1).
  - destruct Hn2. now apply (Ha1 b2 r2).
  - rewrite str_app_nil_r in H1, H2. now subst.
Qed.

(** A title has one base. *)
Lemma TitleBase_unique (name b1 b2 : string) :
  TitleBase name b1 -> TitleBase name b2 -> b1 = b2.
Proof.
  intros [H1 | [-> H1]] [H2 | [-> H2]].
  - rewrite H1 in H2. now apply str_app_inv_tail in H2.
  - now destruct (H2 b1).
  - now destruct (H1 b2).
  - reflexivity.
Qed.

(** The free slot when the initial path is taken and the first numbered
    path is not, and when the first is taken and the second is not. *)
Lemma FreeSlot_first (w : World) (initial : string)
    (candidate : nat -> string) (p : string) :
  FreeSlot w initial candidate p ->
  is_Some (vault w !! initial) ->
  vault w !! candidate 1%nat = None ->
  p = candidate 1%nat.
Proof.
  intros [Hfree [[Hi _] | (_ & k & Hk & -> & Hocc)]] Hinit Hone.
  - rewrite Hi in Hinit. now destruct Hinit.
  - destruct (Nat.eq_dec k 1%nat) as [-> | Hne]; [reflexivity |].
    destruct (Hocc 1%nat ltac:(lia)) as [x Hx]. congruence.
Qed.

Lemma FreeSlot_second (w : World) (initial : string)
    (candidate : nat -> string) (p : string) :
  FreeSlot w initial candidate p ->
  is_Some (vault w !! initial) ->
  is_Some (vault w !! candidate 1%nat) ->
  vault w !! candidate 2%nat = None ->
  p = candidate 2%nat.
Proof.
  intros [Hfree [[Hi _] | (_ & k & Hk & -> & Hocc)]] Hinit [y Hone] Htwo.
  - rewrite Hi in Hinit. now destruct Hinit.
  - destruct (Nat.eq_dec k 1%nat) as [-> | Hne1]; [congruence |].
    destruct (Nat.eq_dec k 2%nat) as [-> | Hne2]; [reflexivity |].
    destruct (Hocc 2%nat ltac:(lia)) as [x Hx]. congruence.
Qed.

(** C4.  With a host whose [normalizePath] keeps counters apart, the
    placement of a note and of an image ends at a path that is free in
    the vault at the time of the write: the initial path (folder, safe
    name, extension) when it is free, and otherwise the path with -1, -2,
    ... put before the extension, for the smallest counter whose path is
    free.  For a note the extension is .md and the counter follows the
    safe title without the three dots at its end, if it has them; for an
    image the counter goes before the extension of the safe file name:
    what starts at its last dot, when a character follows that dot.  The
    file is written there, unless the host refuses the write.  The safe
    name is the name with each of the nine unsafe characters replaced by
    a hyphen. *)
Theorem placement_free_slot (h : Host) (settings : ClipboardToNoteSettings)
    (title fullContent attachmentFolder filename : string)
    (buffer : list Byte.byte) (w : World) :
  CounterInjective h ->
  (exists base p,
     TitleBase (sanitize title) base
     /\ FreeSlot w
          (normalizePath h
             (inboxFolder settings +:+ "/" +:+ sanitize title +:+ ".md"))
          (fun counter =>
             normalizePath h
               (inboxFolder settings +:+ "/" +:+ base +:+ "-"
                +:+ Js.toString (Z.of_nat counter) +:+ ".md")) p
     /\ placeNote h settings title fullContent w
        = match createError h p with
          | None => (Returns p, setVault (insert p (TextFile fullContent)) w)
          | Some message => (Throws message, w)
          end)
  /\ (exists base extension p,
        ExtensionAt (sanitize filename) base extension
        /\ FreeSlot w
             (normalizePath h
                (attachmentFolder +:+ "/" +:+ sanitize filename))
             (fun counter =>
                normalizePath h
                  (attachmentFolder +:+ "/" +:+ base +:+ "-"
                   +:+ Js.toString (Z.of_nat counter) +:+ extension)) p
        /\ placeImage h attachmentFolder filename buffer w
           = match createBinaryError h p with
             | None =>
                 (Returns p, setVault (insert p (BinaryFile buffer)) w)
             | Some message => (Throws message, w)
             end)
  /\ (forall name i,
        String.get i (sanitize name)
        = match String.get i name with
          | Some c => Some (if isUnsafe c then "-"%char else c)
          | None => None
          end)
  /\ (forall c, isUnsafe c = true <-> In c unsafeCharacters).
Proof.
  intros Hinj. split; [| split; [| split]].
  - destruct (placeNote_run h settings title fullContent w Hinj)
      as (p & Hslot & Hrun).
    exists (stripEllipsis (sanitize title)), p.
    split; [apply titleBase | split; [exact Hslot | exact Hrun]].
  - destruct (placeImage_run h attachmentFolder filename buffer w Hinj)
      as (p & Hslot & Hrun).
    exists (baseOf (sanitize filename)), (extensionOf (sanitize filename)), p.
    split; [apply extensionAt | split; [exact Hslot | exact Hrun]].
  - apply sanitize_get.
  - apply isUnsafe_spec.
Qed.

(** C4 at the note Draft in a vault that has Draft.md, and in one that has
    Draft-1.md as well, and at the image abc_photo.png in a folder that
    has it: the names Draft-1.md, Draft-2.md and abc_photo-1.png follow
    from the free slot. *)
Lemma placement_free_slot_witness :
  CounterInjective offlineHost
  /\ placeNote offlineHost DEFAULT_SETTINGS "Draft" "text"
       (startWorld (draftVault false))
     = (Returns "Inbox/Draft-1.md",
        setVault (insert "Inbox/Draft-1.md" (TextFile "text"))
          (startWorld (draftVault false)))
  /\ placeNote offlineHost DEFAULT_SETTINGS "Draft" "text"
       (startWorld (draftVault true))
     = (Returns "Inbox/Draft-2.md",
        setVault (insert "Inbox/Draft-2.md" (TextFile "text"))
          (startWorld (draftVault true)))
  /\ placeImage offlineHost "Inbox" "abc_photo.png" []
       (startWorld (<["Inbox/abc_photo.png" := BinaryFile []]> ∅))
     = (Returns "Inbox/abc_photo-1.png",
        setVault (insert "Inbox/abc_photo-1.png" (BinaryFile []))
          (startWorld (<["Inbox/abc_photo.png" := BinaryFile []]> ∅))).
Proof.
  assert (Hinj : CounterInjective offlineHost)
    by (apply identity_CounterInjective; reflexivity).
  assert (Hdraft : TitleBase "Draft" "Draft").
  { right. split; [reflexivity |].
    intros [|? [|? [|? [|? [|? [|? ?]]]]]]; discriminate. }
  assert (Hphoto : ExtensionAt "abc_photo.png" "abc_photo" ".png").
  { split; [reflexivity |]. left. exists "png"%string.
    split; [reflexivity | split; [discriminate |]].
    intros [|? [|? [|? [|? ?]]]] b; discriminate. }
  split; [exact Hinj |]. split; [| split].
  - destruct (placement_free_slot offlineHost DEFAULT_SETTINGS "Draft" "text"
                "Inbox" "abc_photo.png" [] (startWorld (draftVault false))
                Hinj)
      as ((base & p & Hbase & Hslot & Hrun) & _).
    rewrite (TitleBase_unique _ _ _ Hbase Hdraft) in Hslot.
    apply FreeSlot_first in Hslot;
      [| vm_compute; eauto | vm_compute; reflexivity].
    rewrite Hrun, Hslot. reflexivity.
  - destruct (placement_free_slot offlineHost DEFAULT_SETTINGS "Draft" "text"
                "Inbox" "abc_photo.png" [] (startWorld (draftVault true))
                Hinj)
      as ((base & p & Hbase & Hslot & Hrun) & _).
    rewrite (TitleBase_unique _ _ _ Hbase Hdraft) in Hslot.
    apply FreeSlot_second in Hslot;
      [| vm_compute; eauto | vm_compute; eauto | vm_compute; reflexivity].
    rewrite Hrun, Hslot. reflexivity.
  - destruct (placement_free_slot offlineHost DEFAULT_SETTINGS "Draft" "text"
                "Inbox" "abc_photo.png" []
                (startWorld (<["Inbox/abc_photo.png" := BinaryFile []]> ∅))
                Hinj)
      as (_ & (base & extension & p & Hsplit & Hslot & Hrun) & _).
    destruct (ExtensionAt_unique _ _ _ _ _ Hsplit Hphoto) as [-> ->].
    apply FreeSlot_first in Hslot;
      [| vm_compute; eauto | vm_compute; reflexivity].
    rewrite Hrun, Hslot. reflexivity.
Defined.

(** ** Tags by keyword, in the words of the claim *)

Lemma hasChar_false (c : ascii) (s : string) :
  hasChar c s = false <-> forall a b, s <> a +:+ String c b.
Proof.
  induction s as [|d s IH]; cbn [hasChar].
  - split; [| reflexivity]. intros _ [|? a] b; discriminate.
  - rewrite orb_false_iff, IH, Ascii.eqb_neq. split.
    + intros [Hd Hs] [|e a] b; cbn [String.append]; intros H;
        injection H as H1 H2; [congruence | now apply (Hs a b)].
    + intros H. split.
      * intros ->. now apply (H "" s).
      * intros a b ->. now apply (H (String d a) b).
Qed.

Lemma split_no_separator (c : ascii) (s : string) :
  hasChar c s = false -> Js.split c s = [s].
Proof.
  induction s as [|d s IH]; cbn [hasChar Js.split]; [reflexivity |].
  intros H. apply orb_false_iff in H as [Hd Hs]. now rewrite Hd, IH.
Qed.

Lemma split_separator (c : ascii) (s : string) :
  hasChar c s = true -> exists x y rest, Js.split c s = x :: y :: rest.
Proof.
  induction s as [|d s IH]; cbn [hasChar Js.split]; [discriminate |].
  destruct (hasChar c s) eqn:Hs.
  - destruct (IH eq_refl) as (x & y & rest & ->). intros _.
    destruct (Ascii.eqb d c); eauto.
  - rewrite orb_false_r. intros ->.
    rewrite (split_no_separator c s Hs). eauto.
Qed.

(** The last piece of the path cut at its slashes is what follows its
    last slash. *)
Lemma leafName_lastSegment (p : string) : leafName p = lastSegment p.
Proof.
  unfold leafName. induction p as [|c p IH]; [reflexivity |].
  cbn [lastSegment]. destruct (hasChar "/" p) eqn:Hs.
  - rewrite <- IH. cbn [Js.split].
    destruct (split_separator "/" p Hs) as (x & y & rest & ->).
    now destruct (Ascii.eqb c "/").
  - cbn [Js.split]. rewrite (split_no_separator "/" p Hs).
    now destruct (Ascii.eqb c "/").
Qed.

Lemma lastSegment_no_slash (p : string) : hasChar "/" (lastSegment p) = false.
Proof.
  induction p as [|c p IH]; [reflexivity |].
  cbn [lastSegment]. destruct (hasChar "/" p) eqn:Hs; [exact IH |].
  destruct (Ascii.eqb c "/") eqn:Hc; [exact Hs |].
  cbn [hasChar]. now rewrite Hc, Hs.
Qed.

Lemma lastSegment_spec (p : string) :
  (forall a b, lastSegment p <> a +:+ "/" +:+ b)
  /\ (p = lastSegment p \/ exists dir, p = dir +:+ "/" +:+ lastSegment p).
Proof.
  split; [apply hasChar_false, lastSegment_no_slash |].
  induction p as [|c p IH]; [now left |].
  cbn [lastSegment]. destruct (hasChar "/" p) eqn:Hs.
  - right. destruct IH as [IH | (dir & IH)].
    + rewrite IH, lastSegment_no_slash in Hs. discriminate.
    + exists (String c dir). cbn [String.append]. now f_equal.
  - destruct (Ascii.eqb c "/") eqn:Hc; [| now left].
    apply Ascii.eqb_eq in Hc as ->. right. now exists "".
Qed.

Lemma isRoot_isVaultRoot (p : string) : isRoot p = isVaultRoot p.
Proof.
  unfold isRoot, isVaultRoot.
  destruct (String.eqb_spec p "") as [-> | H1]; [reflexivity |].
  destruct (String.eqb_spec p "/") as [-> | H2]; [reflexivity |].
  symmetry. apply bool_decide_eq_false. tauto.
Qed.

Lemma isWordSeparator_isSeparator (c : ascii) :
  isWordSeparator c = isSeparator c.
Proof.
  unfold isWordSeparator, Js.isWhiteSpace, isSeparator, wordSeparators.
  cbn [existsb]. now rewrite orb_false_r, !orb_assoc.
Qed.

Lemma nonEmptyPieces_prependTo_nil (cut : list string) :
  nonEmptyPieces (prependTo "" cut) = nonEmptyPieces cut.
Proof. now destruct cut. Qed.

(** The runs that the split of the code leaves are, the empty ones
    apart, the pieces of the cut at every separator. *)
Lemma splitRuns_go_cut (inSep : bool) (cur s : string) :
  (inSep = true -> cur = "") ->
  nonEmptyPieces (Js.splitRuns_go isWordSeparator inSep cur s)
  = nonEmptyPieces (prependTo cur (cutAtSeparators s)).
Proof.
  revert inSep cur; induction s as [|c s IH]; intros inSep cur Hcur.
  - cbn [Js.splitRuns_go cutAtSeparators prependTo].
    now rewrite str_app_nil_r.
  - cbn [Js.splitRuns_go cutAtSeparators].
    rewrite isWordSeparator_isSeparator.
    destruct (isSeparator c).
    + cbn [prependTo]. rewrite str_app_nil_r.
      destruct inSep.
      * rewrite (Hcur eq_refl), IH by reflexivity.
        now rewrite nonEmptyPieces_prependTo_nil.
      * unfold nonEmptyPieces at 1 2. cbn [List.filter].
        fold (nonEmptyPieces (Js.splitRuns_go isWordSeparator true "" s)).
        fold (nonEmptyPieces (cutAtSeparators s)).
        rewrite IH by reflexivity.
        now rewrite nonEmptyPieces_prependTo_nil.
    + rewrite IH by discriminate.
      destruct (cutAtSeparators s) as [|piece rest]; cbn [prependTo].
      * reflexivity.
      * unfold Js.chr. now rewrite str_app_assoc.
Qed.

Lemma filter_nonEmptyPieces (f : string -> bool) (cut : list string) :
  f "" = false ->
  List.filter f (nonEmptyPieces cut) = List.filter f cut.
Proof.
  intros Hf. induction cut as [|x cut IH]; [reflexivity |].
  unfold nonEmptyPieces in *. cbn [List.filter].
  destruct (String.eqb_spec x "") as [-> | Hx]; cbn [negb List.filter].
  - now rewrite Hf.
  - now rewrite IH.
Qed.

Lemma filter_wordsOf (f : string -> bool) (name : string) :
  f "" = false ->
  List.filter f (wordsOf name) = List.filter f (words name).
Proof.
  intros Hf. unfold wordsOf, Js.splitRuns, words.
  fold (nonEmptyPieces (cutAtSeparators name)).
  rewrite <- (filter_nonEmptyPieces f (Js.splitRuns_go _ _ _ _) Hf).
  rewrite splitRuns_go_cut by discriminate.
  now rewrite nonEmptyPieces_prependTo_nil.
Qed.

Lemma keywordScore_folderScore (lowerText name : string) :
  keywordScore lowerText name = folderScore lowerText name.
Proof.
  unfold keywordScore, folderScore. cbv zeta.
  now rewrite filter_wordsOf.
Qed.

Lemma candidates_scoredFolders (folders : list TFolder) (text : string) :
  candidates folders text = scoredFolders folders text.
Proof.
  unfold candidates, scoredFolders. f_equal.
  rewrite (List.filter_ext (fun f => negb (isRoot (path f)))
             (fun f => negb (isVaultRoot (path f))))
    by (intros f; now rewrite isRoot_isVaultRoot).
  apply map_ext. intros f.
  now rewrite leafName_lastSegment, keywordScore_folderScore.
Qed.

(** C3.  [suggestTagsKeyword] leaves the world as it was and returns the
    leaf names of at most the first three entries of a stable descending
    ordering of [scoredFolders]: every folder of the vault other than the
    root (the folder whose path is empty or a slash), taken by the part
    of its path after the last slash, with a score of 10 when that name,
    lower-cased, is in the lower-cased text, plus 3 for each of its words
    (the runs between white space, hyphens and underscores) of more than
    2 characters that is in the text; folders of score 0 are left out.
    The leaf name has no slash and is the path or what follows a slash in
    it, and a text is in another when it is a contiguous part of it. *)
Theorem suggestTagsKeyword_spec (h : Host) (text : string) (w : World) :
  (exists ranked,
     StableDescending (scoredFolders (getAllFolders h (vault w)) text) ranked
     /\ suggestTagsKeyword h text w
        = (Returns (map folder (firstn 3 ranked)), w))
  /\ (forall p,
        (forall a b, lastSegment p <> a +:+ "/" +:+ b)
        /\ (p = lastSegment p
            \/ exists dir, p = dir +:+ "/" +:+ lastSegment p))
  /\ (forall s t,
        Js.includes s t = true <-> exists a b, s = a +:+ t +:+ b).
Proof.
  split; [| split].
  - rewrite <- candidates_scoredFolders. apply suggestTagsKeyword_ranked.
  - apply lastSegment_spec.
  - apply includes_true.
Qed.

(** *** Runs: what every run keeps *)

Lemma Grows_refl (w : World) : Grows w w.
Proof. split; [reflexivity | exists []; now rewrite app_nil_r]. Qed.

Lemma Grows_trans (w1 w2 w3 : World) : Grows w1 w2 -> Grows w2 w3 -> Grows w1 w3.
Proof.
  intros [Hv1 [l1 Hn1]] [Hv2 [l2 Hn2]]. split; [now transitivity (vault w2) |].
  exists (l1 ++ l2). now rewrite Hn2, Hn1, app_assoc.
Qed.

Lemma bind_inv {A B : Type} (m : M A) (k : A -> M B) (w w' : World)
    (out : Outcome B) :
  bind m k w = (out, w') ->
  (exists a w1, m w = (Returns a, w1) /\ k a w1 = (out, w'))
  \/ (exists message, m w = (Throws message, w') /\ out = Throws message)
  \/ (m w = (Hangs, w') /\ out = Hangs).
Proof.
  unfold bind. destruct (m w) as [[a | message |] w1]; intros H.
  - left. eauto.
  - right. left. injection H as <- <-. eauto.
  - right. right. injection H as <- <-. eauto.
Qed.

Lemma tryCatch_inv {A : Type} (m : M A) (k : string -> M A) (w w' : World)
    (out : Outcome A) :
  tryCatch m k w = (out, w') ->
  (exists message w1, m w = (Throws message, w1) /\ k message w1 = (out, w'))
  \/ (m w = (out, w') /\ forall message, out <> Throws message).
Proof.
  unfold tryCatch. destruct (m w) as [[a | message |] w1]; intros H.
  - right. injection H as <- <-. split; [reflexivity | discriminate].
  - left. eauto.
  - right. injection H as <- <-. split; [reflexivity | discriminate].
Qed.

Lemma Growing_ret {A : Type} (a : A) : Growing (ret a).
Proof. intros w out w' H. injection H as _ <-. apply Grows_refl. Qed.

Lemma Growing_throw {A : Type} (message : string) : Growing (@throw A message).
Proof. intros w out w' H. injection H as _ <-. apply Grows_refl. Qed.

Lemma Growing_hang {A : Type} : Growing (@hang A).
Proof. intros w out w' H. injection H as _ <-. apply Grows_refl. Qed.

Lemma Growing_bind {A B : Type} (m : M A) (k : A -> M B) :
  Growing m -> (forall a, Growing (k a)) -> Growing (bind m k).
Proof.
  intros Hm Hk w out w' H.
  apply bind_inv in H as [(a & w1 & H1 & H2) | [(msg & H1 & _) | [H1 _]]].
  - eapply Grows_trans; [exact (Hm _ _ _ H1) | exact (Hk _ _ _ _ H2)].
  - exact (Hm _ _ _ H1).
  - exact (Hm _ _ _ H1).
Qed.

Lemma Growing_tryCatch {A : Type} (m : M A) (k : string -> M A) :
  Growing m -> (forall message, Growing (k message)) -> Growing (tryCatch m k).
Proof.
  intros Hm Hk w out w' H.
  apply tryCatch_inv in H as [(msg & w1 & H1 & H2) | [H1 _]].
  - eapply Grows_trans; [exact (Hm _ _ _ H1) | exact (Hk _ _ _ _ H2)].
  - exact (Hm _ _ _ H1).
Qed.

Lemma Growing_await {A : Type} (r : Reply A) : Growing (await r).
Proof. destruct r; [apply Growing_ret | apply Growing_throw]. Qed.

Lemma Growing_notice (message : string) : Growing (notice message).
Proof.
  intros w out w' H. injection H as _ <-. split; [reflexivity |].
  now exists [message].
Qed.

Lemma Growing_newDate (h : Host) : Growing (newDate h).
Proof.
  intros w out w' H. injection H as _ <-. split; [reflexivity |].
  exists []. simpl. now rewrite app_nil_r.
Qed.

Lemma Growing_random (h : Host) (bound : nat) : Growing (random h bound).
Proof.
  intros w out w' H. injection H as _ <-. split; [reflexivity |].
  exists []. simpl. now rewrite app_nil_r.
Qed.

Lemma Growing_openFile (h : Host) (file : string) : Growing (openFile h file).
Proof.
  intros w out w' H. unfold openFile in H.
  destruct (openFileError h file); injection H as _ <-;
    [apply Grows_refl |].
  split; [reflexivity |]. exists []. simpl. now rewrite app_nil_r.
Qed.

Lemma Growing_getAbstractFileByPath (p : string) :
  Growing (getAbstractFileByPath p).
Proof. intros w out w' H. injection H as _ <-. apply Grows_refl. Qed.

Lemma Growing_getFolders (h : Host) : Growing (getFolders h).
Proof. intros w out w' H. injection H as _ <-. apply Grows_refl. Qed.

(** A write at a free path. *)
Lemma Grows_insert (w : World) (p : string) (e : Entry) :
  vault w !! p = None -> Grows w (setVault (insert p e) w).
Proof.
  intros H. split; [now apply insert_subseteq |].
  exists []. simpl. now rewrite app_nil_r.
Qed.

Lemma vaultWrite_free (refusal : option string) (p : string) (e : Entry)
    (w w' : World) (out : Outcome unit) :
  vault w !! p = None -> vaultWrite refusal p e w = (out, w') -> Grows w w'.
Proof.
  intros Hp H. unfold vaultWrite in H. destruct refusal.
  - injection H as _ <-. apply Grows_refl.
  - injection H as _ <-. now apply Grows_insert.
Qed.

Create HintDb growing.

#[local] Hint Resolve Growing_ret Growing_throw Growing_hang Growing_await
  Growing_notice Growing_newDate Growing_random Growing_openFile
  Growing_getAbstractFileByPath Growing_getFolders : growing.

Ltac growing :=
  repeat first
    [ solve [auto with growing nocore]
    | simple apply Growing_bind; [| intros ?]
    | simple apply Growing_tryCatch; [| intros ?]
    | match goal with
      | |- Growing (if ?b then _ else _) => destruct b
      | |- Growing (match ?x with _ => _ end) => destruct x
      end ].

Lemma Growing_suggestTagsKeyword (h : Host) (text : string) :
  Growing (suggestTagsKeyword h text).
Proof. unfold suggestTagsKeyword. cbv zeta. growing. Qed.

#[local] Hint Resolve Growing_suggestTagsKeyword : growing.

Lemma Growing_suggestTagsOpenAI (h : Host) (settings : ClipboardToNoteSettings)
    (text : string) :
  Growing (suggestTagsOpenAI h settings text).
Proof.
  pose proof (Growing_suggestTagsKeyword h text).
  unfold suggestTagsOpenAI. cbv zeta. growing.
Qed.

#[local] Hint Resolve Growing_suggestTagsOpenAI : growing.

Lemma Growing_fetchURLContent (h : Host) (url : string) :
  Growing (fetchURLContent h url).
Proof. unfold fetchURLContent. cbv zeta. growing. Qed.

#[local] Hint Resolve Growing_fetchURLContent : growing.

Lemma Growing_ensureFolderExists (h : Host) (folderPath : string) :
  Growing (ensureFolderExists h folderPath).
Proof.
  intros w out w' H. unfold ensureFolderExists in H. cbv zeta in H.
  unfold bind at 1, getAbstractFileByPath in H.
  destruct (vault w !! normalizePath h folderPath) eqn:E.
  - injection H as _ <-. apply Grows_refl.
  - unfold tryCatch, createFolder in H.
    destruct (vaultWrite _ _ _ w) as [[[] | message |] w1] eqn:Ew;
      injection H as _ <-; exact (vaultWrite_free _ _ _ _ _ _ E Ew).
Qed.

#[local] Hint Resolve Growing_ensureFolderExists : growing.

(** The search for a free path changes nothing, and a path that it
    returns is free. *)
Lemma whileOccupied_free (next : nat -> string) (fuel : nat) :
  forall finalPath counter w out w',
    whileOccupied fuel next finalPath counter w = (out, w') ->
    w' = w /\ forall p, out = Returns p -> vault w !! p = None.
Proof.
  induction fuel as [|fuel IH]; intros finalPath counter w out w' H.
  - injection H as <- <-. split; [reflexivity | discriminate].
  - cbn [whileOccupied] in H. unfold bind, getAbstractFileByPath in H.
    destruct (vault w !! finalPath) eqn:E; [exact (IH _ _ _ _ _ H) |].
    injection H as <- <-. split; [reflexivity |].
    intros p Hp. now injection Hp as <-.
Qed.

Lemma untilFree_free (next : nat -> string) (initial : string)
    (w w' : World) (out : Outcome string) :
  untilFree next initial w = (out, w') ->
  w' = w /\ forall p, out = Returns p -> vault w !! p = None.
Proof.
  unfold untilFree, bind at 1, vaultSize. apply whileOccupied_free.
Qed.

Lemma Growing_placeNote (h : Host) (settings : ClipboardToNoteSettings)
    (title fullContent : string) :
  Growing (placeNote h settings title fullContent).
Proof.
  intros w out w' H. unfold placeNote in H. cbv zeta in H.
  apply bind_inv in H as [(p & w1 & H1 & H2) | [(msg & H1 & _) | [H1 _]]];
    apply untilFree_free in H1 as [-> Hfree];
    try apply Grows_refl.
  unfold create in H2.
  apply bind_inv in H2 as [([] & w2 & H2 & H3) | [(msg & H2 & _) | [H2 _]]];
    try (injection H3 as _ <-);
    exact (vaultWrite_free _ _ _ _ _ _ (Hfree p eq_refl) H2).
Qed.

#[local] Hint Resolve Growing_placeNote : growing.

Lemma Growing_placeImage (h : Host) (attachmentFolder filename : string)
    (buffer : list Byte.byte) :
  Growing (placeImage h attachmentFolder filename buffer).
Proof.
  intros w out w' H. unfold placeImage in H. cbv zeta in H.
  apply bind_inv in H as [(p & w1 & H1 & H2) | [(msg & H1 & _) | [H1 _]]];
    apply untilFree_free in H1 as [-> Hfree];
    try apply Grows_refl.
  unfold createBinary in H2.
  apply bind_inv in H2 as [([] & w2 & H2 & H3) | [(msg & H2 & _) | [H2 _]]];
    try (injection H3 as _ <-);
    exact (vaultWrite_free _ _ _ _ _ _ (Hfree p eq_refl) H2).
Qed.

#[local] Hint Resolve Growing_placeImage : growing.

Lemma Growing_downloadImage (h : Host) (imageUrl filename notePath : string) :
  Growing (downloadImage h imageUrl filename notePath).
Proof.
  unfold downloadImage. cbv zeta. growing.
Qed.

#[local] Hint Resolve Growing_downloadImage : growing.

Lemma Growing_createYamlFrontmatter (h : Host) (tags : list string)
    (sourceUrl : option string) :
  Growing (createYamlFrontmatter h tags sourceUrl).
Proof. unfold createYamlFrontmatter. cbv zeta. growing. Qed.

#[local] Hint Resolve Growing_createYamlFrontmatter : growing.

Lemma Growing_generateImagePrefix (h : Host) : Growing (generateImagePrefix h).
Proof. unfold generateImagePrefix. cbv zeta. growing. Qed.

#[local] Hint Resolve Growing_generateImagePrefix : growing.

Lemma Growing_localizeStep (h : Host) (notePath prefix : string)
    (replacements : list (string * string)) (m : string * string) :
  Growing (localizeStep h notePath prefix replacements m).
Proof.
  unfold localizeStep. destruct m as [alt imageUrl]. cbv zeta. growing.
Qed.

#[local] Hint Resolve Growing_localizeStep : growing.

Lemma Growing_forEachMatch (h : Host) (notePath prefix : string)
    (matches : list (string * string)) :
  forall replacements,
    Growing (forEachMatch (localizeStep h notePath prefix) matches
               replacements).
Proof.
  induction matches as [|m matches IH]; intros replacements;
    cbn [forEachMatch]; [apply Growing_ret |].
  apply Growing_bind; [apply Growing_localizeStep | intros r; apply IH].
Qed.

#[local] Hint Resolve Growing_forEachMatch : growing.

Lemma Growing_downloadImagesInContent (h : Host)
    (markdownContent baseUrl notePath prefix : string) :
  Growing (downloadImagesInContent h markdownContent baseUrl notePath prefix).
Proof.
  unfold downloadImagesInContent.
  apply Growing_bind; [apply Growing_forEachMatch | intros r; apply Growing_ret].
Qed.

#[local] Hint Resolve Growing_downloadImagesInContent : growing.

Lemma Growing_prepare (h : Host) (settings : ClipboardToNoteSettings)
    (clipboardText : string) :
  Growing (prepare h settings clipboardText).
Proof.
  unfold prepare. cbv zeta. growing.
Qed.

#[local] Hint Resolve Growing_prepare : growing.

Lemma Growing_writeNote (h : Host) (settings : ClipboardToNoteSettings)
    (title content : string) (tags : list string)
    (sourceUrl : option string) :
  Growing (writeNote h settings title content tags sourceUrl).
Proof.
  unfold writeNote. cbv zeta. growing.
Qed.

#[local] Hint Resolve Growing_writeNote : growing.

Lemma placeNote_fresh (h : Host) (settings : ClipboardToNoteSettings)
    (title fullContent file : string) (w w' : World) :
  placeNote h settings title fullContent w = (Returns file, w') ->
  vault w !! file = None.
Proof.
  intros H. unfold placeNote in H. cbv zeta in H.
  apply bind_inv in H as [(p & w1 & H1 & H2) | [(msg & _ & H) | [_ H]]];
    try discriminate.
  apply untilFree_free in H1 as [-> Hfree].
  unfold create in H2.
  apply bind_inv in H2 as [([] & w2 & _ & H3) | [(msg & _ & H) | [_ H]]];
    try discriminate.
  injection H3 as <- _. now apply Hfree.
Qed.

(** The file that the first write returns was not in the vault before. *)
Lemma writeNote_fresh (h : Host) (settings : ClipboardToNoteSettings)
    (title content : string) (tags : list string)
    (sourceUrl : option string) (file : string) (w w' : World) :
  writeNote h settings title content tags sourceUrl w = (Returns file, w') ->
  vault w !! file = None.
Proof.
  intros H. unfold writeNote in H.
  apply bind_inv in H as [(fm & w1 & H1 & H2) | [(msg & _ & H) | [_ H]]];
    try discriminate.
  cbv zeta in H2.
  apply bind_inv in H2 as [([] & w2 & H2 & H3) | [(msg & _ & H) | [_ H]]];
    try discriminate.
  apply placeNote_fresh in H3.
  apply Growing_createYamlFrontmatter in H1 as [Hv1 _].
  apply Growing_ensureFolderExists in H2 as [Hv2 _].
  eapply lookup_weaken_None; [exact H3 |]. now transitivity (vault w1).
Qed.

(** The second write changes the note and nothing that was in the vault
    when the note was not. *)
Lemma rewriteWithImages_keeps (h : Host) (settings : ClipboardToNoteSettings)
    (content : string) (tags : list string) (sourceUrl : option string)
    (file : string) (w w' : World) (out : Outcome unit) :
  rewriteWithImages h settings content tags sourceUrl file w = (out, w') ->
  (exists shown, notices w' = notices w ++ shown)
  /\ forall v0, v0 ⊆ vault w -> v0 !! file = None -> v0 ⊆ vault w'.
Proof.
  assert (Hsame : forall out w', ret tt w = (out : Outcome unit, w') ->
            (exists shown, notices w' = notices w ++ shown)
            /\ forall v0, v0 ⊆ vault w -> v0 !! file = None -> v0 ⊆ vault w').
  { intros o w1 H. injection H as _ <-. split; [| auto].
    exists []. now rewrite app_nil_r. }
  unfold rewriteWithImages. destruct sourceUrl as [url|]; [| apply Hsame].
  destruct (Js.truthy url && downloadImages settings); [| apply Hsame].
  clear Hsame. intros H.
  apply bind_inv in H as [([] & w1 & H1 & H) | [(msg & H1 & _) | [H1 _]]].
  2,3: apply Growing_notice in H1 as [Hv Hn]; split; [exact Hn |];
       intros v0 Hv0 _; now transitivity (vault w).
  apply Growing_notice in H1 as G1.
  apply bind_inv in H as [(pre & w2 & H2 & H) | [(msg & H2 & _) | [H2 _]]].
  2,3: apply Growing_generateImagePrefix in H2 as G2;
       destruct (Grows_trans _ _ _ G1 G2) as [Hv Hn]; split; [exact Hn |];
       intros v0 Hv0 _; now transitivity (vault w).
  apply Growing_generateImagePrefix in H2 as G2.
  pose proof (Grows_trans _ _ _ G1 G2) as G12.
  apply bind_inv in H as [(body & w3 & H3 & H) | [(msg & H3 & _) | [H3 _]]].
  2,3: apply Growing_downloadImagesInContent in H3 as G3;
       destruct (Grows_trans _ _ _ G12 G3) as [Hv Hn]; split; [exact Hn |];
       intros v0 Hv0 _; now transitivity (vault w).
  apply Growing_downloadImagesInContent in H3 as G3.
  pose proof (Grows_trans _ _ _ G12 G3) as G13.
  apply bind_inv in H as [(fm & w4 & H4 & H) | [(msg & H4 & _) | [H4 _]]].
  2,3: apply Growing_createYamlFrontmatter in H4 as G4;
       destruct (Grows_trans _ _ _ G13 G4) as [Hv Hn]; split; [exact Hn |];
       intros v0 Hv0 _; now transitivity (vault w).
  apply Growing_createYamlFrontmatter in H4 as G4.
  destruct (Grows_trans _ _ _ G13 G4) as [Hv Hn].
  cbv zeta in H. unfold modify, vaultWrite in H.
  destruct (modifyError h file); injection H as _ <-.
  - split; [exact Hn |]. intros v0 Hv0 _. now transitivity (vault w).
  - split; [exact Hn |]. intros v0 Hv0 Hf. cbn [setVault vault].
    apply insert_subseteq_r; [exact Hf |]. now transitivity (vault w).
Qed.

(** The part of a run after the note is written. *)
Lemma afterWrite_keeps (h : Host) (settings : ClipboardToNoteSettings)
    (content : string) (tags : list string) (sourceUrl : option string)
    (file : string) (w w' : World) (out : Outcome unit) :
  bind (rewriteWithImages h settings content tags sourceUrl file)
    (fun _ =>
       bind (openFile h file)
         (fun _ =>
            notice ("Note created: " +:+ basename file +:+ " in "
                    +:+ inboxFolder settings))) w
  = (out, w') ->
  (exists shown, notices w' = notices w ++ shown)
  /\ forall v0, v0 ⊆ vault w -> v0 !! file = None -> v0 ⊆ vault w'.
Proof.
  intros H.
  apply bind_inv in H as [([] & w1 & H1 & H) | [(msg & H1 & _) | [H1 _]]];
    try (exact (rewriteWithImages_keeps _ _ _ _ _ _ _ _ _ H1)).
  apply rewriteWithImages_keeps in H1 as [[l1 Hn1] Hv1].
  assert (G : Growing (bind (openFile h file)
                         (fun _ => notice ("Note created: " +:+ basename file
                                           +:+ " in " +:+ inboxFolder settings))))
    by growing.
  apply G in H as [Hv [l2 Hn2]]. split.
  - exists (l1 ++ l2). now rewrite Hn2, Hn1, app_assoc.
  - intros v0 Hv0 Hf. transitivity (vault w1); [now apply Hv1 | exact Hv].
Qed.

Lemma createNoteFromClipboard_noteRun (h : Host)
    (settings : ClipboardToNoteSettings) (clipboard : Reply string) :
  createNoteFromClipboard h settings clipboard
  = tryCatch (noteRun h settings clipboard)
      (fun message => notice ("Error creating note: " +:+ message)).
Proof. reflexivity. Qed.

Lemma Growing_noteRun (h : Host) (settings : ClipboardToNoteSettings)
    (clipboard : Reply string) :
  Growing (noteRun h settings clipboard).
Proof.
  unfold noteRun.
  apply Growing_bind; [apply Growing_await | intros clipboardText].
  destruct (negb (Js.truthy clipboardText)
            || String.eqb (Js.trim clipboardText) "");
    [apply Growing_notice |].
  apply Growing_bind; [apply Growing_prepare | intros prepared].
  destruct prepared as [[[[title content] tags] sourceUrl] |];
    [| apply Growing_ret].
  intros w out w' H.
  apply bind_inv in H as [(file & w1 & H1 & H) | [(msg & H1 & _) | [H1 _]]];
    try (exact (Growing_writeNote _ _ _ _ _ _ _ _ _ H1)).
  pose proof (writeNote_fresh _ _ _ _ _ _ _ _ _ H1) as Hfresh.
  apply Growing_writeNote in H1 as [Hv1 [l1 Hn1]].
  apply afterWrite_keeps in H as [[l2 Hn2] Hv2]. split.
  - now apply Hv2.
  - exists (l1 ++ l2). now rewrite Hn2, Hn1, app_assoc.
Qed.

(** A whole run keeps every entry of the vault and every notice. *)
Lemma Growing_createNoteFromClipboard (h : Host)
    (settings : ClipboardToNoteSettings) (clipboard : Reply string) :
  Growing (createNoteFromClipboard h settings clipboard).
Proof.
  rewrite createNoteFromClipboard_noteRun.
  apply Growing_tryCatch; [apply Growing_noteRun |].
  intros ?; apply Growing_notice.
Qed.

(** X1.  A run of [createNoteFromClipboard], whatever the clipboard, the
    settings and the host, and however it ends, leaves every file and
    folder that was in the vault where it was, with the content that it
    had, and keeps the notices that were shown. *)
Theorem createNoteFromClipboard_keeps_vault (h : Host)
    (settings : ClipboardToNoteSettings) (clipboard : Reply string)
    (w : World) :
  let w' := snd (createNoteFromClipboard h settings clipboard w) in
  (forall p e, vault w !! p = Some e -> vault w' !! p = Some e)
  /\ exists shown, notices w' = notices w ++ shown.
Proof.
  intros w'.
  destruct (Growing_createNoteFromClipboard h settings clipboard w
              (fst (createNoteFromClipboard h settings clipboard w)) w')
    as [Hv Hn]; [apply surjective_pairing |].
  split; [| exact Hn].
  intros p e Hp. exact (lookup_weaken _ _ _ _ Hp Hv).
Qed.

(** *** Runs: what always ends *)

Lemma Settles_ret {A : Type} (a : A) : Settles (ret a).
Proof. intros w. exists (Returns a), w. split; [reflexivity | discriminate]. Qed.

Lemma Settles_throw {A : Type} (message : string) : Settles (@throw A message).
Proof.
  intros w. exists (Throws message), w. split; [reflexivity | discriminate].
Qed.

Lemma Settles_bind {A B : Type} (m : M A) (k : A -> M B) :
  Settles m -> (forall a, Settles (k a)) -> Settles (bind m k).
Proof.
  intros Hm Hk w. destruct (Hm w) as (out & w1 & H1 & Hne). unfold bind.
  rewrite H1. destruct out as [a | message |]; [apply Hk | | congruence].
  exists (Throws message), w1. split; [reflexivity | discriminate].
Qed.

Lemma Settles_tryCatch {A : Type} (m : M A) (k : string -> M A) :
  Settles m -> (forall message, Settles (k message)) -> Settles (tryCatch m k).
Proof.
  intros Hm Hk w. destruct (Hm w) as (out & w1 & H1 & Hne). unfold tryCatch.
  rewrite H1. destruct out as [a | message |]; [| apply Hk | congruence].
  exists (Returns a), w1. split; [reflexivity | discriminate].
Qed.

Lemma Settles_await {A : Type} (r : Reply A) : Settles (await r).
Proof. destruct r; [apply Settles_ret | apply Settles_throw]. Qed.

Lemma Settles_returns {A : Type} (m : M A) :
  (forall w, exists a w', m w = (Returns a, w')) -> Settles m.
Proof.
  intros H w. destruct (H w) as (a & w' & Hw).
  exists (Returns a), w'. split; [exact Hw | discriminate].
Qed.

Lemma Settles_notice (message : string) : Settles (notice message).
Proof. apply Settles_returns. intros w. unfold notice. eauto. Qed.

Lemma Settles_newDate (h : Host) : Settles (newDate h).
Proof. apply Settles_returns. intros w. unfold newDate. eauto. Qed.

Lemma Settles_random (h : Host) (bound : nat) : Settles (random h bound).
Proof. apply Settles_returns. intros w. unfold random. eauto. Qed.

Lemma Settles_openFile (h : Host) (file : string) : Settles (openFile h file).
Proof.
  intros w. unfold openFile. destruct (openFileError h file); eexists _, _;
    (split; [reflexivity | discriminate]).
Qed.

Lemma Settles_getAbstractFileByPath (p : string) :
  Settles (getAbstractFileByPath p).
Proof. apply Settles_returns. intros w. unfold getAbstractFileByPath. eauto. Qed.

Lemma Settles_getFolders (h : Host) : Settles (getFolders h).
Proof. apply Settles_returns. intros w. unfold getFolders. eauto. Qed.

Lemma Settles_vaultWrite (refusal : option string) (p : string) (e : Entry) :
  Settles (vaultWrite refusal p e).
Proof.
  intros w. unfold vaultWrite. destruct refusal; eexists _, _;
    (split; [reflexivity | discriminate]).
Qed.

Lemma Settles_untilFree (next : nat -> string) (initial : string) :
  (forall j k, next j = next k -> j = k) -> Settles (untilFree next initial).
Proof.
  intros Hinj. apply Settles_returns. intros w.
  destruct (untilFree_finds next initial w Hinj) as (p & H & _). eauto.
Qed.

Create HintDb settles.

#[local] Hint Resolve Settles_ret Settles_throw Settles_await Settles_notice
  Settles_newDate Settles_random Settles_openFile
  Settles_getAbstractFileByPath Settles_getFolders Settles_vaultWrite
  : settles.

Ltac settles :=
  repeat first
    [ solve [auto with settles nocore]
    | simple apply Settles_bind; [| intros ?]
    | simple apply Settles_tryCatch; [| intros ?]
    | match goal with
      | |- Settles (if ?b then _ else _) => destruct b
      | |- Settles (match ?x with _ => _ end) => destruct x
      end ].

Lemma Settles_suggestTagsKeyword (h : Host) (text : string) :
  Settles (suggestTagsKeyword h text).
Proof. unfold suggestTagsKeyword. cbv zeta. settles. Qed.

#[local] Hint Resolve Settles_suggestTagsKeyword : settles.

Lemma Settles_suggestTagsOpenAI (h : Host) (settings : ClipboardToNoteSettings)
    (text : string) :
  Settles (suggestTagsOpenAI h settings text).
Proof. unfold suggestTagsOpenAI. cbv zeta. settles. Qed.

#[local] Hint Resolve Settles_suggestTagsOpenAI : settles.

Lemma Settles_fetchURLContent (h : Host) (url : string) :
  Settles (fetchURLContent h url).
Proof. unfold fetchURLContent. cbv zeta. settles. Qed.

#[local] Hint Resolve Settles_fetchURLContent : settles.

Lemma Settles_ensureFolderExists (h : Host) (folderPath : string) :
  Settles (ensureFolderExists h folderPath).
Proof. unfold ensureFolderExists, createFolder. cbv zeta. settles. Qed.

#[local] Hint Resolve Settles_ensureFolderExists : settles.

Lemma Settles_placeNote (h : Host) (settings : ClipboardToNoteSettings)
    (title fullContent : string) :
  CounterInjective h -> Settles (placeNote h settings title fullContent).
Proof.
  intros Hinj. unfold placeNote, create. cbv zeta.
  apply Settles_bind; [| intros ?; settles].
  apply Settles_untilFree. exact (noteCandidate_inj h settings title Hinj).
Qed.

#[local] Hint Resolve Settles_placeNote : settles.

Lemma Settles_placeImage (h : Host) (attachmentFolder filename : string)
    (buffer : list Byte.byte) :
  CounterInjective h ->
  Settles (placeImage h attachmentFolder filename buffer).
Proof.
  intros Hinj. unfold placeImage, createBinary. cbv zeta.
  apply Settles_bind; [| intros ?; settles].
  apply Settles_untilFree.
  exact (imageCandidate_inj h attachmentFolder filename Hinj).
Qed.

#[local] Hint Resolve Settles_placeImage : settles.

Lemma Settles_downloadImage (h : Host) (imageUrl filename notePath : string) :
  CounterInjective h -> Settles (downloadImage h imageUrl filename notePath).
Proof. intros Hinj. unfold downloadImage. cbv zeta. settles. Qed.

#[local] Hint Resolve Settles_downloadImage : settles.

Lemma Settles_createYamlFrontmatter (h : Host) (tags : list string)
    (sourceUrl : option string) :
  Settles (createYamlFrontmatter h tags sourceUrl).
Proof. unfold createYamlFrontmatter. cbv zeta. settles. Qed.

#[local] Hint Resolve Settles_createYamlFrontmatter : settles.

Lemma Settles_generateImagePrefix (h : Host) : Settles (generateImagePrefix h).
Proof. unfold generateImagePrefix. cbv zeta. settles. Qed.

#[local] Hint Resolve Settles_generateImagePrefix : settles.

Lemma Settles_localizeStep (h : Host) (notePath prefix : string)
    (replacements : list (string * string)) (m : string * string) :
  CounterInjective h ->
  Settles (localizeStep h notePath prefix replacements m).
Proof.
  intros Hinj. unfold localizeStep. destruct m as [alt imageUrl]. cbv zeta.
  settles.
Qed.

Lemma Settles_forEachMatch (h : Host) (notePath prefix : string)
    (matches : list (string * string)) :
  CounterInjective h ->
  forall replacements,
    Settles (forEachMatch (localizeStep h notePath prefix) matches
               replacements).
Proof.
  intros Hinj. induction matches as [|m matches IH]; intros replacements;
    cbn [forEachMatch]; [apply Settles_ret |].
  apply Settles_bind; [now apply Settles_localizeStep | intros r; apply IH].
Qed.

Lemma Settles_downloadImagesInContent (h : Host)
    (markdownContent baseUrl notePath prefix : string) :
  CounterInjective h ->
  Settles (downloadImagesInContent h markdownContent baseUrl notePath prefix).
Proof.
  intros Hinj. unfold downloadImagesInContent.
  apply Settles_bind; [now apply Settles_forEachMatch | intros r; settles].
Qed.

#[local] Hint Resolve Settles_downloadImagesInContent : settles.

Lemma Settles_prepare (h : Host) (settings : ClipboardToNoteSettings)
    (clipboardText : string) :
  Settles (prepare h settings clipboardText).
Proof. unfold prepare. cbv zeta. settles. Qed.

#[local] Hint Resolve Settles_prepare : settles.

Lemma Settles_writeNote (h : Host) (settings : ClipboardToNoteSettings)
    (title content : string) (tags : list string)
    (sourceUrl : option string) :
  CounterInjective h ->
  Settles (writeNote h settings title content tags sourceUrl).
Proof. intros Hinj. unfold writeNote. cbv zeta. settles. Qed.

#[local] Hint Resolve Settles_writeNote : settles.

Lemma Settles_rewriteWithImages (h : Host) (settings : ClipboardToNoteSettings)
    (content : string) (tags : list string) (sourceUrl : option string)
    (file : string) :
  CounterInjective h ->
  Settles (rewriteWithImages h settings content tags sourceUrl file).
Proof. intros Hinj. unfold rewriteWithImages, modify. cbv zeta. settles. Qed.

#[local] Hint Resolve Settles_rewriteWithImages : settles.

Lemma Settles_noteRun (h : Host) (settings : ClipboardToNoteSettings)
    (clipboard : Reply string) :
  CounterInjective h -> Settles (noteRun h settings clipboard).
Proof. intros Hinj. unfold noteRun. settles. Qed.

Lemma ret_inv {A : Type} (a : A) (w w' : World) (out : Outcome A) :
  ret a w = (out, w') -> out = Returns a /\ w' = w.
Proof. intros H. now injection H as <- <-. Qed.

Lemma notice_inv (message : string) (w w' : World) (out : Outcome unit) :
  notice message w = (out, w') ->
  notices w' = notices w ++ [message] /\ vault w' = vault w
  /\ opened w' = opened w /\ dateReads w' = dateReads w.
Proof. intros H. injection H as _ <-. now repeat split. Qed.

(** Inversion of a bind that returns. *)
Ltac bind_returns H a w1 H1 :=
  apply bind_inv in H as [(a & w1 & H1 & H) | [(? & _ & H) | [_ H]]];
  [| discriminate H | discriminate H].

(** When the first part of a run gives nothing to write, the last notice
    is the failure of the fetch. *)
Lemma prepare_None (h : Host) (settings : ClipboardToNoteSettings)
    (clipboardText : string) (w w' : World) :
  prepare h settings clipboardText w = (Returns None, w') ->
  exists shown reason,
    notices w' = notices w ++ shown ++ ["Failed to fetch URL: " +:+ reason].
Proof.
  unfold prepare. destruct (isURL clipboardText); cbv zeta; intros H.
  - bind_returns H u w1 H1. apply Growing_notice in H1 as [_ [l1 Hn1]].
    apply tryCatch_inv in H as [(msg & w2 & H2 & H) | [H _]].
    + assert (G : Growing
                  (page <- fetchURLContent h (Js.trim clipboardText) ;;
                   let '(pageTitle, pageContent, _) := page in
                   content <- ret (convertRelativeImageUrls h pageContent
                                     (Js.trim clipboardText)) ;;
                   tags <- (if useOpenAI settings
                            then suggestTagsOpenAI h settings pageContent
                            else suggestTagsKeyword h pageContent) ;;
                   notice "URL content fetched successfully" ;;;
                   ret (Some (pageTitle, content, tags,
                              Some (Js.trim clipboardText)) : Prepared))).
      { apply Growing_bind; [growing | intros [[pageTitle pageContent] html]].
        growing. }
      apply G in H2 as [_ [l2 Hn2]].
      bind_returns H u' w3 H3. apply ret_inv in H as [_ ->].
      apply notice_inv in H3 as [Hn3 _].
      exists (l1 ++ l2), msg. now rewrite Hn3, Hn2, Hn1, <- !app_assoc.
    + exfalso. bind_returns H page w2 H2.
      destruct page as [[pageTitle pageContent] html].
      bind_returns H content w3 H3. bind_returns H tags w4 H4.
      bind_returns H u' w5 H5. apply ret_inv in H as [H _]. discriminate H.
  - exfalso. bind_returns H u w1 H1. bind_returns H title w2 H2.
    bind_returns H tags w3 H3. apply ret_inv in H as [H _]. discriminate H.
Qed.

(** A run whose body returns ends with one of three notices. *)
Lemma noteRun_final (h : Host) (settings : ClipboardToNoteSettings)
    (clipboard : Reply string) (w w' : World) :
  noteRun h settings clipboard w = (Returns tt, w') ->
  exists shown last,
    notices w' = notices w ++ shown ++ [last] /\ FinalNotice settings last.
Proof.
  unfold noteRun. intros H. bind_returns H clipboardText w1 H1.
  assert (w1 = w) as ->.
  { destruct clipboard; [now injection H1 | discriminate H1]. }
  destruct (negb (Js.truthy clipboardText)
            || String.eqb (Js.trim clipboardText) "").
  - apply notice_inv in H as [Hn _]. exists [], "Clipboard is empty"%string.
    split; [exact Hn | now left].
  - bind_returns H prepared w2 H2.
    destruct prepared as [[[[title content] tags] sourceUrl] |].
    + apply Growing_prepare in H2 as [_ [l2 Hn2]].
      bind_returns H file w3 H3.
      apply Growing_writeNote in H3 as [_ [l3 Hn3]].
      bind_returns H u w4 H4.
      apply rewriteWithImages_keeps in H4 as [[l4 Hn4] _].
      bind_returns H u' w5 H5. apply Growing_openFile in H5 as [_ [l5 Hn5]].
      apply notice_inv in H as [Hn _].
      exists (l2 ++ l3 ++ l4 ++ l5). eexists. split.
      * rewrite Hn, Hn5, Hn4, Hn3, Hn2, <- !app_assoc. reflexivity.
      * right. right. right. now exists (basename file).
    + apply ret_inv in H as [_ ->].
      destruct (prepare_None _ _ _ _ _ H2) as (shown & reason & Hn).
      exists shown. eexists. split; [exact Hn |]. right. left. now exists reason.
Qed.

(** X2.  With a host whose [normalizePath] keeps counters apart, a run of
    [createNoteFromClipboard] always returns: no error escapes it and its
    searches for a free path end.  The last notice it shows is one of
    four: the clipboard is empty, the fetch of the URL failed, an error
    while the note was created, or the note was created, with the name of
    the file and the inbox folder. *)
Theorem createNoteFromClipboard_final_notice (h : Host)
    (settings : ClipboardToNoteSettings) (clipboard : Reply string)
    (w : World) :
  CounterInjective h ->
  exists w' shown last,
    createNoteFromClipboard h settings clipboard w = (Returns tt, w')
    /\ notices w' = notices w ++ shown ++ [last]
    /\ FinalNotice settings last.
Proof.
  intros Hinj. rewrite createNoteFromClipboard_noteRun. unfold tryCatch.
  destruct (Settles_noteRun h settings clipboard Hinj w)
    as (out & w1 & H & Hne).
  rewrite H. destruct out as [[] | message |]; [| | congruence].
  - destruct (noteRun_final _ _ _ _ _ H) as (shown & last & Hn & Hf).
    now exists w1, shown, last.
  - apply Growing_noteRun in H as [_ [l Hn]].
    eexists _, l, _. split; [reflexivity |]. split.
    + cbn [notices]. rewrite Hn, <- app_assoc. reflexivity.
    + right. right. left. now exists message.
Qed.

Lemma createNoteFromClipboard_final_notice_witness :
  CounterInjective webHost
  /\ exists w' shown last,
       createNoteFromClipboard webHost downloadingSettings
         (Done "https://site.com/page") (startWorld ∅)
       = (Returns tt, w')
       /\ notices w' = notices (startWorld ∅) ++ shown ++ [last]
       /\ FinalNotice downloadingSettings last.
Proof.
  assert (Hinj : CounterInjective webHost)
    by (apply identity_CounterInjective; reflexivity).
  split; [exact Hinj |].
  exact (createNoteFromClipboard_final_notice webHost downloadingSettings
           (Done "https://site.com/page") (startWorld ∅) Hinj).
Defined.

(** *** Runs that write nothing *)

Lemma withNotices_app (w : World) (a b : list string) :
  withNotices (withNotices w a) b = withNotices w (a ++ b).
Proof. unfold withNotices. cbn. now rewrite app_assoc. Qed.

Lemma blank_test (s : string) :
  negb (Js.truthy s) || String.eqb (Js.trim s) ""
  = String.eqb (Js.trim s) "".
Proof. destruct s; reflexivity. Qed.

(** Every failure of the fetch is thrown again with the same prefix. *)
Lemma fetchURLContent_fails (h : Host) (url reason : string) (w : World) :
  FetchFails h url reason ->
  fetchURLContent h url w = (Throws ("Failed to fetch URL: " +:+ reason), w).
Proof.
  intros Hf. unfold fetchURLContent, tryCatch, bind at 1, await.
  destruct Hf as [m Hr | r Hr Hs | r Hr Hs Hb | r m Hr Hs Hb Ht]; rewrite Hr.
  - reflexivity.
  - unfold ret at 1. apply Z.eqb_neq in Hs. rewrite Hs. reflexivity.
  - unfold ret at 1. rewrite Hs. cbn [Z.eqb Pos.eqb negb]. cbv zeta.
    rewrite blank_test, Hb. reflexivity.
  - unfold ret at 1. rewrite Hs. cbn [Z.eqb Pos.eqb negb]. cbv zeta.
    rewrite blank_test. apply String.eqb_neq in Hb. rewrite Hb.
    unfold bind, await. rewrite Ht. reflexivity.
Qed.

(** X3.  A run of [createNoteFromClipboard] writes nothing, opens nothing
    and only shows notices in three cases: when the clipboard cannot be
    read, the notice is the error; when the text of the clipboard is
    empty or white space, the notice says that the clipboard is empty;
    when the text is a URL whose fetch fails, the notice of the failure
    follows the notice of the fetch, and it carries the prefix of the
    failure twice, once from [fetchURLContent] and once from the run. *)
Theorem createNoteFromClipboard_writes_nothing (h : Host)
    (settings : ClipboardToNoteSettings) (w : World) :
  (forall message,
     createNoteFromClipboard h settings (Failed message) w
     = (Returns tt, withNotices w ["Error creating note: " +:+ message]))
  /\ (forall clipboardText,
        Js.trim clipboardText = "" ->
        createNoteFromClipboard h settings (Done clipboardText) w
        = (Returns tt, withNotices w ["Clipboard is empty"]))
  /\ (forall clipboardText reason,
        isURL clipboardText = true ->
        FetchFails h (Js.trim clipboardText) reason ->
        createNoteFromClipboard h settings (Done clipboardText) w
        = (Returns tt,
           withNotices w
             ["Fetching content from URL...";
              "Failed to fetch URL: Failed to fetch URL: " +:+ reason])).
Proof.
  split; [reflexivity |]. split.
  - intros clipboardText Hb.
    unfold createNoteFromClipboard, tryCatch, bind, await, ret.
    rewrite blank_test, Hb. reflexivity.
  - intros clipboardText reason Hu Hf.
    assert (Hb : String.eqb (Js.trim clipboardText) "" = false).
    { apply isURL_truthy in Hu. now destruct (Js.trim clipboardText). }
    unfold createNoteFromClipboard, tryCatch at 1, bind at 1, await, ret at 1.
    rewrite blank_test, Hb. unfold bind at 1, prepare. rewrite Hu. cbv zeta.
    unfold bind at 1.
    change (notice "Fetching content from URL..." w)
      with (Returns tt, withNotices w ["Fetching content from URL..."]).
    unfold tryCatch, bind at 1.
    rewrite (fetchURLContent_fails h _ reason _ Hf).
    unfold bind, notice, ret. cbn [vault dateReads randomReads notices opened
                                     withNotices].
    rewrite <- app_assoc. reflexivity.
Qed.

Lemma createNoteFromClipboard_writes_nothing_witness :
  isURL "https://site.com/missing" = true
  /\ FetchFails webHost (Js.trim "https://site.com/missing")
       "HTTP 404: Failed to fetch URL"
  /\ createNoteFromClipboard webHost DEFAULT_SETTINGS
       (Done "https://site.com/missing") (startWorld ∅)
     = (Returns tt,
        withNotices (startWorld ∅)
          ["Fetching content from URL...";
           "Failed to fetch URL: Failed to fetch URL: "
           +:+ "HTTP 404: Failed to fetch URL"]).
Proof.
  assert (Hu : isURL "https://site.com/missing" = true) by reflexivity.
  assert (Hf : FetchFails webHost (Js.trim "https://site.com/missing")
                 "HTTP 404: Failed to fetch URL").
  { apply (StatusNot200 webHost _
             {| status := 404; text := "Not Found"; arrayBuffer := [] |});
      [reflexivity | discriminate]. }
  split; [exact Hu |]. split; [exact Hf |].
  exact (proj2 (proj2 (createNoteFromClipboard_writes_nothing webHost
                         DEFAULT_SETTINGS (startWorld ∅)))
           "https://site.com/missing" _ Hu Hf).
Defined.

(** *** Runs that write the note once *)






(** A run on a host that does not open the note: the note is written,
    nothing is opened, and the last notice is the error. *)
Example createNoteFromClipboard_open_refused :
  let run := createNoteFromClipboard lockedHost DEFAULT_SETTINGS
               (Done "Hello") (startWorld ∅) in
  fst run = Returns tt
  /\ opened (snd run) = None
  /\ notices (snd run)
     = ["Processing clipboard content...";
        "Error creating note: cannot open"]%string
  /\ is_Some (vault (snd run) !! "Inbox/Hello.md"%string).
Proof. vm_compute. repeat split; eauto. Qed.


(** *** [formatMarkdown] *)

Lemma demoteH1_unfold (b : bool) (c d : ascii) (s : string) :
  demoteH1 b (String c (String d s))
  = if b && Ascii.eqb c "#" && Ascii.eqb d " " then
      String "#" (String "#" (String " " (demoteH1 false s)))
    else String c (demoteH1 (Js.isLineTerminator c) (String d s)).
Proof. reflexivity. Qed.

Lemma demoteH1_head (d : ascii) (s : string) :
  exists t, demoteH1 false (String d s) = String d t.
Proof. destruct s as [|e s]; [now exists ""%string |]. rewrite demoteH1_unfold. cbn [andb]. eauto. Qed.

(** Where a hash sign and a space are in the text after the level-one
    headings are demoted: at the start only if the text does not start a
    line, and otherwise after a character that does not end a line. *)
Lemma demoteH1_marks (n : nat) :
  forall (s : string) (b : bool) (a r : string),
    (String.length s <= n)%nat ->
    demoteH1 b s = a +:+ "# " +:+ r ->
    (a = "" /\ b = false)
    \/ (exists a' c, a = a' +:+ Js.chr c /\ Js.isLineTerminator c = false).
Proof.
  induction n as [|n IH]; intros s b a r Hn H.
  - destruct s; [| simpl in Hn; lia]. destruct a; discriminate H.
  - destruct s as [|c [|d s]].
    + destruct a; discriminate H.
    + destruct a as [|x [|y a]]; discriminate H.
    + rewrite demoteH1_unfold in H. simpl in Hn.
      destruct (b && Ascii.eqb c "#" && Ascii.eqb d " ") eqn:E.
      * destruct a as [|x [|y [|z a]]]; cbn [String.append] in H.
        -- discriminate H.
        -- injection H as <- _. right. exists ""%string, "#"%char.
           now split.
        -- injection H as _ _ H. discriminate H.
        -- injection H as <- <- <- H.
           apply IH in H as [[-> _] | (a' & e & -> & He)]; [| | lia].
           ++ right. exists "##"%string, " "%char. now split.
           ++ right. exists ("## " +:+ a'), e. now split.
      * destruct a as [|x a]; cbn [String.append] in H.
        -- injection H as -> H. left. split; [reflexivity |].
           destruct (demoteH1_head d s) as [t Ht].
           change (demoteH1 false (String d s) = String " " r) in H.
           rewrite Ht in H. injection H as -> _.
           rewrite !Ascii.eqb_refl, !andb_true_r in E. exact E.
        -- injection H as <- H.
           change (demoteH1 (Js.isLineTerminator c) (String d s)
                   = a +:+ "# " +:+ r) in H.
           apply IH in H as [[-> Hc] | (a' & e & -> & He)]; [| | simpl; lia].
           ++ right. exists ""%string, c. now split.
           ++ right. exists (String c a'), e. now split.
Qed.

(** X5.  In the text that [formatMarkdown] returns, a hash sign followed
    by a space is never at the start of the text or of a line: the
    character before it is there and is neither a line feed nor a
    carriage return.  So no line of the note body is a level-one
    heading. *)
Theorem formatMarkdown_no_h1 (text title before after : string) :
  formatMarkdown text title = before +:+ "# " +:+ after ->
  exists before' c,
    before = before' +:+ Js.chr c /\ Js.isLineTerminator c = false.
Proof.
  unfold formatMarkdown. cbv zeta. intros H.
  eapply demoteH1_marks in H as [[_ H] | H]; [discriminate H | exact H |].
  apply Nat.le_refl.
Qed.

Lemma formatMarkdown_no_h1_witness :
  formatMarkdown ("# Plan" +:+ Js.chr Js.nl +:+ "# Steps" +:+ Js.chr Js.nl
                  +:+ "text") "Notes"
  = ("## Plan" +:+ Js.chr Js.nl +:+ "#") +:+ "# " +:+ ("Steps"
     +:+ Js.chr Js.nl +:+ "text")
  /\ exists before' c,
       "## Plan" +:+ Js.chr Js.nl +:+ "#" = before' +:+ Js.chr c
       /\ Js.isLineTerminator c = false.
Proof.
  assert (H : formatMarkdown ("# Plan" +:+ Js.chr Js.nl +:+ "# Steps"
                              +:+ Js.chr Js.nl +:+ "text") "Notes"
              = ("## Plan" +:+ Js.chr Js.nl +:+ "#") +:+ "# "
                +:+ ("Steps" +:+ Js.chr Js.nl +:+ "text"))
    by (vm_compute; reflexivity).
  split; [exact H |].
  exact (formatMarkdown_no_h1 _ _ _ _ H).
Defined.

(** The parts of a line: what [trimStart], [trimEnd], [dropHashes] and
    [stripEllipsis] cut off. *)
Lemma firstLine_split (t : string) : exists tail, t = firstLine t +:+ tail.
Proof.
  induction t as [|c t [tail IH]]; [now exists ""%string |].
  rewrite firstLine_cons. destruct (Ascii.eqb c Js.nl).
  - now exists (String c t).
  - exists tail. cbn [String.append]. now rewrite <- IH.
Qed.

Lemma trimStart_split (s : string) :
  exists ws,
    s = ws +:+ Js.trimStart s /\ allChars Js.isWhiteSpace ws = true.
Proof.
  induction s as [|c s (ws & IH & Ha)]; [now exists ""%string |].
  cbn [Js.trimStart]. destruct (Js.isWhiteSpace c) eqn:E.
  - exists (String c ws). split; [cbn [String.append]; now f_equal |].
    cbn [allChars]. now rewrite E, Ha.
  - now exists ""%string.
Qed.

Lemma trimEnd_split (s : string) :
  exists ws, s = Js.trimEnd s +:+ ws /\ allChars Js.isWhiteSpace ws = true.
Proof.
  induction s as [|c s (ws & IH & Ha)]; [now exists ""%string |].
  rewrite trimEnd_cons. destruct (Js.trimEnd s) as [|d u] eqn:E.
  - cbn [Js.truthy]. cbn [String.append] in IH.
    destruct (Js.isWhiteSpace c) eqn:W.
    + exists (String c ws). split; [cbn [String.append]; now f_equal |].
      cbn [allChars]. now rewrite W, Ha.
    + exists ws. split; [| exact Ha].
      unfold Js.chr. cbn [String.append]. now f_equal.
  - cbn [Js.truthy]. exists ws. split; [| exact Ha].
    cbn [String.append]. now f_equal.
Qed.

Lemma substring_0_split (m : nat) (s : string) :
  exists q, s = String.substring 0 m s +:+ q.
Proof.
  revert s; induction m as [|m IH]; intros [|c s]; cbn [String.substring].
  - now exists ""%string.
  - now exists (String c s).
  - now exists ""%string.
  - destruct (IH s) as [q Hq]. exists q. cbn [String.append].
    now rewrite <- Hq.
Qed.

Lemma stripEllipsis_split (s : string) : exists q, s = stripEllipsis s +:+ q.
Proof.
  unfold stripEllipsis. destruct (Js.endsWith s "...");
    [| exists ""%string; now rewrite str_app_nil_r].
  unfold Js.substring, Js.clampIndex.
  replace (Z.to_nat (Z.min (Z.max 0 0) (Z.of_nat (String.length s))))
    with 0%nat by lia.
  rewrite Nat.min_0_l, Nat.max_0_l, Nat.sub_0_r.
  apply substring_0_split.
Qed.

Lemma trimStart_head (s : string) :
  match Js.trimStart s with
  | String c _ => Js.isWhiteSpace c = false
  | EmptyString => True
  end.
Proof.
  induction s as [|c s IH]; [exact I |]. cbn [Js.trimStart].
  destruct (Js.isWhiteSpace c) eqn:E; [exact IH | exact E].
Qed.

(** The head of the trimmed text is the head of the text whose start is
    trimmed. *)
Lemma trimEnd_head (c : ascii) (s : string) :
  Js.isWhiteSpace c = false ->
  exists t, Js.trimEnd (String c s) = String c t.
Proof.
  intros W. rewrite trimEnd_cons. destruct (Js.trimEnd s) as [|d u].
  - cbn [Js.truthy]. rewrite W. now exists ""%string.
  - cbn [Js.truthy]. eauto.
Qed.

(** A line is hash signs, white space, its cleaned text, white space. *)
Lemma cleaned_split (line : string) :
  let cleaned := Js.trim (stripHeading line) in
  cleaned <> "" ->
  exists hashes ws1 ws2 c rest,
    line = hashes +:+ ws1 +:+ cleaned +:+ ws2
    /\ allChars (fun c => Ascii.eqb c "#") hashes = true
    /\ allChars Js.isWhiteSpace ws1 = true
    /\ cleaned = String c rest
    /\ Js.isWhiteSpace c = false
    /\ (ws1 = "" -> Ascii.eqb c "#" = false).
Proof.
  intros cleaned Hne.
  assert (Hc : cleaned = Js.trim (dropHashes line)).
  { unfold cleaned. rewrite trim_stripHeading.
    now rewrite dropHashes_trimEnd, trim_trimEnd. }
  destruct (dropHashes_split line) as (hashes & Hl & Hh & Hn).
  set (u := dropHashes line) in *.
  destruct (trimStart_split u) as (ws1 & Hu & Hw1).
  destruct (trimEnd_split (Js.trimStart u)) as (ws2 & Hv & Hw2).
  fold (Js.trim u) in Hv. rewrite <- Hc in Hv.
  pose proof (trimStart_head u) as Hhead.
  destruct (Js.trimStart u) as [|c v] eqn:Ev.
  { exfalso. apply Hne. rewrite Hc. unfold Js.trim. now rewrite Ev. }
  destruct (trimEnd_head c v Hhead) as [rest Hrest].
  assert (Hcl : cleaned = String c rest).
  { rewrite Hc. unfold Js.trim. now rewrite Ev. }
  exists hashes, ws1, ws2, c, rest. repeat split; try assumption.
  - rewrite Hl at 1. rewrite Hu at 1. now rewrite Hv.
  - intros ->. cbn [String.append] in Hu. rewrite Hu in Hn.
    unfold Js.startsWith in Hn. cbn [Js.stripPrefix] in Hn.
    rewrite Ascii.eqb_sym. now destruct (Ascii.eqb "#" c).
Qed.

Lemma stripPrefixCI_app (p r : string) : stripPrefixCI p (p +:+ r) = Some r.
Proof.
  induction p as [|a p IH]; [reflexivity |].
  cbn [String.append stripPrefixCI]. now rewrite Ascii.eqb_refl.
Qed.

Lemma matchTitleAfterSpace_run (title ws x rest : string) :
  allChars Js.isWhiteSpace ws = true ->
  match x with
  | String c _ => Js.isWhiteSpace c = false
  | EmptyString => True
  end ->
  stripPrefixCI title x = Some rest ->
  matchTitleAfterSpace title (ws +:+ x) = Some rest.
Proof.
  intros Hw Hx Hs. induction ws as [|c ws IH]; cbn [String.append].
  - destruct x as [|c x]; [exact Hs |].
    cbn [matchTitleAfterSpace]. now rewrite Hx.
  - cbn [allChars] in Hw. apply andb_true_iff in Hw as [Hc Hw].
    cbn [matchTitleAfterSpace]. now rewrite Hc, (IH Hw).
Qed.

Lemma matchTitlePattern_run (title hashes y rest : string) :
  allChars (fun c => Ascii.eqb c "#") hashes = true ->
  match y with
  | String c _ => Ascii.eqb c "#" = false
  | EmptyString => True
  end ->
  matchTitleAfterSpace title y = Some rest ->
  matchTitlePattern title (hashes +:+ y) = Some rest.
Proof.
  intros Hh Hy Hs. induction hashes as [|c hs IH]; cbn [String.append].
  - destruct y as [|c y]; [exact Hs |].
    cbn [matchTitlePattern]. now rewrite Hy.
  - cbn [allChars] in Hh. apply andb_true_iff in Hh as [Hc Hh].
    cbn [matchTitlePattern]. now rewrite Hc, (IH Hh).
Qed.

Lemma hash_not_white (c : ascii) :
  Js.isWhiteSpace c = true -> Ascii.eqb c "#" = false.
Proof.
  destruct (Ascii.eqb c "#") eqn:E; [| reflexivity].
  apply Ascii.eqb_eq in E as ->. discriminate.
Qed.


Lemma allChars_impl (f g : ascii -> bool) (s : string) :
  (forall c, f c = true -> g c = true) ->
  allChars f s = true -> allChars g s = true.
Proof.
  intros Hfg. induction s as [|c s IH]; [reflexivity |].
  cbn [allChars]. intros [Hc Hs]%andb_true_iff.
  now rewrite (Hfg c Hc), (IH Hs).
Qed.

(** The escaped title of a title that [generateTitle] made starts the
    cleaned line. *)
Lemma escapedTitle_split (text : string) :
  let cleaned :=
    Js.trim (stripHeading (hd EmptyString (Js.split Js.nl (Js.trim text)))) in
  cleaned <> "" ->
  exists q, cleaned = stripEllipsis (generateTitle text) +:+ q.
Proof.
  intros cleaned Hne. unfold generateTitle. cbv zeta. fold cleaned.
  destruct (50 <? String.length cleaned)%nat eqn:E.
  - rewrite stripEllipsis_app. apply Nat.ltb_lt in E.
    change (Js.substring cleaned 0 50)
      with (Js.substring cleaned 0 (Z.of_nat 50%nat)).
    rewrite (js_substring_0 cleaned 50) by lia.
    unfold Js.trim at 1. rewrite trimStart_substring
      by (unfold cleaned; apply trimStart_trim).
    destruct (trimEnd_split (String.substring 0 50 cleaned)) as (ws & Hp & _).
    destruct (substring_0_split 50 cleaned) as [q Hq].
    exists (ws +:+ q). rewrite <- str_app_assoc, <- Hp. exact Hq.
  - destruct cleaned; [congruence |]. cbn [Js.truthy].
    apply stripEllipsis_split.
Qed.

(** X6.  For a text whose first line that is not blank has more than
    hash signs and white space, the body that [formatMarkdown] makes with
    the title of [generateTitle] does not repeat the title: the trimmed
    text is hash signs and white space, then the title without the three
    dots at its end, then a rest, and the body is that rest, trimmed,
    with its level-one headings demoted. *)
Theorem formatMarkdown_cuts_title (text : string) :
  strippedLine text <> "" ->
  exists lead rest,
    Js.trim text = lead +:+ stripEllipsis (generateTitle text) +:+ rest
    /\ allChars (fun c => Ascii.eqb c "#" || Js.isWhiteSpace c) lead = true
    /\ formatMarkdown text (generateTitle text)
       = demoteH1 true (Js.trim rest).
Proof.
  intros Hne. rewrite <- cleaned_strippedLine in Hne.
  fold (firstLine (Js.trim text)) in Hne.
  destruct (escapedTitle_split text Hne) as [q Hq].
  destruct (cleaned_split (firstLine (Js.trim text)) Hne)
    as (hashes & ws1 & ws2 & c & rest0 & Hl & Hh & Hw & Hc & Hcw & Hch).
  destruct (firstLine_split (Js.trim text)) as [tail Ht].
  set (cleaned := Js.trim (stripHeading (firstLine (Js.trim text)))) in *.
  set (escaped := stripEllipsis (generateTitle text)) in *.
  change (cleaned = escaped +:+ q) in Hq.
  assert (Htext : Js.trim text
                  = hashes +:+ ws1 +:+ escaped +:+ (q +:+ ws2 +:+ tail)).
  { rewrite Ht at 1. rewrite Hl at 1. rewrite Hq at 1.
    now rewrite !str_app_assoc. }
  exists (hashes +:+ ws1), (q +:+ ws2 +:+ tail). split; [| split].
  - now rewrite str_app_assoc.
  - rewrite allChars_app. apply andb_true_iff. split.
    + revert Hh. apply allChars_impl. intros a ->. reflexivity.
    + revert Hw. apply allChars_impl. intros a ->. apply orb_true_r.
  - unfold formatMarkdown. cbv zeta. fold escaped.
    assert (Hx : escaped +:+ (q +:+ ws2 +:+ tail)
                 = String c (rest0 +:+ ws2 +:+ tail)).
    { rewrite <- str_app_assoc, <- Hq, Hc. reflexivity. }
    assert (Hm : matchTitlePattern escaped (Js.trim text)
                 = Some (q +:+ ws2 +:+ tail)).
    { rewrite Htext. apply matchTitlePattern_run; [exact Hh | |].
      - destruct ws1 as [|d ws1].
        + cbn [String.append]. rewrite Hx. now apply Hch.
        + cbn [String.append]. cbn [allChars] in Hw.
          apply andb_true_iff in Hw as [Hd _]. now apply hash_not_white.
      - apply matchTitleAfterSpace_run; [exact Hw | |].
        + rewrite Hx. exact Hcw.
        + apply stripPrefixCI_app. }
    now rewrite Hm.
Qed.

Lemma formatMarkdown_cuts_title_witness :
  let text := ("## Meeting notes" +:+ Js.chr Js.nl +:+ "# Agenda"
               +:+ Js.chr Js.nl +:+ "budget")%string in
  strippedLine text <> ""
  /\ generateTitle text = "Meeting notes"%string
  /\ formatMarkdown text (generateTitle text)
     = ("## Agenda" +:+ Js.chr Js.nl +:+ "budget")%string
  /\ exists lead rest,
       Js.trim text = lead +:+ stripEllipsis (generateTitle text) +:+ rest
       /\ allChars (fun c => Ascii.eqb c "#" || Js.isWhiteSpace c) lead = true
       /\ formatMarkdown text (generateTitle text)
          = demoteH1 true (Js.trim rest).
Proof.
  intros text.
  assert (Hne : strippedLine text <> "") by (vm_compute; discriminate).
  split; [exact Hne |]. split; [vm_compute; reflexivity |].
  split; [vm_compute; reflexivity |].
  exact (formatMarkdown_cuts_title text Hne).
Defined.


(** *** The file name of a note made from text *)

Lemma sanitize_length (name : string) :
  String.length (sanitize name) = String.length name.
Proof.
  unfold sanitize. induction name as [|c name IH]; [reflexivity |].
  simpl. now rewrite IH.
Qed.

Lemma sanitize_safe (name : string) (i : nat) (c : ascii) :
  String.get i (sanitize name) = Some c -> isUnsafe c = false.
Proof.
  rewrite sanitize_get. destruct (String.get i name) as [d|]; [| discriminate].
  intros H. injection H as <-.
  destruct (isUnsafe d) eqn:E; [reflexivity | exact E].
Qed.

Lemma trimEnd_length (s : string) :
  (String.length (Js.trimEnd s) <= String.length s)%nat.
Proof.
  destruct (trimEnd_split s) as (ws & Hs & _). rewrite Hs at 2.
  rewrite str_length_app. lia.
Qed.

Lemma trim_length (s : string) :
  (String.length (Js.trim s) <= String.length s)%nat.
Proof.
  unfold Js.trim. pose proof (trimEnd_length (Js.trimStart s)).
  pose proof (trimStart_length s). lia.
Qed.

Lemma generateTitle_length (text : string) :
  (1 <= String.length (generateTitle text) <= 53)%nat.
Proof.
  unfold generateTitle. cbv zeta.
  set (cleaned := Js.trim (stripHeading _)).
  destruct (50 <? String.length cleaned)%nat eqn:E.
  - apply Nat.ltb_lt in E. rewrite str_length_app.
    change (Js.substring cleaned 0 50)
      with (Js.substring cleaned 0 (Z.of_nat 50%nat)).
    rewrite (js_substring_0 cleaned 50) by lia.
    pose proof (trim_length (String.substring 0 50 cleaned)) as Hl.
    rewrite substring_0_length in Hl. simpl String.length at 2 4. lia.
  - apply Nat.ltb_ge in E. destruct cleaned; simpl in *; lia.
Qed.

(** X7.  The file name of a note made from text, which is the title of
    [generateTitle] with its unsafe characters replaced, has from 1 to 53
    characters, and none of them is a backslash, a slash, a colon, a
    star, a question mark, a double quote, a less or greater sign or a
    bar: the name is never empty and never names a path below or above
    the inbox folder. *)
Theorem noteFileName_safe (text : string) :
  let name := sanitize (generateTitle text) in
  (1 <= String.length name <= 53)%nat
  /\ (forall i c, String.get i name = Some c -> isUnsafe c = false)
  /\ Js.includes name "/" = false.
Proof.
  intros name. split; [| split].
  - unfold name. rewrite sanitize_length. apply generateTitle_length.
  - intros i c. apply sanitize_safe.
  - unfold name. generalize (generateTitle text). intros s.
    change "/"%string with (Js.chr "/").
    unfold sanitize. induction s as [|c s IH]; [reflexivity |].
    cbn [Js.replaceClass]. rewrite includes_char_cons, IH, orb_false_r.
    destruct (isUnsafe c) eqn:E; [reflexivity |].
    destruct (Ascii.eqb "/" c) eqn:E'; [| reflexivity].
    apply Ascii.eqb_eq in E' as <-. discriminate E.
Qed.

(** *** The tags *)

Lemma candidates_In (folders : list TFolder) (text : string) (t : Tag) :
  In t (candidates folders text) ->
  exists f,
    In f folders /\ isRoot (path f) = false
    /\ folder t = leafName (path f)
    /\ 0 < keywordScore (Js.toLowerCase text) (leafName (path f)).
Proof.
  unfold candidates. rewrite List.filter_In, List.in_map_iff.
  intros [(f & <- & Hf) Hs]. apply List.filter_In in Hf as [Hf Hr].
  exists f. cbn [folder score] in *. repeat split; [exact Hf | | ].
  - now apply negb_true_iff in Hr.
  - apply negb_true_iff, Z.eqb_neq in Hs.
    pose proof (keywordScore_nonneg (Js.toLowerCase text) (leafName (path f))).
    lia.
Qed.

Lemma firstn_incl {A : Type} (n : nat) (l : list A) (x : A) :
  In x (firstn n l) -> In x l.
Proof.
  revert l; induction n as [|n IH]; intros [|y l]; simpl; try tauto.
  intros [-> | H]; auto.
Qed.

Lemma suggestTagsKeyword_tags (h : Host) (text : string) (w : World) :
  exists tags,
    suggestTagsKeyword h text w = (Returns tags, w)
    /\ (length tags <= 3)%nat
    /\ forall tag,
         In tag tags ->
         exists f,
           In f (getAllFolders h (vault w)) /\ isRoot (path f) = false
           /\ tag = leafName (path f)
           /\ 0 < keywordScore (Js.toLowerCase text) (leafName (path f)).
Proof.
  eexists. split; [| split].
  - unfold suggestTagsKeyword, bind, getFolders, ret. cbv zeta.
    rewrite scoreFolders_candidates. reflexivity.
  - rewrite length_map. unfold JsArray.slice0. rewrite length_firstn. lia.
  - intros tag Hin. apply List.in_map_iff in Hin as (t & <- & Hin).
    unfold JsArray.slice0 in Hin. apply firstn_incl in Hin.
    cbn [app] in Hin.
    apply (Permutation_in _ (Permutation_sym (sort_perm _))) in Hin.
    now apply candidates_In.
Qed.

(** X8.  Both strategies return at most three tags and leave the world
    as it was.  A tag of the keyword strategy is, for a folder of the
    vault whose path is neither empty nor a slash and whose score is
    positive, the part of its path after the last slash (the whole path
    when it has no slash); the same name comes twice when two such
    folders share it. *)
Theorem suggestTags_at_most_three (h : Host)
    (settings : ClipboardToNoteSettings) (text : string) (w : World) :
  (exists tags,
     suggestTagsKeyword h text w = (Returns tags, w)
     /\ (length tags <= 3)%nat
     /\ forall tag,
          In tag tags ->
          exists f,
            In f (getAllFolders h (vault w))
            /\ path f <> "" /\ path f <> "/"
            /\ tag = lastSegment (path f)
            /\ (forall a b, tag <> a +:+ "/" +:+ b)
            /\ (path f = tag \/ exists dir, path f = dir +:+ "/" +:+ tag)
            /\ 0 < folderScore (Js.toLowerCase text) (lastSegment (path f)))
  /\ (exists tags,
        suggestTagsOpenAI h settings text w = (Returns tags, w)
        /\ (length tags <= 3)%nat).
Proof.
  split.
  { destruct (suggestTagsKeyword_tags h text w) as (kw & Hkw & Hl & Hin).
    exists kw. split; [exact Hkw | split; [exact Hl |]].
    intros tag Htag. destruct (Hin tag Htag) as (f & Hf & Hroot & -> & Hs).
    exists f. rewrite isRoot_isVaultRoot in Hroot.
    apply bool_decide_eq_false in Hroot.
    rewrite leafName_lastSegment, keywordScore_folderScore in Hs.
    rewrite leafName_lastSegment.
    destruct (lastSegment_spec (path f)) as [Hno Hpath].
    repeat (split; [tauto || assumption |]). exact Hs. }
  destruct (suggestTagsKeyword_tags h text w) as (kw & Hkw & Hl & _).
  unfold suggestTagsOpenAI.
  destruct (Js.truthy (openAIApiKey settings)); cbn [negb]; [| eauto].
  unfold tryCatch, bind at 1, getFolders. cbv zeta.
  destruct (length (folderNamesOf (getAllFolders h (vault w))) =? 0)%nat.
  { unfold ret. exists []. split; [reflexivity | simpl; lia]. }
  unfold bind, await.
  destruct (fetchChat h _) as [r | m]; [| unfold throw; eauto].
  unfold ret. destruct (ok r); cbn [negb]; [| rewrite Hkw; eauto].
  destruct (completionContent h (fetchBody r)) as [c|];
    [| unfold throw; eauto].
  unfold ret. destruct (JSON_parse h (Js.trim c)) as [[items|]|];
    unfold ret, throw; [| rewrite Hkw; eauto | eauto].
  eexists. split; [reflexivity |].
  unfold JsArray.slice0. rewrite length_firstn. lia.
Qed.

(** *** [ensureFolderExists] *)

(** X9.  [ensureFolderExists] looks at the normalized path.  When
    something is there, a folder or a file, it returns and changes
    nothing.  When nothing is there it creates the folder, or throws the
    error of the host again and changes nothing.  After a call that
    returns something is at the path, and a second call changes
    nothing. *)
Theorem ensureFolderExists_spec (h : Host) (folderPath : string) (w : World) :
  let p := normalizePath h folderPath in
  let run := ensureFolderExists h folderPath w in
  (is_Some (vault w !! p) -> run = (Returns tt, w))
  /\ (forall message,
        vault w !! p = None -> createFolderError h p = Some message ->
        run = (Throws message, w))
  /\ (vault w !! p = None -> createFolderError h p = None ->
      run = (Returns tt, setVault (insert p Folder) w))
  /\ (forall w',
        run = (Returns tt, w') ->
        is_Some (vault w' !! p)
        /\ ensureFolderExists h folderPath w' = (Returns tt, w')).
Proof.
  intros p run. unfold run, ensureFolderExists. cbv zeta. fold p.
  unfold bind at 1 2 3 4, getAbstractFileByPath.
  split; [| split; [| split]].
  - intros [e He]. now rewrite He.
  - intros message Hn Hc. rewrite Hn.
    unfold tryCatch, createFolder, vaultWrite. now rewrite Hc.
  - intros Hn Hc. rewrite Hn.
    unfold tryCatch, createFolder, vaultWrite. now rewrite Hc.
  - intros w'. destruct (vault w !! p) as [e|] eqn:E.
    + intros H. injection H as <-. unfold bind. rewrite E. eauto.
    + unfold tryCatch at 1, createFolder, vaultWrite.
      destruct (createFolderError h p); [discriminate |].
      intros H. injection H as <-. unfold bind. cbn [setVault vault].
      rewrite lookup_insert_eq. eauto.
Qed.

(** *** [generateImagePrefix] *)

Lemma charAt_prefix (i : nat) :
  (i < 36)%nat ->
  exists c,
    charAt "abcdefghijklmnopqrstuvwxyz0123456789" i = Js.chr c
    /\ isPrefixChar c = true.
Proof.
  intros Hi.
  assert (H : forallb
                (fun i =>
                   match String.get i "abcdefghijklmnopqrstuvwxyz0123456789"
                   with
                   | Some c => isPrefixChar c
                   | None => false
                   end) (seq 0 36) = true) by (vm_compute; reflexivity).
  rewrite List.forallb_forall in H. specialize (H i).
  unfold charAt.
  destruct (String.get i _) as [c|];
    [| discriminate H; apply in_seq; lia].
  exists c. split; [reflexivity |]. apply H. apply in_seq. lia.
Qed.

Lemma isPrefixChar_safe (c : ascii) : isPrefixChar c = true -> isUnsafe c = false.
Proof.
  intros H. destruct (isUnsafe c) eqn:E; [| reflexivity].
  apply isUnsafe_spec in E. unfold unsafeCharacters in E. simpl in E.
  repeat (destruct E as [<- | E]; [discriminate H |]). destruct E.
Qed.

(** X10.  With random numbers in range, the prefix of the image files of
    a page is three characters, each a lower-case letter or a digit, so
    sanitizing a file name leaves it as it is; making it reads three
    random numbers and changes nothing else. *)
Theorem generateImagePrefix_spec (h : Host) (w : World) :
  (forall n bound, (0 < bound)%nat -> (randomBelow h n bound < bound)%nat) ->
  exists a b c,
    generateImagePrefix h w
    = (Returns (String a (String b (String c ""))), afterRandom w 3)
    /\ isPrefixChar a = true /\ isPrefixChar b = true
    /\ isPrefixChar c = true
    /\ sanitize (String a (String b (String c ""))) 
       = String a (String b (String c "")).
Proof.
  intros Hr. unfold generateImagePrefix, bind, random, ret. cbv zeta.
  cbn [vault dateReads randomReads notices opened].
  change (String.length "abcdefghijklmnopqrstuvwxyz0123456789") with 36%nat.
  destruct (charAt_prefix (randomBelow h (randomReads w) 36))
    as (a & -> & Ha); [apply Hr; lia |].
  destruct (charAt_prefix (randomBelow h (S (randomReads w)) 36))
    as (b & -> & Hb); [apply Hr; lia |].
  destruct (charAt_prefix (randomBelow h (S (S (randomReads w))) 36))
    as (c & -> & Hc); [apply Hr; lia |].
  exists a, b, c. split; [| repeat split; try assumption].
  - unfold afterRandom. cbn [String.append Js.chr].
    replace (randomReads w + 3)%nat with (S (S (S (randomReads w)))) by lia.
    reflexivity.
  - unfold sanitize. cbn [Js.replaceClass].
    now rewrite (isPrefixChar_safe a Ha), (isPrefixChar_safe b Hb),
      (isPrefixChar_safe c Hc).
Qed.

Lemma generateImagePrefix_spec_witness :
  (forall n bound,
     (0 < bound)%nat -> (randomBelow diceHost n bound < bound)%nat)
  /\ exists a b c,
       generateImagePrefix diceHost (startWorld ∅)
       = (Returns (String a (String b (String c ""))),
          afterRandom (startWorld ∅) 3)
       /\ isPrefixChar a = true /\ isPrefixChar b = true
       /\ isPrefixChar c = true
       /\ sanitize (String a (String b (String c "")))
          = String a (String b (String c "")).
Proof.
  assert (Hr : forall n bound,
            (0 < bound)%nat -> (randomBelow diceHost n bound < bound)%nat).
  { intros n bound Hb. cbn [randomBelow diceHost].
    apply Nat.mod_upper_bound. lia. }
  split; [exact Hr |].
  exact (generateImagePrefix_spec diceHost (startWorld ∅) Hr).
Defined.


(** *** [downloadImagesInContent] *)

Lemma splitFirst_sound (pat : string) :
  forall s before after,
    Js.splitFirst pat s = Some (before, after) ->
    s = before +:+ pat +:+ after.
Proof.
  induction s as [|c s IH]; intros before after; rewrite splitFirst_unfold.
  - destruct (Js.stripPrefix pat "") as [rest|] eqn:E; [| discriminate].
    intros H. injection H as <- <-. now apply stripPrefix_Some in E.
  - destruct (Js.stripPrefix pat (String c s)) as [rest|] eqn:E.
    + intros H. injection H as <- <-. now apply stripPrefix_Some in E.
    + destruct (Js.splitFirst pat s) as [[b a]|] eqn:Es; [| discriminate].
      intros H. injection H as <- <-. cbn [String.append].
      now rewrite <- (IH b a eq_refl).
Qed.

(** Replacing a text without dollar signs by itself changes nothing. *)
Lemma replace_same (x s : string) :
  Js.includes s "$" = false -> Js.replace x s s = x.
Proof.
  intros Hs. unfold Js.replace.
  destruct (Js.splitFirst s x) as [[before after]|] eqn:E; [| reflexivity].
  rewrite getSubstitution_plain by exact Hs.
  symmetry. now apply splitFirst_sound.
Qed.

Lemma applyReplacements_selfsame (replacements : list (string * string))
    (x : string) :
  Selfsame replacements -> applyReplacements replacements x = x.
Proof.
  unfold Selfsame. induction 1 as [|[s t] l [Hst Hd] _ IH]; [reflexivity |].
  cbn [fst snd] in *. subst t. rewrite applyReplacements_cons.
  now rewrite replace_same.
Qed.

(** A download that gets no response of status 200 gives the URL back
    and changes nothing. *)
Lemma downloadImage_no_response (h : Host)
    (imageUrl filename notePath : string) (w : World) :
  (forall r, requestUrl h imageUrl = Done r -> status r <> 200) ->
  downloadImage h imageUrl filename notePath w = (Returns imageUrl, w).
Proof.
  intros H. unfold downloadImage, tryCatch, bind at 1, await.
  destruct (requestUrl h imageUrl) as [r | message]; [| reflexivity].
  unfold ret at 1. specialize (H r eq_refl). apply Z.eqb_neq in H.
  now rewrite H.
Qed.

Lemma localizeStep_stays (h : Host) (notePath prefix : string)
    (replacements : list (string * string)) (m : string * string) (w : World) :
  StaysRemote h m -> Selfsame replacements ->
  exists replacements',
    localizeStep h notePath prefix replacements m w
    = (Returns replacements', w)
    /\ Selfsame replacements'.
Proof.
  intros Hm Hs. destruct m as [alt imageUrl]. unfold localizeStep.
  unfold StaysRemote in Hm. cbn [fst snd] in Hm.
  destruct (negb (Js.startsWith imageUrl "http://")
            && negb (Js.startsWith imageUrl "https://")) eqn:E;
    [exists replacements; now split |].
  destruct Hm as [[H1 H2] | [Hp | (Hr & Ha & Hu)]].
  - rewrite H1, H2 in E. discriminate E.
  - unfold tryCatch, bind at 1. rewrite Hp. exists replacements. now split.
  - unfold tryCatch, bind at 1.
    destruct (URL_pathname h imageUrl) as [pathname|];
      [| exists replacements; now split].
    unfold ret at 1. cbv zeta.
    unfold bind. rewrite (downloadImage_no_response _ _ _ _ _ Hr).
    eexists. split; [reflexivity |].
    apply Forall_app. split; [exact Hs |].
    constructor; [| constructor]. cbn [fst snd]. split; [reflexivity |].
    now apply fullMatch_dollar.
Qed.

Lemma forEachMatch_stays (h : Host) (notePath prefix : string)
    (matches : list (string * string)) (w : World) :
  List.Forall (StaysRemote h) matches ->
  forall replacements,
    Selfsame replacements ->
    exists replacements',
      forEachMatch (localizeStep h notePath prefix) matches replacements w
      = (Returns replacements', w)
      /\ Selfsame replacements'.
Proof.
  induction 1 as [|m matches Hm _ IH]; intros replacements Hs;
    cbn [forEachMatch]; [exists replacements; now split |].
  destruct (localizeStep_stays h notePath prefix replacements m w Hm Hs)
    as (r1 & H1 & Hs1).
  rewrite (bind_run _ _ _ _ _ H1). now apply IH.
Qed.

(** X11.  When every image reference of the text stays remote (its URL
    is not an http or https URL, or does not parse, or its download gets
    no response of status 200 and the reference has no dollar sign),
    [downloadImagesInContent] returns the text as it is and changes
    nothing: no folder is made and no file is written. *)
Theorem downloadImagesInContent_unchanged (h : Host)
    (markdownContent baseUrl notePath prefix : string) (w : World) :
  List.Forall (StaysRemote h) (imageMatches 0 markdownContent) ->
  downloadImagesInContent h markdownContent baseUrl notePath prefix w
  = (Returns markdownContent, w).
Proof.
  intros H. unfold downloadImagesInContent.
  destruct (forEachMatch_stays h notePath prefix _ w H [])
    as (r & Hr & Hs); [constructor |].
  rewrite (bind_run _ _ _ _ _ Hr). unfold ret.
  now rewrite applyReplacements_selfsame.
Qed.

Lemma downloadImagesInContent_unchanged_witness :
  let markdownContent :=
    ("![photo](https://site.com/page/images/photo.png) and "
     +:+ "![dot](data:image/gif;base64,R0lGOD)")%string in
  List.Forall (StaysRemote offlineHost) (imageMatches 0 markdownContent)
  /\ downloadImagesInContent offlineHost markdownContent
       "https://site.com/page" "Inbox/Web Clipping.md" "abc" (startWorld ∅)
     = (Returns markdownContent, startWorld ∅).
Proof.
  intros markdownContent.
  assert (H : List.Forall (StaysRemote offlineHost)
                (imageMatches 0 markdownContent)).
  { change (imageMatches 0 markdownContent)
      with [("photo", "https://site.com/page/images/photo.png");
            ("dot", "data:image/gif;base64,R0lGOD")]%string.
    constructor; [| constructor; [| constructor]].
    - right. right. split; [intros r Hr; discriminate Hr |].
      split; reflexivity.
    - left. split; reflexivity. }
  split; [exact H |].
  exact (downloadImagesInContent_unchanged offlineHost markdownContent
           "https://site.com/page" "Inbox/Web Clipping.md" "abc"
           (startWorld ∅) H).
Defined.

(** *** [convertRelativeImageUrls] on a text with nothing to rewrite *)

Lemma convertRelativeImageUrls_untouched_witness :
  let markdownContent :=
    ("![logo](https://cdn.site.com/logo.png) $& "
     +:+ "![dot](data:image/gif;base64,R0lGOD) ![none](//)")%string in
  (forall alt url,
     In (alt, url) (imageMatches 0 markdownContent) ->
     isAbsoluteRef url = true
     \/ URL_resolve offlineHost url (baseDirectory "https://site.com/page")
        = None)
  /\ convertRelativeImageUrls offlineHost markdownContent
       "https://site.com/page"
     = markdownContent.
Proof.
  intros markdownContent.
  assert (H : forall alt url,
            In (alt, url) (imageMatches 0 markdownContent) ->
            isAbsoluteRef url = true
            \/ URL_resolve offlineHost url
                 (baseDirectory "https://site.com/page") = None).
  { change (imageMatches 0 markdownContent)
      with [("logo", "https://cdn.site.com/logo.png");
            ("dot", "data:image/gif;base64,R0lGOD"); ("none", "//")]%string.
    intros alt url [E | [E | [E | []]]]; injection E as <- <-;
      [left | left | right]; reflexivity. }
  split; [exact H |].
  exact (convertRelativeImageUrls_untouched offlineHost markdownContent
           "https://site.com/page" H).
Defined.


(** *** The settings *)





Example settings_reload_example :
  let p := {| settings := DEFAULT_SETTINGS;
              data := Some {| storedInboxFolder := Some "Clips";
                              storedUseOpenAI := None;
                              storedOpenAIApiKey := None;
                              storedDownloadImages := None |} |} in
  let p' := afterChanges p [DownloadImagesChange true; InboxFolderChange ""] in
  settings p'
  = {| inboxFolder := "Inbox"; useOpenAI := false; openAIApiKey := "";
       downloadImages := true |}
  /\ settings (loadSettings p') = settings p'.
Proof. split; reflexivity. Qed.
